(** * Photo categorizer: a shallow embedding of [working_app.py]

    The program files uploaded photos into per-label folders according to
    the outcome of a stock face detector, and stores sample photos of
    registered persons.  Everything it does is path arithmetic
    ([pathlib]), a handful of file-system calls ([Path.mkdir],
    [shutil.copy], [os.unlink], [tempfile]) and one call into OpenCV.

    The development follows the program top-down:
    - strings and [pathlib.PurePosixPath] (purely lexical);
    - a POSIX file system as a finite map from canonical paths to nodes,
      with the kernel's component-by-component path resolution;
    - the world monad: state (file system, Streamlit output) plus
      exceptions that keep the effects performed before the [raise];
    - [SimpleFaceCategorizer] and the two Streamlit handlers;
    - the theorems.

    Outside the model: symbolic and hard links, permissions, quotas, name
    length limits, and other processes touching the tree while a call
    runs. *)

From Stdlib Require Import QArith.
From stdpp Require Import gmap strings list fin_maps pretty.
From Stdlib Require Import Ascii Strings.Byte.
Close Scope Q_scope.
Open Scope string_scope.
Open Scope list_scope.

Set Default Proof Using "Type".

(** ** Strings *)

Module Str.

(** [s.split("/")]: never empty, one more element than there are
    separators. *)
Fixpoint split_slash (s : string) : list string :=
  match s with
  | EmptyString => [""]
  | String c r =>
      if Ascii.eqb c "/" then "" :: split_slash r
      else match split_slash r with
           | h :: t => String c h :: t
           | [] => [String c ""]
           end
  end.

Fixpoint has_char (a : ascii) (s : string) : bool :=
  match s with
  | EmptyString => false
  | String c r => Ascii.eqb c a || has_char a r
  end.

Definition startswith_slash (s : string) : bool :=
  match s with
  | String c _ => Ascii.eqb c "/"
  | EmptyString => false
  end.

Fixpoint endswith_slash (s : string) : bool :=
  match s with
  | EmptyString => false
  | String c EmptyString => Ascii.eqb c "/"
  | String _ r => endswith_slash r
  end.

(** ["/".join(l)] *)
Definition join_slash (l : list string) : string := String.concat "/" l.

End Str.

(** ** pathlib *)

Module pathlib.

(** A [PurePosixPath]: the root (["", "/" or "//"]) and the
    components after it.  POSIX paths have no drive. *)
Record PurePath := mkPath { root : string; parts : list string }.

(** [posixpath.splitroot]: exactly two leading slashes are kept, three
    or more collapse to one. *)
Definition splitroot (s : string) : string :=
  match s with
  | String "/" (String "/" (String "/" _)) => "/"
  | String "/" (String "/" _) => "//"
  | String "/" _ => "/"
  | _ => ""
  end.

(** [Path(s)]: empty and ["."] components are dropped, [".."] is kept. *)
Definition Path (s : string) : PurePath :=
  {| root := splitroot s;
     parts := filter (λ x, x ≠ "" ∧ x ≠ ".") (Str.split_slash s) |}.

(** [p / s]: an anchored right operand replaces the left one. *)
Definition joinpath (p : PurePath) (s : string) : PurePath :=
  let q := Path s in
  if decide (root q = "") then
    {| root := root p; parts := parts p ++ parts q |}
  else q.

(** [p.name]: the final component, [""] when there is none. *)
Definition name (p : PurePath) : string := default "" (last (parts p)).

(** [str(p)] *)
Definition str (p : PurePath) : string :=
  match parts p with
  | [] => if decide (root p = "") then "." else root p
  | _ => root p +:+ Str.join_slash (parts p)
  end.

End pathlib.

Notation "p // s" := (pathlib.joinpath p s) (at level 40, left associativity).

(** ** The world: a POSIX file system and the Streamlit page *)

Module os.

Inductive node : Type :=
| Dir
| File (data : list Byte.byte).

#[export] Instance byte_eq_decision : EqDecision Byte.byte := Byte.byte_eq_dec.

#[export] Instance node_eq_dec : EqDecision node.
Proof. solve_decision. Defined.

(** Canonical location of a node: the names from the root down. *)
Abbreviation key := (list string).

(** The exceptions that escape from the calls the program makes. *)
Inductive exn : Type :=
| FileNotFoundError
| FileExistsError
| NotADirectoryError
| IsADirectoryError
| SameFileError
| ValueError.

(** What the page shows; the program only ever appends. *)
Inductive ui_event : Type :=
| st_error (msg : string)
| st_success (msg : string)
| st_warning (msg : string)
| st_metric (label : string) (value : nat).

Record World := mkWorld {
  cwd : key;
  files : gmap key node;
  page : list ui_event
}.

Definition set_files (f : gmap key node → gmap key node) (w : World) : World :=
  {| cwd := cwd w; files := f (files w); page := page w |}.

Definition show (e : ui_event) (w : World) : World :=
  {| cwd := cwd w; files := files w; page := page w ++ [e] |}.

(** The root directory always exists and is not stored. *)
Definition stat (fs : gmap key node) (k : key) : option node :=
  if decide (k = []) then Some Dir else fs !! k.

(** Every stored node hangs below a directory. *)
Definition tree (fs : gmap key node) : Prop :=
  map_Forall (λ k _, k ≠ [] ∧ stat fs (removelast k) = Some Dir) fs.

#[export] Instance tree_dec fs : Decision (tree fs).
Proof. unfold tree. apply _. Defined.

(** *** Path resolution (the kernel's [namei]) *)

(** Components as the kernel sees them: empty components vanish, except
    that a trailing slash demands a directory, like a final ["."]. *)
Fixpoint kernel_comps (segs : list string) : list string :=
  match segs with
  | [] => []
  | s :: rest =>
      match rest with
      | [] => if decide (s = "") then ["."] else [s]
      | _ => if decide (s = "") then kernel_comps rest else s :: kernel_comps rest
      end
  end.

Definition step (cur : key) (c : string) : key :=
  if decide (c = ".") then cur
  else if decide (c = "..") then removelast cur
  else cur ++ [c].

(** A component is only looked up inside an existing directory; the node
    reached last may be missing. *)
Fixpoint walk (fs : gmap key node) (cur : key) (comps : list string) : exn + key :=
  match comps with
  | [] => inr cur
  | c :: rest =>
      match stat fs cur with
      | None => inl FileNotFoundError
      | Some (File _) => inl NotADirectoryError
      | Some Dir => walk fs (step cur c) rest
      end
  end.

Definition namei (w : World) (s : string) : exn + key :=
  if Str.has_char "000" s then inl ValueError
  else if decide (s = "") then inl FileNotFoundError
  else walk (files w) (if Str.startswith_slash s then [] else cwd w)
            (kernel_comps (Str.split_slash s)).

(** [os.stat]: the node must exist. *)
Definition lookup_path (w : World) (s : string) : exn + (key * node) :=
  match namei w s with
  | inl e => inl e
  | inr k =>
      match stat (files w) k with
      | Some n => inr (k, n)
      | None => inl FileNotFoundError
      end
  end.

(** *** The monad of the program: state and exceptions

    An exception does not undo what was done before it was raised, so the
    world is returned in both cases. *)
Definition M (A : Type) : Type := World → (exn + A) * World.

#[export] Instance M_ret : MRet M := λ A a w, (inr a, w).

#[export] Instance M_bind : MBind M := λ A B f m w,
  match m w with
  | (inr a, w') => f a w'
  | (inl e, w') => (inl e, w')
  end.

Definition raise {A} (e : exn) : M A := λ w, (inl e, w).

Definition gets {A} (f : World → A) : M A := λ w, (inr (f w), w).

Definition modify (f : World → World) : M unit := λ w, (inr tt, f w).

Definition lift {A} (f : World → exn + A) : M A := λ w, (f w, w).

(** [try: body finally: cleanup] *)
Definition try_finally {A} (body : M A) (cleanup : World → World) : M A := λ w,
  let '(r, w') := body w in (r, cleanup w').

(** [for x in l: body(x)], stopping at the first exception. *)
Fixpoint for_each {A} (l : list A) (body : A → M unit) : M unit :=
  match l with
  | [] => mret tt
  | x :: rest => body x ;; for_each rest body
  end.

(** *** System calls and library functions *)

(** [os.path.isdir], [Path.is_dir]: false on any failure. *)
Definition isdir (w : World) (s : string) : bool :=
  match lookup_path w s with
  | inr (_, Dir) => true
  | _ => false
  end.

(** [os.mkdir] *)
Definition mkdir (s : string) : M unit :=
  k ← lift (λ w, namei w s);
  n ← gets (λ w, stat (files w) k);
  match n with
  | Some _ => raise FileExistsError
  | None => modify (set_files (insert k Dir))
  end.

(** [Path.mkdir(exist_ok=True)], with [parents] left at [False]:
[[
    try: os.mkdir(self, mode)
    except FileNotFoundError:
        if not parents or self.parent == self: raise
    except OSError:
        if not exist_ok or not self.is_dir(): raise
]]
    [ValueError] is no [OSError] and passes through. *)
Definition Path_mkdir_exist_ok (p : pathlib.PurePath) : M unit := λ w,
  match mkdir (pathlib.str p) w with
  | (inl FileNotFoundError, w') => (inl FileNotFoundError, w')
  | (inl ValueError, w') => (inl ValueError, w')
  | (inl e, w') => if isdir w' (pathlib.str p) then (inr tt, w') else (inl e, w')
  | (inr tt, w') => (inr tt, w')
  end.

(** [open(s, "rb").read()] *)
Definition read_bytes (s : string) : M (list Byte.byte) :=
  kn ← lift (λ w, lookup_path w s);
  match kn.2 with
  | File data => mret data
  | Dir => raise IsADirectoryError
  end.

(** [open(s, "wb").write(data)]: creates or truncates. *)
Definition write_bytes (s : string) (data : list Byte.byte) : M unit :=
  k ← lift (λ w, namei w s);
  n ← gets (λ w, stat (files w) k);
  match n with
  | Some Dir => raise IsADirectoryError
  | _ => modify (set_files (insert k (File data)))
  end.

(** [os.path.basename], [os.path.join] *)
Definition basename (s : string) : string := default "" (last (Str.split_slash s)).

Definition path_join (a b : string) : string :=
  if Str.startswith_slash b then b
  else if decide (a = "") then b
  else if Str.endswith_slash a then a +:+ b
  else a +:+ "/" +:+ b.

(** [shutil._samefile]: [os.path.samefile] with every [OSError] turned
    into [False].  Without links two paths name the same file exactly
    when they resolve to the same node. *)
Definition _samefile (src dst : string) : M bool := λ w,
  match lookup_path w src with
  | inl ValueError => (inl ValueError, w)
  | inl _ => (inr false, w)
  | inr (k1, _) =>
      match lookup_path w dst with
      | inl ValueError => (inl ValueError, w)
      | inl _ => (inr false, w)
      | inr (k2, _) => (inr (bool_decide (k1 = k2)), w)
      end
  end.

(** [shutil.copyfile] *)
Definition copyfile (src dst : string) : M unit :=
  same ← _samefile src dst;
  if (same : bool) then raise SameFileError
  else data ← read_bytes src; write_bytes dst data.

(** [shutil.copy]; the permission bits it also copies are not modelled.
[[
    if os.path.isdir(dst):
        dst = os.path.join(dst, os.path.basename(src))
    copyfile(src, dst)
    return dst
]] *)
Definition copy (src dst : string) : M string :=
  d ← gets (λ w, isdir w dst);
  let dst' := if (d : bool) then path_join dst (basename src) else dst in
  copyfile src dst';; mret dst'.

(** [os.unlink] *)
Definition unlink (s : string) : M unit :=
  kn ← lift (λ w, lookup_path w s);
  match kn.2 with
  | File _ => modify (set_files (delete kn.1))
  | Dir => raise IsADirectoryError
  end.

(** [os.listdir]: the names directly below [d]. *)
Definition child_name (d k : key) : option string :=
  if decide (k ≠ [] ∧ removelast k = d) then last k else None.

Definition listdir (fs : gmap key node) (d : key) : list (string * node) :=
  omap (λ kn, (λ c, (c, kn.2)) <$> child_name d kn.1) (map_to_list fs).

(** [shutil.rmtree] as run by [TemporaryDirectory.cleanup], which
    swallows errors: the directory and everything below it go. *)
Definition rmtree (s : string) (w : World) : World :=
  match namei w s with
  | inr d => set_files (filter (λ kn, ¬ d `prefix_of` kn.1)) w
  | inl _ => w
  end.

(** [tempfile]: the random name is the environment's choice.  [mkstemp]
    and [mkdtemp] create exclusively; a name already in use would make
    them draw again, so the oracle hands over the name finally used. *)
Definition mkstemp (tmp_path : string) : M unit :=
  k ← lift (λ w, namei w tmp_path);
  n ← gets (λ w, stat (files w) k);
  match n with
  | Some _ => raise FileExistsError
  | None => modify (set_files (insert k (File [])))
  end.

End os.

(** ** OpenCV, as far as the program uses it *)

Module cv2.

(** A detected region: x, y, width, height. *)
Definition Rect : Type := Z * Z * Z * Z.

Inductive ColorConversionCode : Type := COLOR_BGR2GRAY.

(** The library is an interface: the theorems hold for every
    implementation of it.  A call that raises [cv2.error] returns the
    text of the exception on the left. *)
Class OpenCV : Type := {
  Mat : Type;
  Classifier : Type;
  (** decoding of a file's bytes; [None] when they are no image *)
  imdecode : list Byte.byte → option Mat;
  cvtColor : Mat → ColorConversionCode → string + Mat;
  (** [cv2.data.haarcascades], the directory of the stock cascades *)
  haarcascades : string;
  CascadeClassifier : string → Classifier;
  (** [detectMultiScale(image, scaleFactor, minNeighbors, minSize)] *)
  detectMultiScale : Classifier → Mat → Q → Z → Z * Z → string + list Rect
}.

(** [cv2.imread]: never raises; [None] when the file is missing,
    unreadable or not an image. *)
Definition imread `{OpenCV} (filename : string) (w : os.World) : option Mat :=
  match os.read_bytes filename w with
  | (inr data, _) => imdecode data
  | (inl _, _) => None
  end.

End cv2.

(** ** The program *)

Import pathlib os cv2.

(** A Python [dict] with string keys, holding strings and integers. *)
Inductive value : Type :=
| VStr (s : string)
| VInt (n : nat).

#[export] Instance value_eq_dec : EqDecision value.
Proof. solve_decision. Defined.

Abbreviation dict := (gmap string value).

(** [enumerate(l)], counting from [start]. *)
Fixpoint enumerate_from {A} (start : nat) (l : list A) : list (nat * A) :=
  match l with
  | [] => []
  | x :: rest => (start, x) :: enumerate_from (S start) rest
  end.

Definition enumerate {A} (l : list A) : list (nat * A) := enumerate_from 0 l.

Module SimpleFaceCategorizer.

(** [self.data_dir = Path("data")] *)
Definition data_dir : PurePath := Path "data".

Definition __init__ : M unit :=
  Path_mkdir_exist_ok data_dir;;
  Path_mkdir_exist_ok (data_dir // "registered");;
  Path_mkdir_exist_ok (data_dir // "categorized").

(** The body of the [try] block, up to the first exception. *)
Definition detect_attempt `{OpenCV} (image_path : string) (w : World) : string + list Rect :=
  match imread image_path w with
  | None => inr []
  | Some img =>
      match cvtColor img COLOR_BGR2GRAY with
      | inl e => inl e
      | inr gray =>
          let face_cascade :=
            CascadeClassifier (haarcascades +:+ "haarcascade_frontalface_default.xml") in
          detectMultiScale face_cascade gray 1.1%Q 5%Z (30%Z, 30%Z)
      end
  end.

Definition detect_faces_opencv `{OpenCV} (image_path : string) : M (list Rect) := λ w,
  match detect_attempt image_path w with
  | inr faces => (inr faces, w)
  | inl e => (inr [], show (st_error ("Error detecting faces: " +:+ e)) w)
  end.

Definition sample_file (idx : nat) : string :=
  "sample_" +:+ pretty (idx + 1) +:+ ".jpg".

Definition register_person (name : string) (sample_images : list string) : M bool :=
  let person_dir := data_dir // "registered" // name in
  Path_mkdir_exist_ok person_dir;;
  for_each (enumerate sample_images) (λ '(idx, img_path),
    let dest_path := person_dir // sample_file idx in
    copy img_path (str dest_path);; mret tt);;
  mret true.

Definition process_photo `{OpenCV} (image_path person_name : string) : M dict :=
  faces ← detect_faces_opencv image_path;
  if decide (0 < length faces) then
    let output_dir := data_dir // "categorized" // person_name in
    Path_mkdir_exist_ok output_dir;;
    let dest_path := output_dir // name (Path image_path) in
    (copy image_path (str dest_path);;
     mret ({[ "status" := VStr "success";
              "person" := VStr person_name;
              "faces_detected" := VInt (length faces);
              "destination" := VStr (str dest_path) ]} : dict))
  else
    let unknown_dir := data_dir // "categorized" // "unknown" in
    Path_mkdir_exist_ok unknown_dir;;
    let dest_path := unknown_dir // name (Path image_path) in
    (copy image_path (str dest_path);;
     mret ({[ "status" := VStr "no_faces";
              "destination" := VStr (str dest_path) ]} : dict)).

End SimpleFaceCategorizer.

(** ** The Streamlit script

    What the user typed, selected and uploaded is input; so are the names
    [tempfile] draws.  Rendering (the list of registered persons, the
    previews and the gallery) only reads and is left out. *)

Module app.

Import SimpleFaceCategorizer.

(** An uploaded file: the name the browser sent and the bytes. *)
Record UploadedFile := { upload_name : string; getbuffer : list Byte.byte }.

(** [for uploaded_file in uploaded_samples: ...; sample_paths.append(tmp_path)] *)
Fixpoint save_samples (tmp_dir : string) (uploaded_samples : list UploadedFile)
    : M (list string) :=
  match uploaded_samples with
  | [] => mret []
  | uploaded_file :: rest =>
      let tmp_path := path_join tmp_dir (upload_name uploaded_file) in
      write_bytes tmp_path (getbuffer uploaded_file);;
      sample_paths ← save_samples tmp_dir rest;
      mret (tmp_path :: sample_paths)
  end.

(** The sidebar.  [tmp_dir] is the directory [TemporaryDirectory()]
    makes; it is removed when the [with] block is left, by an exception
    too. *)
Definition register_form (clicked : bool) (person_name : string)
    (uploaded_samples : list UploadedFile) (tmp_dir : string) : M unit :=
  if clicked && bool_decide (person_name ≠ "") && bool_decide (uploaded_samples ≠ []) then
    mkdir tmp_dir;;
    try_finally
      (sample_paths ← save_samples tmp_dir uploaded_samples;
       ok ← register_person person_name sample_paths;
       if (ok : bool) then modify (show (st_success (person_name +:+ " registered!")))
       else mret tt)
      (rmtree tmp_dir)
  else mret tt.

(** [[p.name for p in registered_dir.iterdir() if p.is_dir()]], guarded
    by [registered_dir.exists()]; the order is the file system's. *)
Definition persons : M (list string) :=
  let registered_dir := Path "data/registered" in
  found ← gets (λ w, lookup_path w (str registered_dir));
  match found with
  | inl _ => mret []
  | inr (_, File _) => raise NotADirectoryError
  | inr (d, Dir) =>
      entries ← gets (λ w, listdir (files w) d);
      mret (omap (λ cn, match cn.2 with Dir => Some cn.1 | File _ => None end) entries)
  end.

(** One turn of the batch loop: the upload is saved under the name
    [NamedTemporaryFile(delete=False, suffix=".jpg")] drew, categorized
    from there, and the temporary file is unlinked. *)
Definition categorize_upload `{OpenCV} (selected_person : string)
    (uploaded_file : UploadedFile) (tmp_path : string) : M dict :=
  mkstemp tmp_path;;
  write_bytes tmp_path (getbuffer uploaded_file);;
  result ← (if decide (selected_person = "Unknown")
            then process_photo tmp_path "unknown"
            else process_photo tmp_path selected_person);
  unlink tmp_path;;
  mret result.

Fixpoint categorize_batch `{OpenCV} (selected_person : string)
    (uploaded_files : list UploadedFile) (tmp_paths : nat → string) (i : nat)
    : M (list dict) :=
  match uploaded_files with
  | [] => mret []
  | uploaded_file :: rest =>
      result ← categorize_upload selected_person uploaded_file (tmp_paths i);
      results ← categorize_batch selected_person rest tmp_paths (S i);
      mret (result :: results)
  end.

Definition count_status (status : string) (results : list dict) : nat :=
  length (filter (λ r : dict, r !! "status" = Some (VStr status)) results).

(** The main area.  [choice] is the position the user picked in the
    select box, whose options are [persons + ["Unknown"]]. *)
Definition categorize_form `{OpenCV} (uploaded_files : list UploadedFile)
    (choice : nat) (clicked : bool) (tmp_paths : nat → string) : M unit :=
  if bool_decide (uploaded_files ≠ []) then
    names ← persons;
    if bool_decide (names ≠ []) then
      let selected_person := default "Unknown" ((names ++ ["Unknown"]) !! choice) in
      if clicked then
        results ← categorize_batch selected_person uploaded_files tmp_paths 0;
        modify (show (st_success ("Processed " +:+ pretty (length results) +:+ " photos!")));;
        modify (show (st_metric "Photos with Faces" (count_status "success" results)));;
        modify (show (st_metric "No Faces Detected" (count_status "no_faces" results)))
      else mret tt
    else modify (show (st_warning "Please register at least one person first!"))
  else mret tt.

(** What one run of the script receives. *)
Record Inputs := {
  register_clicked : bool;
  person_name : string;
  uploaded_samples : list UploadedFile;
  uploaded_files : list UploadedFile;
  choice : nat;
  categorize_clicked : bool;
  tmp_dir : string;
  tmp_paths : nat → string
}.

(** The script from top to bottom. *)
Definition script `{OpenCV} (i : Inputs) : M unit :=
  __init__;;
  register_form (register_clicked i) (person_name i) (uploaded_samples i) (tmp_dir i);;
  categorize_form (uploaded_files i) (choice i) (categorize_clicked i) (tmp_paths i).

End app.

(** ** Vocabulary of the statements *)

Import SimpleFaceCategorizer app.

(** A proper file name: what a directory entry can be called. *)
Definition proper (s : string) : Prop :=
  s ≠ "" ∧ s ≠ "." ∧ s ≠ ".." ∧
  Str.has_char "/" s = false ∧ Str.has_char "000" s = false.

(** What [pathlib] keeps as a component. *)
Definition component (s : string) : Prop :=
  s ≠ "" ∧ s ≠ "." ∧ Str.has_char "/" s = false.

Definition wf_path (p : PurePath) : Prop :=
  (root p = "" ∨ root p = "/" ∨ root p = "//") ∧ Forall component (parts p).

(** The components of [str p] as the kernel sees them, and where the walk
    starts. *)
Definition path_comps (p : PurePath) : list string :=
  match parts p with
  | [] => ["."]
  | l => l
  end.

Definition start (w : World) (p : PurePath) : key :=
  if decide (root p = "") then cwd w else [].

(** The faces the detector reports for the file at [image_path]. *)
Definition detected `{OpenCV} (image_path : string) (w : World) : list Rect :=
  match detect_attempt image_path w with
  | inr faces => faces
  | inl _ => []
  end.

(** The world once detection has run: the file system is as before, the
    page may carry one more diagnostic. *)
Definition after_detection `{OpenCV} (image_path : string) (w : World) : World :=
  (detect_faces_opencv image_path w).2.

(** [Path.mkdir(exist_ok=True)] seen from the file system. *)
Definition ensure_dir (d : key) (fs : gmap key node) : gmap key node :=
  match stat fs d with
  | None => <[d := Dir]> fs
  | Some _ => fs
  end.

(** The storage tree [__init__] sets up, below the working directory. *)
Definition storage (w : World) (sub : list string) : key := cwd w ++ "data" :: sub.

Definition storage_ready (w : World) : Prop :=
  stat (files w) (cwd w) = Some Dir ∧
  stat (files w) (storage w []) = Some Dir ∧
  stat (files w) (storage w ["registered"]) = Some Dir ∧
  stat (files w) (storage w ["categorized"]) = Some Dir.

(** The state of a place where a folder is wanted and can be had. *)
Definition absent_or_dir (o : option node) : Prop := o = None ∨ o = Some Dir.

(** Resolution only looks at directories, so it survives every change
    that keeps them. *)
Definition keeps_dirs (fs fs' : gmap key node) : Prop :=
  ∀ k, stat fs k = Some Dir → stat fs' k = Some Dir.

(** The bytes behind a path, if it names a regular file. *)
Definition content (w : World) (s : string) : option (list Byte.byte) :=
  match lookup_path w s with
  | inr (_, File data) => Some data
  | _ => None
  end.

(** A readable file that does not live in the folder [d]. *)
Definition outside (w : World) (d : key) (s : string) : Prop :=
  match lookup_path w s with
  | inr (k, File _) => ¬ d `prefix_of` k
  | _ => False
  end.

#[export] Instance outside_dec w d s : Decision (outside w d s).
Proof. unfold outside. destruct (lookup_path w s) as [|[? []]]; apply _. Defined.

(** A folder with nothing in it, or not there at all. *)
Definition empty_folder (fs : gmap key node) (d : key) : Prop :=
  map_Forall (λ k _, d `prefix_of` k → k = d) fs.

#[export] Instance empty_folder_dec fs d : Decision (empty_folder fs d).
Proof. unfold empty_folder. apply _. Defined.

(** What the loop of [register_person] leaves in the folder [d]. *)
Fixpoint store_samples (d : key) (idx : nat) (samples : list (list Byte.byte))
    (fs : gmap key node) : gmap key node :=
  match samples with
  | [] => fs
  | data :: rest => store_samples d (S idx) rest (<[d ++ [sample_file idx] := File data]> fs)
  end.

(** ** A small installation, used in the examples *)

Module example.

(** A stand-in for OpenCV: an empty file does not decode, and the
    detector reports one region for every byte [x46] of the image. *)
#[export] Instance toy_cv : OpenCV := {|
  Mat := list Byte.byte;
  Classifier := string;
  imdecode := λ data, if decide (data = []) then None else Some data;
  cvtColor := λ img _, inr img;
  haarcascades := "/usr/share/opencv4/haarcascades/";
  CascadeClassifier := λ file, file;
  detectMultiScale := λ _ img _ _ _,
    inr ((λ _, (0, 0, 30, 30)%Z) <$> filter (λ x, x = x46) img)
|}.

Definition group_photo : list Byte.byte := [x46; x46; x46].
Definition landscape : list Byte.byte := [x4c].

(** A machine on which the program has never run. *)
Definition fresh : World := {|
  cwd := ["srv"; "app"];
  files := {[ ["srv"] := Dir;
              ["srv"; "app"] := Dir;
              ["tmp"] := Dir;
              ["srv"; "app"; "group_photo.jpg"] := File group_photo;
              ["srv"; "app"; "landscape.png"] := File landscape;
              ["srv"; "app"; "broken.jpg"] := File [];
              ["tmp"; "group_photo.jpg"] := File group_photo ]};
  page := []
|}.

(** The same machine once [SimpleFaceCategorizer()] has been built. *)
Definition installed : World := (__init__ fresh).2.

(** Alice has been registered with two samples. *)
Definition alice_registered : World :=
  (register_person "alice" ["group_photo.jpg"; "landscape.png"] installed).2.

(** An upload as the browser sends it. *)
Definition upload : UploadedFile :=
  {| upload_name := "me.jpg"; getbuffer := group_photo |}.

(** The outcome of the batch loop for one upload categorized twice under
    the label [alice], [tempfile] drawing a new name each time. *)
Definition first_turn : (exn + dict) * World :=
  categorize_upload "alice" upload "/tmp/tmpk3v9a1xq.jpg" alice_registered.

Definition second_turn : (exn + dict) * World :=
  categorize_upload "alice" upload "/tmp/tmp7pd0c2mw.jpg" first_turn.2.

Definition destination (o : (exn + dict) * World) : option value :=
  match o.1 with
  | inr r => r !! "destination"
  | inl _ => None
  end.

End example.

(** ** More vocabulary *)

(** Both are directories, or both are regular files. *)
Definition same_kind (n n' : node) : Prop :=
  match n, n' with
  | Dir, Dir => True
  | File _, File _ => True
  | _, _ => False
  end.

(** Every node is still there, and is still what it was: a directory or
    a regular file. *)
Definition nothing_removed (fs fs' : gmap key node) : Prop :=
  ∀ k n, fs !! k = Some n → ∃ n', fs' !! k = Some n' ∧ same_kind n n'.

(** What a call may do to the file system: add nodes and rewrite the
    contents of regular files, in the same working directory. *)
Definition only_adds (w w' : World) : Prop :=
  cwd w' = cwd w ∧
  keeps_dirs (files w) (files w') ∧
  nothing_removed (files w) (files w').

(** The bytes of the last upload called [n]: what the temporary
    directory holds under that name once all uploads are saved. *)
Definition uploaded (ups : list UploadedFile) (n : string) : option (list Byte.byte) :=
  getbuffer <$> last (filter (λ u, upload_name u = n) ups).

(** What saving the uploads leaves in the directory [q]. *)
Fixpoint save_all (q : key) (ups : list UploadedFile) (fs : gmap key node)
    : gmap key node :=
  match ups with
  | [] => fs
  | u :: rest => save_all q rest (<[q ++ [upload_name u] := File (getbuffer u)]> fs)
  end.

(** [os.path.exists], as the preview loop asks it of each destination. *)
Definition path_exists (w : World) (s : string) : bool :=
  match lookup_path w s with
  | inr _ => true
  | inl _ => false
  end.


(** ** More situations, used in the examples *)

Module scenario.

Import example.

(** OpenCV without its cascade file: the classifier is empty, and every
    detection raises. *)
Definition no_cascade : OpenCV := {|
  Mat := list Byte.byte;
  Classifier := string;
  imdecode := λ data, if decide (data = []) then None else Some data;
  cvtColor := λ img _, inr img;
  haarcascades := "/usr/share/opencv4/haarcascades/";
  CascadeClassifier := λ file, file;
  detectMultiScale := λ _ _ _ _ _,
    inl "(-215:Assertion failed) !empty() in function 'detectMultiScale'"
|}.

(** The group photo has been filed under [team]. *)
Definition team_filed : World :=
  (process_photo "group_photo.jpg" "team" installed).2.

(** A regular file sits where the folder [categorized/alice] should be. *)
Definition alice_blocked : World :=
  set_files (insert ["srv"; "app"; "data"; "categorized"; "alice"] (File []))
            alice_registered.

(** A regular file sits where the folder [data] should be. *)
Definition data_taken : World :=
  set_files (insert ["srv"; "app"; "data"] (File [])) fresh.

(** A second upload under the name of the first, and one under its own. *)
Definition retake : UploadedFile :=
  {| upload_name := "me.jpg"; getbuffer := landscape |}.

Definition sea : UploadedFile :=
  {| upload_name := "sea.png"; getbuffer := landscape |}.

(** The names [tempfile] draws, one per turn of the batch loop. *)
Definition tmp_names (i : nat) : string := "/tmp/tmp" +:+ pretty i +:+ ".jpg".

(** A visit in which both forms are filled in and both buttons pressed. *)
Definition visit : Inputs := {|
  register_clicked := true;
  person_name := "bob";
  uploaded_samples := [upload; sea];
  uploaded_files := [upload; sea];
  choice := 0;
  categorize_clicked := true;
  tmp_dir := "/tmp/tmp1x8s0kfz";
  tmp_paths := tmp_names
|}.

End scenario.

(** * Lemmas *)
(** ** Strings and lexical paths *)

Section strings.

Lemma append_cons c (s t : string) : String c s +:+ t = String c (s +:+ t).
Proof. reflexivity. Qed.

Lemma append_nil_l (t : string) : "" +:+ t = t.
Proof. reflexivity. Qed.

Lemma append_assoc (s1 s2 s3 : string) : (s1 +:+ s2) +:+ s3 = s1 +:+ s2 +:+ s3.
Proof.
  induction s1 as [|c s1 IH]; [done|]. by rewrite !append_cons, IH.
Qed.

Lemma append_nil_r (s : string) : s +:+ "" = s.
Proof. induction s as [|c s IH]; [done|]. by rewrite append_cons, IH. Qed.

Lemma has_char_app a s1 s2 :
  Str.has_char a (s1 +:+ s2) = Str.has_char a s1 || Str.has_char a s2.
Proof.
  induction s1 as [|c s1 IH]; [done|].
  rewrite append_cons. simpl. rewrite IH. by destruct (Ascii.eqb c a).
Qed.

Lemma split_slash_nonempty s : Str.split_slash s ≠ [].
Proof.
  destruct s as [|c s]; simpl; [done|].
  destruct (Ascii.eqb c "/"); [done|]. by destruct (Str.split_slash s).
Qed.

Lemma split_slash_plain s :
  Str.has_char "/" s = false → Str.split_slash s = [s].
Proof.
  induction s as [|c s IH]; simpl; [done|].
  destruct (Ascii.eqb c "/"); simpl; [done|].
  intros Hs. by rewrite IH.
Qed.

(** Splitting undoes joining. *)
Lemma split_slash_cons x r :
  Str.has_char "/" x = false →
  Str.split_slash (x +:+ String "/" r) = x :: Str.split_slash r.
Proof.
  induction x as [|c x IH]; [done|].
  rewrite append_cons. simpl.
  destruct (Ascii.eqb c "/"); simpl; [done|].
  intros Hx. by rewrite IH.
Qed.

Lemma split_join l :
  l ≠ [] → Forall (λ x, Str.has_char "/" x = false) l →
  Str.split_slash (Str.join_slash l) = l.
Proof.
  induction l as [|x l IH]; [done|]. intros _ Hl.
  apply Forall_cons in Hl as [Hx Hl].
  destruct l as [|y l].
  - by apply split_slash_plain.
  - change (Str.join_slash (x :: y :: l))
      with (x +:+ String "/" (Str.join_slash (y :: l))).
    rewrite split_slash_cons by done. by rewrite IH.
Qed.

Lemma split_slash_chars a s :
  Str.has_char a s = false →
  Forall (λ x, Str.has_char a x = false) (Str.split_slash s).
Proof.
  induction s as [|c s IH]; simpl.
  - by repeat constructor.
  - intros [Hc Hs]%orb_false_elim. specialize (IH Hs).
    destruct (Ascii.eqb c "/").
    + by constructor.
    + destruct (Str.split_slash s) as [|h t]; simpl.
      * repeat constructor. simpl. by rewrite Hc.
      * apply Forall_cons in IH as [Hh Ht]. constructor; [|done].
        simpl. by rewrite Hc.
Qed.

Lemma split_slash_no_slash s :
  Forall (λ x, Str.has_char "/" x = false) (Str.split_slash s).
Proof.
  induction s as [|c s IH]; simpl.
  - by repeat constructor.
  - destruct (Ascii.eqb c "/") eqn:Hc.
    + by constructor.
    + destruct (Str.split_slash s) as [|h t]; simpl.
      * repeat constructor. simpl. by rewrite Hc.
      * apply Forall_cons in IH as [Hh Ht]. constructor; [|done].
        simpl. by rewrite Hc.
Qed.

Lemma join_slash_snoc l b :
  l ≠ [] → Str.join_slash (l ++ [b]) = Str.join_slash l +:+ "/" +:+ b.
Proof.
  induction l as [|x l IH]; [done|]. intros _.
  destruct l as [|y l]; [done|].
  change (Str.join_slash ((x :: y :: l) ++ [b]))
    with (x +:+ "/" +:+ Str.join_slash ((y :: l) ++ [b])).
  rewrite IH by done.
  change (Str.join_slash (x :: y :: l)) with (x +:+ "/" +:+ Str.join_slash (y :: l)).
  by rewrite !append_assoc.
Qed.

End strings.

Section lexical.

Lemma kernel_comps_nonempty l : l ≠ [] → kernel_comps l ≠ [].
Proof.
  induction l as [|x l IH]; [done|]. intros _. simpl.
  destruct l as [|y l]; [by case_decide|].
  case_decide; [by apply IH|done].
Qed.

Lemma kernel_comps_id l :
  l ≠ [] → Forall (λ x, x ≠ "") l → kernel_comps l = l.
Proof.
  induction l as [|x l IH]; [done|]. intros _ [Hx Hl]%Forall_cons. simpl.
  destruct l as [|y l]; [by rewrite decide_False|].
  rewrite decide_False by done. by rewrite IH.
Qed.

Lemma kernel_comps_skip l : l ≠ [] → kernel_comps ("" :: l) = kernel_comps l.
Proof. by destruct l. Qed.

Lemma kernel_comps_snoc l b :
  Forall (λ x, x ≠ "") l →
  kernel_comps (l ++ [b]) = l ++ [if decide (b = "") then "." else b].
Proof.
  induction l as [|x l IH]; [intros _; simpl; by case_decide|].
  intros [Hx Hl]%Forall_cons.
  change (kernel_comps (x :: (l ++ [b])) = x :: (l ++ [if decide (b = "") then "." else b])).
  rewrite <-IH by done. simpl.
  destruct (l ++ [b]) eqn:E; [by destruct l|]. by rewrite decide_False.
Qed.

Lemma kernel_comps_elem l c :
  c ∈ kernel_comps l → c ≠ "" ∧ (c ∈ l ∨ c = ".").
Proof.
  induction l as [|x l IH]; simpl; [by intros ?%elem_of_nil|].
  destruct l as [|y l].
  - case_decide; intros ->%list_elem_of_singleton; split; auto.
    left. by apply list_elem_of_singleton.
  - case_decide.
    + intros [? [?|?]]%IH; split; auto. left. by right.
    + intros [->|[? [?|?]]%IH]%elem_of_cons; split; auto; left; by constructor.
Qed.

(** The last component the kernel sees is the last one written, a
    trailing slash counting as ["."]. *)
Lemma kernel_comps_last l c :
  last (kernel_comps l) = Some c → c ≠ "." → last l = Some c.
Proof.
  induction l as [|x l IH]; [done|].
  destruct l as [|y l].
  - simpl. case_decide; simpl; congruence.
  - rewrite last_cons_cons.
    change (kernel_comps (x :: y :: l))
      with (if decide (x = "") then kernel_comps (y :: l) else x :: kernel_comps (y :: l)).
    case_decide; [done|].
    destruct (kernel_comps (y :: l)) as [|z k] eqn:E.
    + by apply kernel_comps_nonempty in E.
    + by rewrite last_cons_cons.
Qed.

Lemma splitroot_cases s :
  splitroot s = "" ∨ splitroot s = "/" ∨ splitroot s = "//".
Proof.
  unfold splitroot. repeat case_match; auto.
Qed.

Lemma splitroot_plain s :
  Str.startswith_slash s = false → splitroot s = "".
Proof.
  destruct s as [|c s]; [done|]. simpl.
  intros Hc. unfold splitroot.
  destruct c as [[] [] [] [] [] [] [] []]; try done.
Qed.

Lemma plain_startswith s :
  Str.has_char "/" s = false → Str.startswith_slash s = false.
Proof. destruct s; simpl; [done|]. by intros [??]%orb_false_elim. Qed.

Lemma Path_wf s : wf_path (Path s).
Proof.
  split; [apply splitroot_cases|]. simpl.
  apply Forall_forall. intros x [[??] Hx]%list_elem_of_filter.
  repeat split; [done..|].
  by eapply (proj1 (Forall_forall _ _) (split_slash_no_slash s)).
Qed.

Lemma Path_component s : component s → Path s = {| root := ""; parts := [s] |}.
Proof.
  intros (? & ? & Hs). unfold Path.
  rewrite splitroot_plain by by apply plain_startswith.
  rewrite split_slash_plain by done.
  by rewrite filter_cons_True, filter_nil.
Qed.

Lemma joinpath_component p s :
  component s → p // s = {| root := root p; parts := parts p ++ [s] |}.
Proof. intros Hs. unfold joinpath. by rewrite Path_component. Qed.

Lemma joinpath_wf p s : wf_path p → wf_path (p // s).
Proof.
  intros [Hr Hp]. unfold joinpath. case_decide; [|apply Path_wf].
  split; [done|]. apply Forall_app. split; [done|]. apply Path_wf.
Qed.

Lemma proper_component s : proper s → component s.
Proof. intros (? & ? & ? & ? & ?). by repeat split. Qed.

Lemma data_dir_wf : wf_path data_dir.
Proof. apply Path_wf. Qed.

End lexical.

(** ** Path resolution *)

Section resolution.

Lemma walk_app fs cur l1 l2 :
  walk fs cur (l1 ++ l2) =
  match walk fs cur l1 with
  | inr k => walk fs k l2
  | inl e => inl e
  end.
Proof.
  revert cur. induction l1 as [|c l1 IH]; intros cur; simpl; [done|].
  destruct (stat fs cur) as [[]|]; auto.
Qed.

Lemma walk_mono fs fs' cur l k :
  keeps_dirs fs fs' → walk fs cur l = inr k → walk fs' cur l = inr k.
Proof.
  intros Hk. revert cur. induction l as [|c l IH]; intros cur; simpl; [done|].
  destruct (stat fs cur) as [[]|] eqn:E; try done.
  rewrite (Hk _ E). apply IH.
Qed.

Lemma walk_one fs cur c :
  stat fs cur = Some Dir → walk fs cur [c] = inr (step cur c).
Proof. intros Hd. simpl. by rewrite Hd. Qed.

Lemma walk_one_inv fs cur c k :
  walk fs cur [c] = inr k → stat fs cur = Some Dir ∧ k = step cur c.
Proof. simpl. destruct (stat fs cur) as [[]|]; naive_solver. Qed.

Lemma step_proper cur c : proper c → step cur c = cur ++ [c].
Proof.
  intros (? & ? & ? & _). unfold step. by rewrite !decide_False.
Qed.

Lemma has_char_cons a c r :
  Str.has_char a (String c r) = Ascii.eqb c a || Str.has_char a r.
Proof. reflexivity. Qed.

Lemma split_slash_slash r :
  Str.split_slash (String "/" r) = "" :: Str.split_slash r.
Proof. reflexivity. Qed.

Lemma has_char_join a l :
  a ≠ "/"%char →
  Str.has_char a (Str.join_slash l) = existsb (Str.has_char a) l.
Proof.
  intros Ha. induction l as [|x l IH]; [done|].
  destruct l as [|y l].
  - simpl. by rewrite orb_false_r.
  - change (Str.join_slash (x :: y :: l))
      with (x +:+ String "/" (Str.join_slash (y :: l))).
    rewrite has_char_app, has_char_cons, IH.
    destruct (Ascii.eqb_spec "/" a); [congruence|done].
Qed.

(** [str p] read back by the kernel, for a path with components. *)
Lemma kernel_comps_str r l :
  r = "" ∨ r = "/" ∨ r = "//" → l ≠ [] → Forall component l →
  Str.has_char "000" (r +:+ Str.join_slash l) = existsb (Str.has_char "000") l ∧
  r +:+ Str.join_slash l ≠ "" ∧
  Str.startswith_slash (r +:+ Str.join_slash l) = bool_decide (r ≠ "") ∧
  kernel_comps (Str.split_slash (r +:+ Str.join_slash l)) = l.
Proof.
  intros Hr Hl Hc.
  assert (Forall (λ x, Str.has_char "/" x = false) l) as Hs.
  { eapply Forall_impl; [exact Hc|]. by intros x (_ & _ & ?). }
  assert (Forall (λ x, x ≠ "") l) as Hn.
  { eapply Forall_impl; [exact Hc|]. by intros x (? & _ & _). }
  assert (Str.join_slash l ≠ "" ∧ Str.startswith_slash (Str.join_slash l) = false)
    as [Hj1 Hj2].
  { destruct l as [|x l]; [done|]. apply Forall_cons in Hc as [(Hx & _ & Hx') _].
    destruct x as [|c x]; [done|].
    destruct l; simpl; (split; [done|]); simpl in Hx';
      by apply orb_false_elim in Hx' as [??]. }
  destruct Hr as [->|[->| ->]].
  - rewrite append_nil_l, has_char_join, split_join, kernel_comps_id by done.
    by rewrite bool_decide_false by naive_solver.
  - rewrite !append_cons, append_nil_l, has_char_cons, split_slash_slash.
    rewrite has_char_join, split_join by done.
    rewrite kernel_comps_skip, kernel_comps_id by done. done.
  - rewrite !append_cons, append_nil_l, !has_char_cons, !split_slash_slash.
    rewrite has_char_join, split_join by done.
    rewrite !kernel_comps_skip, kernel_comps_id by done. done.
Qed.

Lemma namei_str w p :
  wf_path p →
  namei w (str p) =
  if existsb (Str.has_char "000") (parts p) then inl ValueError
  else walk (files w) (start w p) (path_comps p).
Proof.
  destruct p as [r l]. intros [Hr Hc]. simpl in *.
  unfold str, start, path_comps. simpl.
  destruct l as [|x l].
  - destruct Hr as [->|[->| ->]]; reflexivity.
  - destruct (kernel_comps_str r (x :: l)) as (E1 & E2 & E3 & E4); [done..|].
    unfold namei. rewrite E1, E3, E4, decide_False by done.
    destruct (existsb _ _); [done|].
    destruct (decide (r = "")) as [->|]; [done|]. by rewrite bool_decide_true.
Qed.

(** Resolving [p / c] for a proper name [c]: resolve [p], then look [c]
    up in it. *)
Lemma namei_join w p c :
  wf_path p → proper c →
  namei w (str (p // c)) =
  match namei w (str p) with
  | inr d => walk (files w) d [c]
  | inl e => inl e
  end.
Proof.
  intros Hp Hc. pose proof Hc as (_ & _ & _ & _ & Hnul).
  rewrite joinpath_component by by apply proper_component.
  rewrite !namei_str; [|done|].
  2:{ destruct Hp. split; [done|]. apply Forall_app. split; [done|].
      repeat constructor; apply Hc. }
  unfold start, path_comps. simpl.
  rewrite existsb_app. simpl. rewrite Hnul, !orb_false_r.
  destruct (existsb _ (parts p)); [done|].
  destruct (parts p) as [|x l] eqn:E.
  - simpl. set (s0 := if decide (root p = "") then cwd w else []).
    destruct (stat (files w) s0) as [[]|] eqn:E0; [|done..].
    unfold step at 2. rewrite decide_True by done. by rewrite E0.
  - change ((x :: l) ++ [c]) with (x :: (l ++ [c])). cbv iota.
    change (x :: (l ++ [c])) with ((x :: l) ++ [c]).
    by rewrite walk_app.
Qed.

Lemma namei_join_ok w p c d :
  wf_path p → proper c →
  namei w (str p) = inr d → stat (files w) d = Some Dir →
  namei w (str (p // c)) = inr (d ++ [c]).
Proof.
  intros ?? Hd Hs. rewrite namei_join, Hd by done.
  by rewrite walk_one, step_proper.
Qed.

End resolution.

(** ** The file-system calls *)

Section calls.

Lemma bind_eval {A B} (m : M A) (f : A → M B) w :
  (m ≫= f) w =
  match m w with
  | (inr a, w') => f a w'
  | (inl e, w') => (inl e, w')
  end.
Proof. reflexivity. Qed.

Lemma for_each_cons {A} (x : A) l (body : A → M unit) w :
  for_each (x :: l) body w =
  match body x w with
  | (inr _, w') => for_each l body w'
  | (inl e, w') => (inl e, w')
  end.
Proof. reflexivity. Qed.

Lemma set_files_id w : set_files (λ fs, fs) w = w.
Proof. by destruct w. Qed.

Lemma stat_insert_ne fs k k' n :
  k ≠ k' → stat (<[k := n]> fs) k' = stat fs k'.
Proof. intros. unfold stat. case_decide; [done|]. by rewrite lookup_insert_ne. Qed.

Lemma stat_insert_eq fs k n : k ≠ [] → stat (<[k := n]> fs) k = Some n.
Proof. intros. unfold stat. rewrite decide_False by done. by rewrite lookup_insert_eq. Qed.

Lemma stat_lookup fs k : k ≠ [] → stat fs k = fs !! k.
Proof. intros. unfold stat. by rewrite decide_False. Qed.

Lemma stat_None fs k : stat fs k = None → k ≠ [] ∧ fs !! k = None.
Proof. unfold stat. case_decide; naive_solver. Qed.

Lemma stat_file fs k b : stat fs k = Some (File b) → k ≠ [] ∧ fs !! k = Some (File b).
Proof. unfold stat. case_decide; naive_solver. Qed.

Lemma keeps_dirs_refl fs : keeps_dirs fs fs.
Proof. by intros k. Qed.

Lemma keeps_dirs_trans fs1 fs2 fs3 :
  keeps_dirs fs1 fs2 → keeps_dirs fs2 fs3 → keeps_dirs fs1 fs3.
Proof. intros H1 H2 k ?. by apply H2, H1. Qed.

Lemma keeps_dirs_write fs t b :
  stat fs t ≠ Some Dir → keeps_dirs fs (<[t := File b]> fs).
Proof.
  intros Ht k Hk. rewrite stat_insert_ne; [done|]. by intros ->.
Qed.

Lemma keeps_dirs_ensure fs d : keeps_dirs fs (ensure_dir d fs).
Proof.
  intros k Hk. unfold ensure_dir. destruct (stat fs d) eqn:E; [done|].
  rewrite stat_insert_ne; [done|]. intros ->. congruence.
Qed.

Lemma ensure_dir_stat fs d :
  (∀ b, stat fs d ≠ Some (File b)) → stat (ensure_dir d fs) d = Some Dir.
Proof.
  intros Hd. unfold ensure_dir. destruct (stat fs d) as [[]|] eqn:E.
  - done.
  - by destruct (Hd data).
  - apply stat_None in E as [??]. by apply stat_insert_eq.
Qed.

Lemma ensure_dir_lookup_ne fs d k : k ≠ d → ensure_dir d fs !! k = fs !! k.
Proof.
  intros. unfold ensure_dir. destruct (stat fs d); [done|].
  by rewrite lookup_insert_ne.
Qed.

Lemma ensure_dir_stat_ne fs d k : k ≠ d → stat (ensure_dir d fs) k = stat fs k.
Proof.
  intros Hk. unfold stat. case_decide; [done|]. by apply ensure_dir_lookup_ne.
Qed.

Lemma ensure_dir_lookup_Some fs d k n :
  fs !! k = Some n → ensure_dir d fs !! k = Some n.
Proof.
  intros Hk. unfold ensure_dir. destruct (stat fs d) eqn:E; [done|].
  apply stat_None in E as [_ E]. rewrite lookup_insert_ne; [done|]. congruence.
Qed.

Lemma ensure_dir_id fs d : stat fs d = Some Dir → ensure_dir d fs = fs.
Proof. unfold ensure_dir. by intros ->. Qed.

Lemma namei_mono w w' s k :
  cwd w' = cwd w → keeps_dirs (files w) (files w') →
  namei w s = inr k → namei w' s = inr k.
Proof.
  intros Hc Hk. unfold namei. rewrite Hc.
  repeat case_match; try done; by apply walk_mono.
Qed.

Lemma Path_mkdir_exist_ok_eval p w :
  Path_mkdir_exist_ok p w =
  match namei w (str p) with
  | inl e => (inl e, w)
  | inr d =>
      match stat (files w) d with
      | Some (File _) => (inl FileExistsError, w)
      | _ => (inr tt, set_files (ensure_dir d) w)
      end
  end.
Proof.
  unfold Path_mkdir_exist_ok, mkdir, isdir, lookup_path, ensure_dir.
  unfold mbind, M_bind, lift, gets, modify, raise.
  destruct (namei w (str p)) as [e|d] eqn:E.
  - destruct e; by rewrite ?E.
  - destruct (stat (files w) d) as [[]|] eqn:Ed; rewrite ?E, ?Ed; try done;
      unfold set_files; rewrite Ed; by destruct w.
Qed.

Lemma read_bytes_eval s w :
  read_bytes s w =
  match lookup_path w s with
  | inl e => (inl e, w)
  | inr (_, File data) => (inr data, w)
  | inr (_, Dir) => (inl IsADirectoryError, w)
  end.
Proof.
  unfold read_bytes, mbind, M_bind, lift, raise, mret, M_ret.
  by destruct (lookup_path w s) as [|[? []]].
Qed.

Lemma write_bytes_eval s data w :
  write_bytes s data w =
  match namei w s with
  | inl e => (inl e, w)
  | inr k =>
      match stat (files w) k with
      | Some Dir => (inl IsADirectoryError, w)
      | _ => (inr tt, set_files (insert k (File data)) w)
      end
  end.
Proof.
  unfold write_bytes, mbind, M_bind, lift, gets, modify, raise.
  destruct (namei w s); [done|]. by destruct (stat _ _) as [[]|].
Qed.

(** A copy that goes through. *)
Lemma copy_ok src dst w s b t :
  lookup_path w src = inr (s, File b) →
  namei w dst = inr t →
  stat (files w) t ≠ Some Dir →
  s ≠ t →
  copy src dst w = (inr dst, set_files (insert t (File b)) w).
Proof.
  intros Hs Ht Hn Hne.
  assert (isdir w dst = false) as Hd.
  { unfold isdir, lookup_path. rewrite Ht.
    by destruct (stat (files w) t) as [[]|]. }
  unfold copy, copyfile, _samefile.
  unfold mbind, M_bind, gets, raise, mret, M_ret. rewrite Hd, Hs.
  unfold lookup_path at 1. rewrite Ht.
  destruct (stat (files w) t) as [n|] eqn:E;
    rewrite ?bool_decide_false by done;
    rewrite read_bytes_eval, Hs, write_bytes_eval, Ht, E;
    [by destruct n|done].
Qed.

End calls.

Section calls_inv.

Lemma lookup_path_inv w s k n :
  lookup_path w s = inr (k, n) → namei w s = inr k ∧ stat (files w) k = Some n.
Proof.
  unfold lookup_path. destruct (namei w s); [done|].
  destruct (stat _ _) eqn:E; naive_solver.
Qed.

Lemma lookup_path_intro w s k n :
  namei w s = inr k → stat (files w) k = Some n → lookup_path w s = inr (k, n).
Proof. unfold lookup_path. by intros -> ->. Qed.

Lemma copyfile_eval src dst w :
  copyfile src dst w =
  match lookup_path w src with
  | inl e => (inl e, w)
  | inr (k1, n1) =>
      let rest :=
        match n1 with
        | Dir => (inl IsADirectoryError, w)
        | File data => write_bytes dst data w
        end in
      match lookup_path w dst with
      | inl ValueError => (inl ValueError, w)
      | inl _ => rest
      | inr (k2, _) => if bool_decide (k1 = k2) then (inl SameFileError, w) else rest
      end
  end.
Proof.
  unfold copyfile, _samefile, mbind, M_bind, raise.
  destruct (lookup_path w src) as [e|[k1 n1]] eqn:Hs.
  { destruct e; try done; by rewrite read_bytes_eval, Hs. }
  destruct (lookup_path w dst) as [e|[k2 n2]] eqn:Hd.
  - destruct e; try done; rewrite read_bytes_eval, Hs; by destruct n1.
  - case_bool_decide; [done|]. rewrite read_bytes_eval, Hs. by destruct n1.
Qed.

Lemma copyfile_inv src dst w w' :
  copyfile src dst w = (inr tt, w') →
  ∃ s b t, lookup_path w src = inr (s, File b) ∧ namei w dst = inr t ∧
           stat (files w) t ≠ Some Dir ∧ s ≠ t ∧
           w' = set_files (insert t (File b)) w.
Proof.
  rewrite copyfile_eval.
  destruct (lookup_path w src) as [e|[k1 [|b]]] eqn:Hs; [done|..].
  { by repeat case_match. }
  apply lookup_path_inv in Hs as [Hs1 Hs2].
  assert (write_bytes dst b w = (inr (), w') →
          (∀ k2 n2, lookup_path w dst = inr (k2, n2) → k1 ≠ k2) →
          ∃ s b0 t, (inr (k1, File b) : exn + key * node) = inr (s, File b0) ∧
            namei w dst = inr t ∧
            stat (files w) t ≠ Some Dir ∧ s ≠ t ∧
            w' = set_files (insert t (File b0)) w) as Hgo.
  { rewrite write_bytes_eval. intros Hw Hk.
    destruct (namei w dst) as [|t] eqn:Ht; [done|].
    destruct (stat (files w) t) as [[|b']|] eqn:Et; [done|..];
      simplify_eq; exists k1, b, t; split_and!; try done; try congruence.
    eapply Hk. by apply lookup_path_intro. }
  cbv zeta. destruct (lookup_path w dst) as [e|[k2 n2]] eqn:Hd.
  - destruct e; try done; intros Hw; by apply (Hgo Hw).
  - case_bool_decide; [done|]. intros Hw. apply (Hgo Hw). naive_solver.
Qed.

Lemma copyfile_err src dst w w' e :
  copyfile src dst w = (inl e, w') → w' = w.
Proof.
  rewrite copyfile_eval.
  assert (∀ b, write_bytes dst b w = (inl e, w') → w' = w) as Hw.
  { intros b. rewrite write_bytes_eval. repeat case_match; naive_solver. }
  repeat case_match; naive_solver.
Qed.

Lemma copy_inv src dst w dst' w' :
  copy src dst w = (inr dst', w') →
  dst' = (if isdir w dst then path_join dst (basename src) else dst) ∧
  ∃ s b t, lookup_path w src = inr (s, File b) ∧ namei w dst' = inr t ∧
           stat (files w) t ≠ Some Dir ∧ s ≠ t ∧
           w' = set_files (insert t (File b)) w.
Proof.
  unfold copy, mbind, M_bind, gets, mret, M_ret.
  destruct (copyfile src _ w) as [[e|[]] w1] eqn:E; [done|].
  intros [= <- <-]. split; [done|]. by apply copyfile_inv.
Qed.

Lemma copy_err src dst w e w' : copy src dst w = (inl e, w') → w' = w.
Proof.
  unfold copy, mbind, M_bind, gets, mret, M_ret.
  destruct (copyfile src _ w) as [[e'|[]] w1] eqn:E; [|done].
  intros [= <- <-]. by eapply copyfile_err.
Qed.

End calls_inv.

(** ** Well-formed trees *)

Section trees.

Lemma tree_parent fs k :
  tree fs → stat fs k = Some Dir → stat fs (removelast k) = Some Dir.
Proof.
  intros Ht Hk. destruct (decide (k = [])) as [->|Hne]; [done|].
  rewrite stat_lookup in Hk by done. by apply Ht in Hk as [_ ?].
Qed.

Lemma namei_walk w s k :
  namei w s = inr k →
  ∃ cur c, kernel_comps (Str.split_slash s) = cur.2 ++ [c] ∧
           stat (files w) cur.1 = Some Dir ∧ k = step cur.1 c ∧
           Str.has_char "000" s = false.
Proof.
  unfold namei. destruct (Str.has_char "000" s) eqn:Hn; [done|].
  case_decide; [done|].
  destruct (exists_last (kernel_comps_nonempty _ (split_slash_nonempty s)))
    as (l0 & c0 & E).
  rewrite E, walk_app.
  destruct (walk _ _ l0) as [|cur] eqn:Ew; [done|].
  intros [Hs ->]%walk_one_inv. by exists (cur, l0), c0.
Qed.

(** A node that is missing, or is a regular file, was reached through its
    own name in its parent directory. *)
Lemma namei_leaf w s k :
  tree (files w) → namei w s = inr k → stat (files w) k ≠ Some Dir →
  ∃ cur c, k = cur ++ [c] ∧ stat (files w) cur = Some Dir ∧
           last (kernel_comps (Str.split_slash s)) = Some c ∧
           c ≠ "." ∧ c ≠ "..".
Proof.
  intros Ht (cur & c & E & Hcur & -> & _)%namei_walk Hk.
  exists cur.1, c. unfold step in *.
  destruct (decide (c = ".")) as [->|?]; [done|].
  destruct (decide (c = "..")) as [->|?].
  { destruct Hk. by apply tree_parent. }
  by rewrite E, last_snoc.
Qed.

Lemma tree_insert fs k n :
  tree fs → k ≠ [] → stat fs (removelast k) = Some Dir →
  (n = Dir ∨ stat fs k ≠ Some Dir) →
  tree (<[k := n]> fs).
Proof.
  intros Ht Hk Hp Hn k' n'.
  assert (keeps_dirs fs (<[k := n]> fs)) as Hkeep.
  { intros d Hd. destruct (decide (k = d)) as [->|].
    - destruct Hn as [->|]; [by apply stat_insert_eq|done].
    - by rewrite stat_insert_ne. }
  destruct (decide (k = k')) as [<-|Hne].
  - intros _. split; [done|]. by apply Hkeep.
  - rewrite lookup_insert_ne by done. intros [? ?]%Ht. split; [done|].
    by apply Hkeep.
Qed.

Lemma tree_ensure_dir w s d :
  tree (files w) → namei w s = inr d → tree (ensure_dir d (files w)).
Proof.
  intros Ht Hd. unfold ensure_dir.
  destruct (stat (files w) d) eqn:E; [done|].
  destruct (namei_leaf w s d) as (cur & c & -> & Hcur & _); [done|done|congruence|].
  apply tree_insert; [done|by destruct cur| |by left].
  by rewrite removelast_last.
Qed.

Lemma tree_write w s t b :
  tree (files w) → namei w s = inr t → stat (files w) t ≠ Some Dir →
  tree (<[t := File b]> (files w)).
Proof.
  intros Ht Hd Hn.
  destruct (namei_leaf w s t) as (cur & c & -> & Hcur & _); [done..|].
  apply tree_insert; [done|by destruct cur| |by right].
  by rewrite removelast_last.
Qed.

(** The name [pathlib] gives a readable file is the name it has in its
    directory, and it is what [os.path.basename] returns. *)
Lemma readable_name w src s b :
  tree (files w) → lookup_path w src = inr (s, File b) →
  proper (name (Path src)) ∧ basename src = name (Path src) ∧
  ∃ dir, s = dir ++ [name (Path src)].
Proof.
  intros Ht [Hs Hf]%lookup_path_inv.
  destruct (namei_leaf w src s) as (cur & c & -> & Hcur & Hl & H1 & H2);
    [done|done|congruence|].
  pose proof Hs as (_ & _ & _ & _ & _ & Hnul)%namei_walk.
  assert (c ∈ kernel_comps (Str.split_slash src)) as Hin.
  { destruct (proj1 (last_Some _ _) Hl) as [l' ->].
    apply elem_of_app. right. by left. }
  apply kernel_comps_elem in Hin as [Hc [Hin|?]]; [|done].
  apply kernel_comps_last in Hl; [|done].
  assert (name (Path src) = c) as ->.
  { unfold name, Path. simpl. apply last_Some in Hl as [l' ->].
    by rewrite filter_app, filter_cons_True, filter_nil, last_snoc. }
  split; [|split; [|by exists cur]].
  - repeat split; try done.
    + by eapply (proj1 (Forall_forall _ _) (split_slash_no_slash src)).
    + by eapply (proj1 (Forall_forall _ _) (split_slash_chars _ src Hnul)).
  - unfold basename. by rewrite Hl.
Qed.

End trees.

(** ** Detection and categorization *)

Section categorizer.
Context `{cv : OpenCV}.

Lemma detect_faces_opencv_eval image_path w :
  detect_faces_opencv image_path w =
  (inr (detected image_path w), after_detection image_path w).
Proof.
  unfold after_detection, detected, detect_faces_opencv.
  by destruct (detect_attempt image_path w).
Qed.

Lemma after_detection_files image_path w :
  files (after_detection image_path w) = files w.
Proof.
  unfold after_detection, detect_faces_opencv.
  by destruct (detect_attempt image_path w).
Qed.

Lemma after_detection_cwd image_path w :
  cwd (after_detection image_path w) = cwd w.
Proof.
  unfold after_detection, detect_faces_opencv.
  by destruct (detect_attempt image_path w).
Qed.

Lemma namei_same w w' s :
  cwd w' = cwd w → files w' = files w → namei w' s = namei w s.
Proof. unfold namei. by intros -> ->. Qed.

Lemma lookup_path_same w w' s :
  cwd w' = cwd w → files w' = files w → lookup_path w' s = lookup_path w s.
Proof. intros Hc Hf. unfold lookup_path. by rewrite (namei_same w w'), Hf. Qed.

(** Filing a photo: make sure the folder is there, copy the file into it
    under its own name.  Both branches of [process_photo] do this. *)
Lemma file_photo_ok w image_path folder s b d :
  tree (files w) → wf_path folder →
  lookup_path w image_path = inr (s, File b) →
  namei w (str folder) = inr d →
  (∀ x, stat (files w) d ≠ Some (File x)) →
  stat (files w) (d ++ [name (Path image_path)]) ≠ Some Dir →
  s ≠ d ++ [name (Path image_path)] →
  let dest_path := folder // name (Path image_path) in
  (Path_mkdir_exist_ok folder;; copy image_path (str dest_path)) w =
  (inr (str dest_path),
   set_files (λ fs, <[d ++ [name (Path image_path)] := File b]> (ensure_dir d fs)) w).
Proof.
  intros Ht Hf Hs Hd Hnf Hnd Hne dest_path.
  destruct (readable_name w image_path s b) as (Hnm & _ & _); [done..|].
  set (nm := name (Path image_path)) in *.
  unfold mbind, M_bind. rewrite Path_mkdir_exist_ok_eval, Hd.
  set (w1 := set_files (ensure_dir d) w).
  assert (keeps_dirs (files w) (files w1)) as Hk by apply keeps_dirs_ensure.
  assert (d ++ [nm] ≠ d) as Hdt.
  { intros E. apply (f_equal length) in E. rewrite length_app in E. simpl in E. lia. }
  assert (s ≠ d) as Hsd.
  { intros ->. apply lookup_path_inv in Hs as [_ Hs]. by destruct (Hnf b). }
  assert ((inr (), w1) = match stat (files w) d with
                         | Some (File _) => (inl FileExistsError, w)
                         | _ => (inr (), w1)
                         end) as <-.
  { destruct (stat (files w) d) as [[|x]|] eqn:E; [done| |done]. by destruct (Hnf x). }
  erewrite (copy_ok _ _ w1 s b (d ++ [nm])); [done|..|done].
  - apply lookup_path_inv in Hs as [Hs1 Hs2]. apply lookup_path_intro.
    + by apply (namei_mono w w1).
    + apply stat_file in Hs2 as [??]. rewrite stat_lookup by done.
      simpl. by rewrite ensure_dir_lookup_ne.
  - apply namei_join_ok; [done..| |].
    + by apply (namei_mono w w1).
    + by apply ensure_dir_stat.
  - simpl. destruct (d ++ [nm]) as [|x l] eqn:E; [by destruct d|].
    rewrite stat_lookup, ensure_dir_lookup_ne, <-stat_lookup by done. done.
Qed.

Lemma categorized_wf label : wf_path (data_dir // "categorized" // label).
Proof. by repeat apply joinpath_wf; apply Path_wf. Qed.

Lemma process_photo_ok w image_path person_name s b d :
  tree (files w) →
  lookup_path w image_path = inr (s, File b) →
  let faces := detected image_path w in
  let label := if decide (0 < length faces) then person_name else "unknown" in
  let folder := data_dir // "categorized" // label in
  let nm := name (Path image_path) in
  namei w (str folder) = inr d →
  (∀ x, stat (files w) d ≠ Some (File x)) →
  stat (files w) (d ++ [nm]) ≠ Some Dir →
  s ≠ d ++ [nm] →
  process_photo image_path person_name w =
  (inr (if decide (0 < length faces) then
          {[ "status" := VStr "success";
             "person" := VStr person_name;
             "faces_detected" := VInt (length faces);
             "destination" := VStr (str (folder // nm)) ]}
        else
          {[ "status" := VStr "no_faces";
             "destination" := VStr (str (folder // nm)) ]}),
   set_files (λ fs, <[d ++ [nm] := File b]> (ensure_dir d fs))
             (after_detection image_path w)).
Proof.
  intros Ht Hs faces label folder nm Hd Hnf Hnd Hne.
  pose proof (after_detection_files image_path w) as Hf0.
  pose proof (after_detection_cwd image_path w) as Hc0.
  set (w0 := after_detection image_path w) in *.
  pose proof (file_photo_ok w0 image_path folder s b d) as Hgo.
  rewrite Hf0, (lookup_path_same w w0), (namei_same w w0) in Hgo by done.
  specialize (Hgo Ht (categorized_wf _) Hs Hd Hnf Hnd Hne).
  unfold process_photo.
  unfold mbind at 1. unfold M_bind at 1. rewrite detect_faces_opencv_eval.
  fold faces w0. subst label folder. cbv zeta in Hgo.
  unfold mbind, M_bind in *.
  destruct (decide (0 < length faces)).
  - destruct (Path_mkdir_exist_ok _ w0) as [[|[]] w1]; [done|].
    by destruct (copy _ _ w1) as [[] ?]; simplify_eq.
  - destruct (Path_mkdir_exist_ok _ w0) as [[|[]] w1]; [done|].
    by destruct (copy _ _ w1) as [[] ?]; simplify_eq.
Qed.

End categorizer.

(** ** The names of the stored samples *)

Section samples.

Lemma length_append (s t : string) :
  String.length (s +:+ t) = String.length s + String.length t.
Proof. induction s as [|c s IH]; [done|]. rewrite append_cons. simpl. by rewrite IH. Qed.

Lemma append_inj_r (s1 s2 t : string) : s1 +:+ t = s2 +:+ t → s1 = s2.
Proof.
  revert s2. induction s1 as [|c s1 IH]; intros [|c2 s2] E; [done|..].
  - apply (f_equal String.length) in E.
    rewrite append_nil_l, append_cons in E. simpl in E.
    rewrite length_append in E. lia.
  - apply (f_equal String.length) in E.
    rewrite append_nil_l, append_cons in E. simpl in E.
    rewrite length_append in E. lia.
  - rewrite !append_cons in E. injection E as -> E. f_equal. by apply IH.
Qed.

Lemma pretty_N_go_has_char a :
  (∀ x, Ascii.eqb (pretty_N_char x) a = false) →
  ∀ x s, Str.has_char a s = false → Str.has_char a (pretty_N_go x s) = false.
Proof.
  intros Ha x. induction (N.lt_wf_0 x) as [x _ IH]. intros s Hs.
  destruct (decide (x = 0)%N) as [->|].
  - by rewrite pretty_N_go_0.
  - rewrite pretty_N_go_step by lia. apply IH.
    + apply N.div_lt; lia.
    + by rewrite has_char_cons, Ha, Hs.
Qed.

Lemma pretty_nat_has_char a (n : nat) :
  (∀ x, Ascii.eqb (pretty_N_char x) a = false) →
  Str.has_char a (pretty n) = false.
Proof.
  intros Ha. unfold pretty, pretty_nat, pretty, pretty_N.
  case_decide.
  - specialize (Ha 0%N). simpl in *. by rewrite Ha.
  - by apply pretty_N_go_has_char.
Qed.

Lemma no_digit_slash x : Ascii.eqb (pretty_N_char x) "/" = false.
Proof. unfold pretty_N_char. by repeat case_match. Qed.

Lemma no_digit_nul x : Ascii.eqb (pretty_N_char x) "000" = false.
Proof. unfold pretty_N_char. by repeat case_match. Qed.

Lemma sample_file_proper idx : proper (sample_file idx).
Proof.
  unfold sample_file. repeat split; try done.
  - rewrite !has_char_app, pretty_nat_has_char by apply no_digit_slash. done.
  - rewrite !has_char_app, pretty_nat_has_char by apply no_digit_nul. done.
Qed.

Lemma sample_file_inj i j : sample_file i = sample_file j → i = j.
Proof.
  unfold sample_file. intros E%(inj _)%append_inj_r%(inj _). lia.
Qed.

End samples.

(** ** Registration *)

Section registration.

Lemma sample_key_inj (d : key) i j :
  d ++ [sample_file i] = d ++ [sample_file j] → i = j.
Proof.
  intros E%app_inv_head. apply sample_file_inj.
  by apply (inj (λ x, [x])) in E.
Qed.

Lemma store_samples_other d i cs fs k :
  (∀ j, i ≤ j < i + length cs → k ≠ d ++ [sample_file j]) →
  store_samples d i cs fs !! k = fs !! k.
Proof.
  revert i fs. induction cs as [|b cs IH]; intros i fs Hk; simpl; [done|].
  rewrite IH.
  - rewrite lookup_insert_ne; [done|]. intros E. apply (Hk i); [simpl; lia|done].
  - intros j Hj. apply Hk. simpl. lia.
Qed.

Lemma store_samples_sample d i cs fs j b :
  cs !! j = Some b →
  store_samples d i cs fs !! (d ++ [sample_file (i + j)]) = Some (File b).
Proof.
  revert i j fs. induction cs as [|c cs IH]; intros i j fs Hj; [done|].
  destruct j as [|j]; simpl in *.
  - simplify_eq. rewrite store_samples_other.
    + rewrite Nat.add_0_r. by rewrite lookup_insert_eq.
    + intros j Hj E%sample_key_inj. lia.
  - replace (i + S j) with (S i + j) by lia. by apply IH.
Qed.

Lemma store_samples_keeps_dirs d i cs fs :
  (∀ j, i ≤ j < i + length cs → stat fs (d ++ [sample_file j]) ≠ Some Dir) →
  keeps_dirs fs (store_samples d i cs fs).
Proof.
  revert i fs. induction cs as [|b cs IH]; intros i fs Hk; simpl; [by intros ?|].
  assert (stat fs (d ++ [sample_file i]) ≠ Some Dir) as Hi by (apply Hk; simpl; lia).
  eapply keeps_dirs_trans; [by apply keeps_dirs_write|].
  apply IH. intros j Hj. rewrite stat_insert_ne.
  - apply Hk. simpl. lia.
  - intros E%sample_key_inj. lia.
Qed.

Lemma prefix_child (d : key) c : d `prefix_of` d ++ [c].
Proof. by apply prefix_app_r. Qed.

Lemma child_ne (d : key) c : d ++ [c] ≠ d.
Proof.
  intros E. apply (f_equal length) in E. rewrite length_app in E. simpl in E. lia.
Qed.

(** The loop of [register_person], when nothing stands in its way. *)
Lemma copy_samples_ok person_dir d samples : ∀ i w contents,
  wf_path person_dir →
  namei w (str person_dir) = inr d →
  stat (files w) d = Some Dir →
  Forall2 (λ p b, ∃ s, lookup_path w p = inr (s, File b) ∧ ¬ d `prefix_of` s)
          samples contents →
  (∀ j, i ≤ j < i + length samples → stat (files w) (d ++ [sample_file j]) ≠ Some Dir) →
  for_each (enumerate_from i samples) (λ '(idx, img_path),
    let dest_path := person_dir // sample_file idx in
    copy img_path (str dest_path);; mret tt) w =
  (inr tt, set_files (store_samples d i contents) w).
Proof.
  induction samples as [|p samples IH]; intros i w contents Hwf Hd Hdir Hsrc Hfree.
  { apply Forall2_nil_inv_l in Hsrc as ->. simpl. by rewrite set_files_id. }
  apply Forall2_cons_inv_l in Hsrc as (b & cs & (s & Hs & Hout) & Hsrc & ->).
  set (t := d ++ [sample_file i]).
  assert (stat (files w) t ≠ Some Dir) as Ht by (apply Hfree; simpl; lia).
  assert (copy p (str (person_dir // sample_file i)) w
          = (inr (str (person_dir // sample_file i)), set_files (insert t (File b)) w))
    as Hcopy.
  { apply (copy_ok _ _ _ s); [done| |done|].
    - apply namei_join_ok; [done|apply sample_file_proper|done..].
    - intros ->. apply Hout, prefix_child. }
  change (enumerate_from i (p :: samples))
    with ((i, p) :: enumerate_from (S i) samples).
  rewrite for_each_cons. cbv beta iota zeta. rewrite bind_eval, Hcopy.
  change ((mret () : M ()) (set_files (insert t (File b)) w))
    with (inr () : exn + (), set_files (insert t (File b)) w).
  cbv iota.
  set (w2 := set_files (insert t (File b)) w).
  assert (keeps_dirs (files w) (files w2)) as Hk by by apply keeps_dirs_write.
  etrans; [apply (IH (S i) w2 cs)|done]; [done|..].
  - by apply (namei_mono w w2).
  - by apply Hk.
  - eapply Forall2_impl; [exact Hsrc|]. intros p' b' (s' & Hs' & Hout').
    exists s'. split; [|done].
    apply lookup_path_inv in Hs' as [Hs1 Hs2]. apply lookup_path_intro.
    + by apply (namei_mono w w2).
    + simpl. rewrite stat_insert_ne; [done|]. intros <-. apply Hout', prefix_child.
  - intros j Hj. simpl. rewrite stat_insert_ne.
    + apply Hfree. simpl. lia.
    + intros E%sample_key_inj. lia.
Qed.

Lemma outside_contents w d samples :
  Forall (outside w d) samples →
  ∃ contents,
    Forall2 (λ p b, ∃ s, lookup_path w p = inr (s, File b) ∧ ¬ d `prefix_of` s)
            samples contents ∧
    ∀ i p, samples !! i = Some p → content w p = contents !! i.
Proof.
  induction 1 as [|p samples Hp _ (cs & IH1 & IH2)].
  { exists []. split; [constructor|]. by intros i p. }
  unfold outside in Hp.
  destruct (lookup_path w p) as [|[s [|b]]] eqn:E; try done.
  exists (b :: cs). split.
  - constructor; [by exists s|done].
  - intros [|i] p'; simpl; [|by apply IH2].
    intros [= <-]. unfold content. by rewrite E.
Qed.

Lemma registered_wf name : wf_path (data_dir // "registered" // name).
Proof. by repeat apply joinpath_wf; apply Path_wf. Qed.

Lemma register_person_ok w name sample_images d :
  namei w (str (data_dir // "registered" // name)) = inr d →
  (stat (files w) d = None ∨ stat (files w) d = Some Dir) →
  Forall (outside w d) sample_images →
  (∀ i, i < length sample_images → stat (files w) (d ++ [sample_file i]) ≠ Some Dir) →
  ∃ contents,
    (∀ i p, sample_images !! i = Some p → content w p = contents !! i) ∧
    length contents = length sample_images ∧
    register_person name sample_images w =
    (inr true, set_files (λ fs, store_samples d 0 contents (ensure_dir d fs)) w).
Proof.
  intros Hd Hnf Hsrc Hfree.
  destruct (outside_contents w d sample_images Hsrc) as (contents & Hc & Hcont).
  exists contents. split; [done|]. split; [symmetry; by eapply Forall2_length|].
  assert (∀ x, stat (files w) d ≠ Some (File x)) as Hnf'
    by (intros x; destruct Hnf as [E|E]; by rewrite E).
  unfold register_person.
  unfold mbind at 1. unfold M_bind at 1.
  rewrite Path_mkdir_exist_ok_eval, Hd.
  set (w1 := set_files (ensure_dir d) w).
  assert (keeps_dirs (files w) (files w1)) as Hk by apply keeps_dirs_ensure.
  replace (match stat (files w) d with
           | Some (File _) => (inl FileExistsError, w)
           | _ => (inr (), w1)
           end) with (inr () : exn + (), w1) by by destruct Hnf as [-> | ->].
  unfold mbind at 1. unfold M_bind at 1. unfold enumerate.
  rewrite (copy_samples_ok _ d sample_images 0 w1 contents); [done|..].
  - apply registered_wf.
  - by apply (namei_mono w w1).
  - by apply ensure_dir_stat.
  - eapply Forall2_impl; [exact Hc|]. intros p b (s & Hs & Hout).
    exists s. split; [|done].
    apply lookup_path_inv in Hs as [Hs1 Hs2]. apply lookup_path_intro.
    + by apply (namei_mono w w1).
    + apply stat_file in Hs2 as [??]. rewrite stat_lookup by done. simpl.
      rewrite ensure_dir_lookup_ne; [done|]. intros ->. by apply Hout.
  - intros j Hj. simpl.
    destruct (d ++ [sample_file j]) as [|x l] eqn:E; [by destruct d|].
    rewrite stat_lookup, ensure_dir_lookup_ne, <-stat_lookup, <-E by
      (try done; rewrite <-E; apply child_ne).
    apply Hfree. lia.
Qed.

End registration.

(** ** Copying into an existing directory *)

Section redirect.

Lemma endswith_slash_cons c s :
  s ≠ "" → Str.endswith_slash (String c s) = Str.endswith_slash s.
Proof. by destruct s. Qed.

Lemma endswith_slash_app s t :
  t ≠ "" → Str.endswith_slash (s +:+ t) = Str.endswith_slash t.
Proof.
  intros Ht. induction s as [|c s IH]; [done|].
  rewrite append_cons, endswith_slash_cons; [done|]. by destruct s, t.
Qed.

Lemma endswith_slash_has_char s :
  Str.has_char "/" s = false → Str.endswith_slash s = false.
Proof.
  induction s as [|c s IH]; [done|]. rewrite has_char_cons.
  intros [Hc Hs]%orb_false_elim. destruct s; [done|].
  rewrite endswith_slash_cons by done. by apply IH.
Qed.

Lemma endswith_slash_join l :
  l ≠ [] → Forall component l → Str.endswith_slash (Str.join_slash l) = false.
Proof.
  induction l as [|x l IH]; [done|]. intros _ [Hx Hl]%Forall_cons.
  destruct l as [|y l].
  - apply endswith_slash_has_char, Hx.
  - change (Str.join_slash (x :: y :: l))
      with (x +:+ String "/" (Str.join_slash (y :: l))).
    rewrite endswith_slash_app by done.
    assert (Str.join_slash (y :: l) ≠ "") as Hne.
    { apply Forall_cons in Hl as [(Hy & _) _]. destruct y; [done|].
      by destruct l. }
    rewrite endswith_slash_cons by done. by apply IH.
Qed.

Lemma join_slash_nonempty l :
  l ≠ [] → Forall component l →
  Str.join_slash l ≠ "" ∧ Str.startswith_slash (Str.join_slash l) = false.
Proof.
  intros Hl Hc. destruct l as [|x l]; [done|].
  apply Forall_cons in Hc as [(Hx & _ & Hx') _].
  destruct x as [|c x]; [done|]. rewrite has_char_cons in Hx'.
  apply orb_false_elim in Hx' as [??]. by destruct l.
Qed.

(** [os.path.join(str(q), b)] for a path with components and a name
    without separator. *)
Lemma path_join_str q b :
  wf_path q → parts q ≠ [] → Str.has_char "/" b = false →
  path_join (str q) b = root q +:+ Str.join_slash (parts q ++ [b]).
Proof.
  intros [Hr Hc] Hp Hb. unfold path_join, str.
  destruct (parts q) as [|x l] eqn:E; [done|].
  destruct (join_slash_nonempty (x :: l)) as [Hj1 Hj2]; [done..|].
  rewrite plain_startswith by done.
  rewrite decide_False.
  2:{ destruct Hr as [-> | [-> | ->]]; [done|done..]. }
  rewrite endswith_slash_app, endswith_slash_join by done.
  rewrite join_slash_snoc by done. by rewrite !append_assoc.
Qed.

Lemma namei_path_join w q b t :
  wf_path q → parts q ≠ [] → Str.has_char "/" b = false →
  namei w (path_join (str q) b) = inr t →
  ∃ kq, namei w (str q) = inr kq ∧ stat (files w) kq = Some Dir ∧
        t = step kq (if decide (b = "") then "." else b).
Proof.
  intros Hq Hp Hb. rewrite path_join_str by done.
  rewrite namei_str by done. pose proof Hq as [Hr Hc].
  assert (Forall (λ x, Str.has_char "/" x = false) (parts q ++ [b])) as Hs.
  { apply Forall_app. split; [|by repeat constructor].
    eapply Forall_impl; [exact Hc|]. by intros x (_ & _ & ?). }
  assert (Forall (λ x, x ≠ "") (parts q)) as Hn.
  { eapply Forall_impl; [exact Hc|]. by intros x (? & _ & _). }
  destruct (join_slash_nonempty (parts q)) as [Hj1 Hj2]; [done..|].
  assert (Str.join_slash (parts q ++ [b]) ≠ "" ∧
          Str.startswith_slash (Str.join_slash (parts q ++ [b])) = false) as [Hk1 Hk2].
  { rewrite join_slash_snoc by done.
    destruct (Str.join_slash (parts q)) as [|c j]; [done|]. by rewrite append_cons. }
  unfold namei, start, path_comps.
  rewrite has_char_app.
  assert (Str.has_char "000" (root q) = false) as ->
    by by destruct Hr as [-> | [-> | ->]].
  rewrite has_char_join by done. rewrite existsb_app. simpl.
  destruct (existsb _ (parts q)); [done|].
  rewrite orb_false_r. destruct (Str.has_char "000" b); [done|].
  rewrite decide_False.
  2:{ destruct Hr as [-> | [-> | ->]]; [done|done..]. }
  assert (kernel_comps (Str.split_slash (root q +:+ Str.join_slash (parts q ++ [b])))
          = parts q ++ [if decide (b = "") then "." else b]) as ->.
  { destruct Hr as [-> | [-> | ->]];
      rewrite ?append_cons, ?append_nil_l, ?split_slash_slash, split_join by
        (try done; by destruct (parts q));
      rewrite ?kernel_comps_skip by (by destruct (parts q));
      by apply kernel_comps_snoc. }
  assert ((if Str.startswith_slash (root q +:+ Str.join_slash (parts q ++ [b]))
           then [] else cwd w) = (if decide (root q = "") then cwd w else [])) as ->.
  { destruct Hr as [-> | [-> | ->]]; [|done..]. by rewrite append_nil_l, Hk2. }
  rewrite walk_app.
  destruct (parts q) as [|x l] eqn:E; [done|].
  destruct (walk _ _ (x :: l)) as [|kq]; [done|].
  intros [??]%walk_one_inv. by exists kq.
Qed.

End redirect.

Section landing.

Lemma basename_no_slash src : Str.has_char "/" (basename src) = false.
Proof.
  unfold basename. destruct (last (Str.split_slash src)) as [x|] eqn:E; [|done].
  simpl. apply last_Some in E as [l E].
  pose proof (split_slash_no_slash src) as H. rewrite E in H.
  apply Forall_app in H as [_ H]. by inversion H.
Qed.

(** Where a successful [shutil.copy] to [p / c] puts the bytes: at
    [p / c], or inside it when that is a directory. *)
Lemma copy_lands w src p c d dst' w' :
  wf_path p → proper c →
  namei w (str p) = inr d → stat (files w) d = Some Dir →
  copy src (str (p // c)) w = (inr dst', w') →
  ∃ s b t, lookup_path w src = inr (s, File b) ∧
           (t = d ++ [c] ∨
            stat (files w) (d ++ [c]) = Some Dir ∧ t = d ++ [c; basename src]) ∧
           stat (files w) t ≠ Some Dir ∧ s ≠ t ∧
           w' = set_files (insert t (File b)) w.
Proof.
  intros Hp Hc Hd Hdir (-> & s & b & t & Hs & Ht & Hnd & Hne & ->)%copy_inv.
  exists s, b, t. split; [done|]. split; [|done].
  pose proof (namei_join_ok w p c d Hp Hc Hd Hdir) as Hq.
  unfold isdir, lookup_path in Ht. rewrite Hq in Ht.
  destruct (stat (files w) (d ++ [c])) as [[]|] eqn:E;
    [|left; congruence..].
  right. split; [done|].
  apply namei_path_join in Ht as (kq & Hkq & _ & ->);
    [|by apply joinpath_wf| |apply basename_no_slash].
  2:{ rewrite joinpath_component by by apply proper_component. simpl.
      by destruct (parts p). }
  assert (kq = d ++ [c]) as -> by congruence.
  unfold step in *.
  destruct (decide (basename src = "")) as [Hb|Hb].
  { rewrite decide_True in Hnd by done. congruence. }
  destruct (decide (basename src = ".")) as [Hb1|Hb1]; [congruence|].
  destruct (decide (basename src = "..")) as [Hb2|Hb2].
  { rewrite removelast_last in Hnd. congruence. }
  by rewrite <-app_assoc.
Qed.

End landing.

(** ** The program keeps the tree well formed *)

Section invariant.
Context `{cv : OpenCV}.

Lemma Path_mkdir_exist_ok_tree p w out w' :
  tree (files w) → Path_mkdir_exist_ok p w = (out, w') →
  tree (files w') ∧ cwd w' = cwd w.
Proof.
  intros Ht. rewrite Path_mkdir_exist_ok_eval.
  destruct (namei w (str p)) as [e|d] eqn:Hd; [by intros [= <- <-]|].
  destruct (stat (files w) d) as [[]|]; intros [= <- <-]; try done;
    (split; [by eapply tree_ensure_dir|done]).
Qed.

Lemma copy_tree src dst w out w' :
  tree (files w) → copy src dst w = (out, w') →
  tree (files w') ∧ cwd w' = cwd w.
Proof.
  intros Ht. destruct out as [e|dst'].
  - by intros ->%copy_err.
  - intros (_ & s & b & t & _ & Hn & Hnd & _ & ->)%copy_inv.
    split; [by eapply tree_write|done].
Qed.

Lemma process_photo_tree image_path person_name w out w' :
  tree (files w) → process_photo image_path person_name w = (out, w') →
  tree (files w').
Proof.
  intros Ht. unfold process_photo.
  rewrite bind_eval, detect_faces_opencv_eval.
  assert (tree (files (after_detection image_path w))) as Ht0
    by by rewrite after_detection_files.
  destruct (decide _); rewrite bind_eval;
    destruct (Path_mkdir_exist_ok _ _) as [[e|[]] w1] eqn:Hm;
    apply Path_mkdir_exist_ok_tree in Hm as [Ht1 _]; try done;
    try (by intros [= <- <-]);
    rewrite bind_eval;
    destruct (copy _ _ w1) as [[e|x] w2] eqn:Hc;
    apply copy_tree in Hc as [Ht2 _]; try done;
    by intros [= <- <-].
Qed.

Lemma copy_samples_tree person_dir samples : ∀ i w out w',
  tree (files w) →
  for_each (enumerate_from i samples) (λ '(idx, img_path),
    let dest_path := person_dir // sample_file idx in
    copy img_path (str dest_path);; mret tt) w = (out, w') →
  tree (files w').
Proof.
  induction samples as [|p samples IH]; intros i w out w' Ht.
  { by intros [= <- <-]. }
  change (enumerate_from i (p :: samples))
    with ((i, p) :: enumerate_from (S i) samples).
  rewrite for_each_cons. cbv beta iota zeta. rewrite bind_eval.
  destruct (copy p _ w) as [[e|dst'] w2] eqn:Hc;
    apply copy_tree in Hc as [Ht2 _]; try done.
  - by intros [= <- <-].
  - apply IH. done.
Qed.

Lemma register_person_tree name sample_images w out w' :
  tree (files w) → register_person name sample_images w = (out, w') →
  tree (files w').
Proof.
  intros Ht. unfold register_person. rewrite bind_eval.
  destruct (Path_mkdir_exist_ok _ _) as [[e|[]] w1] eqn:Hm;
    apply Path_mkdir_exist_ok_tree in Hm as [Ht1 _]; try done.
  { by intros [= <- <-]. }
  rewrite bind_eval. unfold enumerate.
  destruct (for_each _ _ w1) as [[e|[]] w2] eqn:Hloop;
    apply copy_samples_tree in Hloop; try done; by intros [= <- <-].
Qed.

Lemma __init___tree w out w' :
  tree (files w) → __init__ w = (out, w') → tree (files w').
Proof.
  intros Ht. unfold __init__. rewrite bind_eval.
  destruct (Path_mkdir_exist_ok _ w) as [[e|[]] w1] eqn:H1;
    apply Path_mkdir_exist_ok_tree in H1 as [Ht1 _]; try done.
  { by intros [= <- <-]. }
  rewrite bind_eval.
  destruct (Path_mkdir_exist_ok _ w1) as [[e|[]] w2] eqn:H2;
    apply Path_mkdir_exist_ok_tree in H2 as [Ht2 _]; try done.
  { by intros [= <- <-]. }
  intros H3. by apply Path_mkdir_exist_ok_tree in H3 as [Ht3 _].
Qed.

End invariant.

(** * What the program guarantees *)

Import example.

(** ** Categorizing one photo *)

Section process_photo.
Context `{cv : OpenCV}.

(** C1 (as amended).  Take a readable image and a label whose folder
    [categorized/<label>] exists or can be made (its parent is there and
    no regular file has its name), and let the destination
    [categorized/<label>/<name>] be free or a regular file other than the
    source.  With at least one face, [process_photo] copies the image to
    that destination, keeping the file name, and returns the record
    [status = success] with the label, the face count and the destination
    path.  With no face it does the same in [categorized/unknown] and
    returns [status = no_faces] with the destination path and no label
    field. *)
Theorem process_photo_files_the_photo w image_path person_name s b d :
  tree (files w) →
  lookup_path w image_path = inr (s, File b) →
  let faces := detected image_path w in
  let label := if decide (0 < length faces) then person_name else "unknown" in
  let folder := data_dir // "categorized" // label in
  let nm := name (Path image_path) in
  namei w (str folder) = inr d →
  absent_or_dir (stat (files w) d) →
  stat (files w) (d ++ [nm]) ≠ Some Dir →
  s ≠ d ++ [nm] →
  ∃ r w',
    process_photo image_path person_name w = (inr r, w') ∧
    files w' = <[d ++ [nm] := File b]> (ensure_dir d (files w)) ∧
    stat (files w') d = Some Dir ∧
    basename image_path = nm ∧
    (0 < length faces →
       r = {[ "status" := VStr "success";
              "person" := VStr person_name;
              "faces_detected" := VInt (length faces);
              "destination" := VStr (str (folder // nm)) ]}) ∧
    (length faces = 0 →
       r = {[ "status" := VStr "no_faces";
              "destination" := VStr (str (folder // nm)) ]} ∧
       r !! "person" = None).
Proof.
  intros Ht Hs faces label folder nm Hd Hdir Hfree Hne.
  assert (∀ x, stat (files w) d ≠ Some (File x)) as Hnf
    by (intros x; destruct Hdir as [E|E]; by rewrite E).
  pose proof (process_photo_ok w image_path person_name s b d Ht Hs Hd Hnf Hfree Hne)
    as Hrun.
  destruct (readable_name w image_path s b Ht Hs) as (_ & Hbase & _).
  eexists _, _. split; [exact Hrun|]. simpl.
  rewrite after_detection_files. split; [done|]. split; [|split; [done|]].
  - rewrite stat_insert_ne by apply child_ne.
    by apply ensure_dir_stat.
  - fold faces. destruct (decide (0 < length faces)); split; try done; lia.
Qed.

End process_photo.

Section one_folder.
Context `{cv : OpenCV}.

Lemma file_photo_inv w image_path folder dst' w' :
  tree (files w) → wf_path folder →
  (Path_mkdir_exist_ok folder;;
   copy image_path (str (folder // name (Path image_path)))) w = (inr dst', w') →
  ∃ d t b,
    namei w (str folder) = inr d ∧
    stat (files w') d = Some Dir ∧
    d `prefix_of` t ∧ t ≠ d ∧
    files w' !! t = Some (File b) ∧
    (∀ k, k ≠ t → k ≠ d → files w' !! k = files w !! k).
Proof.
  intros Ht Hf. rewrite bind_eval, Path_mkdir_exist_ok_eval.
  destruct (namei w (str folder)) as [|d] eqn:Hd; [done|].
  set (w1 := set_files (ensure_dir d) w).
  assert (tree (files w1)) as Ht1 by by eapply tree_ensure_dir.
  assert (namei w1 (str folder) = inr d) as Hd1.
  { apply (namei_mono w w1); [done|apply keeps_dirs_ensure|done]. }
  intros Hcopy.
  assert ((∀ x, stat (files w) d ≠ Some (File x)) ∧
          copy image_path (str (folder // name (Path image_path))) w1 = (inr dst', w'))
    as [Hnf Hc] by (destruct (stat (files w) d) as [[]|]; by split).
  clear Hcopy. pose proof (ensure_dir_stat _ _ Hnf) as Hdir.
  pose proof Hc as (_ & s & b & _ & Hs & _)%copy_inv.
  destruct (readable_name w1 image_path s b Ht1 Hs) as (Hnm & _ & _).
  apply (copy_lands w1 _ folder _ d) in Hc
    as (s' & b' & t & _ & Hcase & Hnd & _ & ->); [|done..].
  exists d, t, b'.
  assert (d `prefix_of` t ∧ t ≠ d) as [Hpre Hne].
  { destruct Hcase as [-> | [_ ->]].
    - split; [apply prefix_child|apply child_ne].
    - split; [by apply prefix_app_r|].
      intros E. apply (f_equal length) in E. rewrite length_app in E.
      simpl in E. lia. }
  split_and!; try done.
  - simpl. by rewrite stat_insert_ne.
  - simpl. by rewrite lookup_insert_eq.
  - intros k ??. simpl. rewrite lookup_insert_ne by done.
    by apply ensure_dir_lookup_ne.
Qed.

(** C2.  A photo that has been categorized sits in exactly one folder,
    the one named by the label when a face was found and [unknown]
    otherwise: the call that returns a record has written one file, below
    that folder, and has changed nothing else besides making the folder.
    With no face the label plays no part at all. *)
Theorem photo_lands_in_one_folder w image_path person_name :
  tree (files w) →
  let faces := detected image_path w in
  let label := if decide (0 < length faces) then person_name else "unknown" in
  let folder := data_dir // "categorized" // label in
  (∀ r w', process_photo image_path person_name w = (inr r, w') →
     ∃ d t b,
       namei w (str folder) = inr d ∧
       stat (files w') d = Some Dir ∧
       d `prefix_of` t ∧ t ≠ d ∧
       files w' !! t = Some (File b) ∧
       (∀ k, k ≠ t → k ≠ d → files w' !! k = files w !! k)) ∧
  (length faces = 0 →
     ∀ other, process_photo image_path other w = process_photo image_path person_name w).
Proof.
  intros Ht faces label folder.
  pose proof (after_detection_files image_path w) as Hf0.
  pose proof (after_detection_cwd image_path w) as Hc0.
  split.
  - intros r w'. unfold process_photo.
    rewrite bind_eval, detect_faces_opencv_eval. fold faces.
    set (w0 := after_detection image_path w) in *.
    pose proof (file_photo_inv w0 image_path folder) as Hinv.
    rewrite Hf0, (namei_same w w0) in Hinv by done.
    subst folder label.
    destruct (decide (0 < length faces)); rewrite !bind_eval;
      rewrite bind_eval in Hinv;
      destruct (Path_mkdir_exist_ok _ w0) as [[|[]] w1]; try done;
      rewrite ?bind_eval;
      destruct (copy _ _ w1) as [[|x] w2]; try done;
      unfold mret, M_ret; intros [= <- <-]; eapply Hinv; try done;
      apply categorized_wf.
  - intros Hz other. unfold process_photo.
    rewrite !bind_eval, detect_faces_opencv_eval. fold faces.
    destruct (decide (0 < length faces)); [lia|done].
Qed.

End one_folder.

(** ** Detection *)

Section detection.
Context `{cv : OpenCV}.

Lemma imread_eval image_path w :
  imread image_path w = content w image_path ≫= imdecode.
Proof.
  unfold imread, content. rewrite read_bytes_eval.
  by destruct (lookup_path w image_path) as [|[? []]].
Qed.

(** C3 (as amended).  When the image cannot be decoded,
    [detect_faces_opencv] returns normally with no faces and leaves the
    world as it was: the failure is absorbed, and nothing is shown to the
    user. *)
Theorem undecodable_image_has_no_faces w image_path :
  imread image_path w = None →
  detect_faces_opencv image_path w = (inr [], w).
Proof.
  intros Him. unfold detect_faces_opencv, detect_attempt. by rewrite Him.
Qed.

(** A diagnostic appears exactly when OpenCV raised, and then too the
    result is empty. *)
Lemma detect_faces_opencv_diagnostic w image_path faces w' :
  detect_faces_opencv image_path w = (inr faces, w') →
  w' = w ∨
  ∃ e, detect_attempt image_path w = inl e ∧ faces = [] ∧
       w' = show (st_error ("Error detecting faces: " +:+ e)) w.
Proof.
  unfold detect_faces_opencv.
  destruct (detect_attempt image_path w) as [e|f]; intros [= <- <-]; eauto.
Qed.

Lemma detect_faces_opencv_total w image_path :
  ∃ faces w', detect_faces_opencv image_path w = (inr faces, w').
Proof. rewrite detect_faces_opencv_eval. eauto. Qed.

(** C4.  A decodable image is converted to grayscale and handed to the
    stock frontal-face cascade with scale factor 1.1, 5 neighbours and a
    minimum size of 30 by 30; what the cascade finds is what
    [detect_faces_opencv] returns.  When it finds a face, [process_photo]
    answers [success] and reports as face count the number of regions
    found. *)
Theorem detection_uses_fixed_parameters w image_path person_name s b img gray regions d :
  lookup_path w image_path = inr (s, File b) →
  imdecode b = Some img →
  cvtColor img COLOR_BGR2GRAY = inr gray →
  detectMultiScale
    (CascadeClassifier (haarcascades +:+ "haarcascade_frontalface_default.xml"))
    gray 1.1%Q 5%Z (30%Z, 30%Z) = inr regions →
  detect_faces_opencv image_path w = (inr regions, w) ∧
  (0 < length regions →
   tree (files w) →
   let nm := name (Path image_path) in
   namei w (str (data_dir // "categorized" // person_name)) = inr d →
   absent_or_dir (stat (files w) d) →
   stat (files w) (d ++ [nm]) ≠ Some Dir →
   s ≠ d ++ [nm] →
   ∃ r w',
     process_photo image_path person_name w = (inr r, w') ∧
     r !! "status" = Some (VStr "success") ∧
     r !! "faces_detected" = Some (VInt (length regions)) ∧
     files w' !! (d ++ [nm]) = Some (File b)).
Proof.
  intros Hs Hdec Hgray Hfaces.
  assert (detect_attempt image_path w = inr regions) as Hd.
  { unfold detect_attempt. rewrite imread_eval. unfold content.
    rewrite Hs. simpl. by rewrite Hdec, Hgray. }
  split.
  { unfold detect_faces_opencv. by rewrite Hd. }
  intros Hpos Ht nm Hdir Hnf Hfree Hne.
  assert (detected image_path w = regions) as Hdet
    by (unfold detected; by rewrite Hd).
  assert (∀ x, stat (files w) d ≠ Some (File x)) as Hnf'
    by (intros x; destruct Hnf as [E|E]; by rewrite E).
  pose proof (process_photo_ok w image_path person_name s b d Ht Hs) as Hrun.
  cbv zeta in Hrun. rewrite Hdet in Hrun.
  rewrite decide_True in Hrun by done.
  specialize (Hrun Hdir Hnf' Hfree Hne).
  rewrite decide_True in Hrun by done.
  eexists _, _. split; [exact Hrun|]. split_and!; [done..|].
  simpl. by rewrite lookup_insert_eq.
Qed.

End detection.

(** ** Registration *)

Section register.

Lemma register_person_returns_True w name sample_images out w' :
  register_person name sample_images w = (inr out, w') → out = true.
Proof.
  unfold register_person. rewrite !bind_eval.
  destruct (Path_mkdir_exist_ok _ w) as [[|[]] w1]; [done|].
  rewrite bind_eval. destruct (for_each _ _ w1) as [[|[]] w2]; [done|].
  by intros [= <- <-].
Qed.

(** C5.  [register_person] makes sure the person's folder exists and
    copies the samples into it in order, the k-th one as [sample_k.jpg];
    a new folder then holds these files and nothing else.  The samples are
    readable files kept outside the folder, and no directory has taken the
    place of a [sample_k.jpg].  A call that ends without an exception
    returns [True]. *)
Theorem register_person_stores_samples w name sample_images :
  (∀ out w', register_person name sample_images w = (inr out, w') → out = true) ∧
  (∀ d,
     namei w (str (data_dir // "registered" // name)) = inr d →
     absent_or_dir (stat (files w) d) →
     Forall (outside w d) sample_images →
     (∀ i, i < length sample_images →
           stat (files w) (d ++ [sample_file i]) ≠ Some Dir) →
     ∃ w',
       register_person name sample_images w = (inr true, w') ∧
       stat (files w') d = Some Dir ∧
       (∀ i p, sample_images !! i = Some p →
               files w' !! (d ++ [sample_file i]) = File <$> content w p) ∧
       (∀ k, k ≠ d →
             (∀ i, i < length sample_images → k ≠ d ++ [sample_file i]) →
             files w' !! k = files w !! k) ∧
       (empty_folder (files w) d →
        ∀ k, d `prefix_of` k → k ≠ d → is_Some (files w' !! k) →
             ∃ i, i < length sample_images ∧ k = d ++ [sample_file i])).
Proof.
  split; [intros out w'; apply register_person_returns_True|].
  intros d Hd Hdir Hsrc Hfree.
  destruct (register_person_ok w name sample_images d Hd Hdir Hsrc Hfree)
    as (contents & Hcont & Hlen & Hrun).
  assert (∀ x, stat (files w) d ≠ Some (File x)) as Hnf
    by (intros x; destruct Hdir as [E|E]; by rewrite E).
  assert (∀ k, k ≠ d →
            (∀ i, i < length sample_images → k ≠ d ++ [sample_file i]) →
            store_samples d 0 contents (ensure_dir d (files w)) !! k = files w !! k)
    as Hframe.
  { intros k Hk Hki. rewrite store_samples_other, ensure_dir_lookup_ne; [done..|].
    intros j Hj. apply Hki. lia. }
  eexists. split; [exact Hrun|]. simpl. split_and!.
  - apply store_samples_keeps_dirs.
    + intros j Hj.
      destruct (d ++ [sample_file j]) as [|x l] eqn:E; [by destruct d|].
      rewrite stat_lookup, ensure_dir_lookup_ne, <-stat_lookup, <-E by
        (try done; rewrite <-E; apply child_ne).
      apply Hfree. lia.
    + by apply ensure_dir_stat.
  - intros i p Hp. rewrite (Hcont i p Hp).
    destruct (contents !! i) as [b|] eqn:E.
    + by rewrite (store_samples_sample d 0 contents _ i b).
    + apply lookup_ge_None in E. apply lookup_lt_Some in Hp. lia.
  - done.
  - intros Hnew k Hpre Hk [n Hn].
    destruct (decide (Exists (λ i, k = d ++ [sample_file i]) (seq 0 (length sample_images))))
      as [(i & Hi & ->)%Exists_exists|Hno].
    + exists i. apply elem_of_seq in Hi. split; [lia|done].
    + rewrite Hframe in Hn; [by destruct Hk; eapply Hnew|done|].
      intros i Hi ->. apply Hno, Exists_exists. exists i. split; [|done].
      apply elem_of_seq. lia.
Qed.

Lemma copy_samples_frame person_dir d samples : ∀ i w out w',
  wf_path person_dir →
  namei w (str person_dir) = inr d → stat (files w) d = Some Dir →
  for_each (enumerate_from i samples) (λ '(idx, img_path),
    let dest_path := person_dir // sample_file idx in
    copy img_path (str dest_path);; mret tt) w = (out, w') →
  ∀ k, (∀ j, i ≤ j < i + length samples → ¬ (d ++ [sample_file j]) `prefix_of` k) →
       files w' !! k = files w !! k.
Proof.
  induction samples as [|p samples IH]; intros i w out w' Hwf Hd Hdir.
  { by intros [= <- <-]. }
  change (enumerate_from i (p :: samples))
    with ((i, p) :: enumerate_from (S i) samples).
  rewrite for_each_cons. cbv beta iota zeta. rewrite bind_eval.
  destruct (copy p _ w) as [[e|dst'] w2] eqn:Hc.
  { apply copy_err in Hc as ->. by intros [= <- <-]. }
  apply (copy_lands w _ person_dir _ d) in Hc
    as (s & b & t & _ & Hcase & Hnd & _ & ->); [|done|apply sample_file_proper|done..].
  change ((mret () : M ()) (set_files (insert t (File b)) w))
    with (inr () : exn + (), set_files (insert t (File b)) w).
  cbv iota. intros Hloop k Hk.
  set (w2 := set_files (insert t (File b)) w) in *.
  assert (keeps_dirs (files w) (files w2)) as Hkeep by by apply keeps_dirs_write.
  rewrite (IH (S i) w2 out w'); [|done| | |done|].
  - simpl. rewrite lookup_insert_ne; [done|]. intros <-.
    apply (Hk i); [simpl; lia|].
    destruct Hcase as [-> | [_ ->]];
      [by exists []; rewrite app_nil_r|exists [basename p]; by rewrite <-app_assoc].
  - by apply (namei_mono w w2).
  - by apply Hkeep.
  - intros j Hj. apply Hk. simpl. lia.
Qed.

(** C6.  Registering again under a name whose folder exists changes
    nothing outside [sample_1.jpg] .. [sample_M.jpg], M being the number
    of new samples; a sample stored earlier under a higher index keeps its
    bytes.  This holds whether the call returns or raises half-way. *)
Theorem reregistration_leaves_higher_indices w name sample_images d out w' :
  namei w (str (data_dir // "registered" // name)) = inr d →
  stat (files w) d = Some Dir →
  register_person name sample_images w = (out, w') →
  (∀ k, (∀ i, i < length sample_images → ¬ (d ++ [sample_file i]) `prefix_of` k) →
        files w' !! k = files w !! k) ∧
  (∀ i : nat, (length sample_images ≤ i)%nat →
        files w' !! (d ++ [sample_file i]) = files w !! (d ++ [sample_file i])).
Proof.
  intros Hd Hdir Hrun.
  assert (∀ k, (∀ i, i < length sample_images → ¬ (d ++ [sample_file i]) `prefix_of` k) →
               files w' !! k = files w !! k) as Hframe.
  { revert Hrun. unfold register_person.
    rewrite bind_eval, Path_mkdir_exist_ok_eval, Hd, Hdir.
    assert (set_files (ensure_dir d) w = w) as ->.
    { unfold set_files, ensure_dir. rewrite Hdir. by destruct w. }
    rewrite bind_eval. unfold enumerate.
    destruct (for_each _ _ w) as [[e|[]] w2] eqn:Hloop; intros [= <- <-];
      intros k Hk;
      apply (copy_samples_frame _ d _ _ _ _ _ (registered_wf name) Hd Hdir Hloop);
      intros j Hj; apply Hk; lia. }
  split; [done|].
  intros i Hi. apply Hframe. intros j Hj [l El].
  rewrite <-app_assoc in El. apply app_inv_head in El.
  apply (f_equal head) in El. simpl in El.
  assert (sample_file i = sample_file j) as E%sample_file_inj by congruence. lia.
Qed.

End register.

(** ** Categorizing the same photo twice *)

Section twice.
Context `{cv : OpenCV}.

Lemma detected_content w w' p p' :
  content w p = content w' p' → detected p w = detected p' w'.
Proof.
  intros E. unfold detected, detect_attempt. by rewrite !imread_eval, E.
Qed.

Lemma content_file w p s b : lookup_path w p = inr (s, File b) → content w p = Some b.
Proof. unfold content. by intros ->. Qed.

(** C7 (as amended).  Two calls of [process_photo] on image files with
    the same file name, the same bytes and the same label return equal
    records, both naming the same destination; the second copy is written
    over the first, and the destination holds the second input's bytes
    afterwards. *)
Theorem second_copy_overwrites_first w p1 p2 person_name s1 s2 b d :
  tree (files w) →
  lookup_path w p1 = inr (s1, File b) →
  lookup_path w p2 = inr (s2, File b) →
  name (Path p1) = name (Path p2) →
  let faces := detected p1 w in
  let label := if decide (0 < length faces) then person_name else "unknown" in
  let folder := data_dir // "categorized" // label in
  let t := d ++ [name (Path p1)] in
  namei w (str folder) = inr d →
  absent_or_dir (stat (files w) d) →
  stat (files w) t ≠ Some Dir →
  s1 ≠ t → s2 ≠ t →
  ∃ r w1 w2,
    process_photo p1 person_name w = (inr r, w1) ∧
    process_photo p2 person_name w1 = (inr r, w2) ∧
    r !! "destination" = Some (VStr (str (folder // name (Path p1)))) ∧
    files w1 !! t = Some (File b) ∧
    files w2 !! t = File <$> content w1 p2 ∧
    files w2 = files w1.
Proof.
  intros Ht Hs1 Hs2 Hname faces label folder t Hd Hdir Hfree Hne1 Hne2.
  assert (∀ x, stat (files w) d ≠ Some (File x)) as Hnf
    by (intros x; destruct Hdir as [E|E]; by rewrite E).
  destruct (readable_name w p1 s1 b Ht Hs1) as (Hnm & _ & _).
  pose proof (process_photo_ok w p1 person_name s1 b d Ht Hs1 Hd Hnf Hfree Hne1) as H1.
  set (w1 := set_files (λ fs, <[t := File b]> (ensure_dir d fs)) (after_detection p1 w)).
  pose proof (after_detection_files p1 w) as Hf0.
  pose proof (after_detection_cwd p1 w) as Hc0.
  assert (files w1 = <[t := File b]> (ensure_dir d (files w))) as Hf1
    by (simpl; by rewrite Hf0).
  assert (cwd w1 = cwd w) as Hc1 by done.
  set (wm := set_files (ensure_dir d) w).
  assert (namei wm (str folder) = inr d) as Hdm
    by (apply (namei_mono w wm); [done|apply keeps_dirs_ensure|done]).
  assert (stat (files wm) d = Some Dir) as Hdirm by by apply ensure_dir_stat.
  assert (stat (files wm) t ≠ Some Dir) as Hfreem.
  { simpl. subst t. destruct (d ++ [name (Path p1)]) as [|x l] eqn:E; [by destruct d|].
    rewrite stat_lookup, ensure_dir_lookup_ne, <-stat_lookup; try done.
    rewrite <-E. apply child_ne. }
  assert (keeps_dirs (files w) (files w1)) as Hkeep.
  { rewrite Hf1. eapply keeps_dirs_trans; [apply keeps_dirs_ensure|].
    by apply keeps_dirs_write. }
  assert (tree (files w1)) as Ht1.
  { rewrite Hf1. apply (tree_write wm (str (folder // name (Path p1)))); [|  |done].
    - by eapply tree_ensure_dir.
    - apply namei_join_ok; [apply categorized_wf|done..]. }
  assert (t ≠ d) as Htd by apply child_ne.
  assert (t ≠ []) as Htn by (subst t; by destruct d).
  assert (stat (files w1) t = Some (File b)) as Hst1
    by (rewrite Hf1; by apply stat_insert_eq).
  assert (stat (files w1) d = Some Dir) as Hsd1.
  { rewrite Hf1, stat_insert_ne by done. by apply ensure_dir_stat. }
  assert (lookup_path w1 p2 = inr (s2, File b)) as Hs2'.
  { apply lookup_path_inv in Hs2 as [Hn2 Hst2]. apply lookup_path_intro.
    - by apply (namei_mono w w1).
    - rewrite Hf1, stat_insert_ne by done.
      apply stat_file in Hst2 as [??]. rewrite stat_lookup by done.
      rewrite ensure_dir_lookup_ne; [done|]. intros ->.
      destruct Hdir as [E|E]; rewrite stat_lookup in E by done; congruence. }
  assert (detected p2 w1 = faces) as Hdet.
  { apply detected_content.
    by rewrite (content_file _ _ _ _ Hs2'), (content_file _ _ _ _ Hs1). }
  pose proof (process_photo_ok w1 p2 person_name s2 b d Ht1 Hs2') as H2.
  cbv zeta in H2. rewrite Hdet, <-Hname in H2. fold label folder t in H2.
  specialize (H2 (namei_mono w w1 _ d Hc1 Hkeep Hd)).
  rewrite Hsd1, Hst1 in H2. specialize (H2 ltac:(done) ltac:(done) Hne2).
  assert (files (set_files (λ fs, <[t := File b]> (ensure_dir d fs))
                           (after_detection p2 w1)) = files w1) as Hsame.
  { simpl. rewrite after_detection_files. unfold ensure_dir. rewrite Hsd1.
    apply insert_id. by rewrite <-stat_lookup. }
  eexists _, w1, _. split; [exact H1|]. split; [exact H2|]. split_and!.
  - fold faces. by destruct (decide (0 < length faces)).
  - by rewrite <-stat_lookup.
  - rewrite Hsame, (content_file _ _ _ _ Hs2'). simpl. by rewrite <-stat_lookup.
  - done.
Qed.

End twice.

(** ** One turn of the batch loop *)

Section batch.
Context `{cv : OpenCV}.

Lemma mkstemp_eval s w :
  mkstemp s w =
  match namei w s with
  | inl e => (inl e, w)
  | inr k =>
      match stat (files w) k with
      | Some _ => (inl FileExistsError, w)
      | None => (inr tt, set_files (insert k (File [])) w)
      end
  end.
Proof.
  unfold mkstemp, mbind, M_bind, lift, gets, modify, raise.
  destruct (namei w s); [done|]. by destruct (stat _ _).
Qed.

Lemma unlink_eval s w :
  unlink s w =
  match lookup_path w s with
  | inl e => (inl e, w)
  | inr (k, File _) => (inr tt, set_files (delete k) w)
  | inr (_, Dir) => (inl IsADirectoryError, w)
  end.
Proof.
  unfold unlink, mbind, M_bind, lift, modify, raise.
  by destruct (lookup_path w s) as [|[? []]].
Qed.

(** The upload is categorized under the name of the temporary file: the
    name the browser sent plays no part. *)
Lemma categorize_upload_ok w selected_person uploaded_file tmp_path k d :
  tree (files w) →
  namei w tmp_path = inr k → stat (files w) k = None →
  let label := if decide (selected_person = "Unknown") then "unknown"
               else selected_person in
  let w0 := set_files (insert k (File (getbuffer uploaded_file))) w in
  let faces := detected tmp_path w0 in
  let folder :=
    data_dir // "categorized" // (if decide (0 < length faces) then label else "unknown") in
  let nm := name (Path tmp_path) in
  namei w (str folder) = inr d →
  absent_or_dir (stat (files w) d) →
  stat (files w) (d ++ [nm]) ≠ Some Dir →
  k ≠ d → k ≠ d ++ [nm] →
  ∃ r w',
    categorize_upload selected_person uploaded_file tmp_path w = (inr r, w') ∧
    r !! "destination" = Some (VStr (str (folder // nm))) ∧
    files w' !! (d ++ [nm]) = Some (File (getbuffer uploaded_file)) ∧
    files w' !! k = None.
Proof.
  intros Ht Hk Hfresh label w0 faces folder nm Hd Hdir Hfree Hkd Hkt.
  apply stat_None in Hfresh as Hfresh'. destruct Hfresh' as [Hkn Hknone].
  set (data := getbuffer uploaded_file) in *.
  assert (stat (files w) k ≠ Some Dir) as Hnd by congruence.
  assert (keeps_dirs (files w) (files w0)) as Hkeep by by apply keeps_dirs_write.
  assert (tree (files w0)) as Ht0 by by eapply tree_write.
  assert (lookup_path w0 tmp_path = inr (k, File data)) as Hs0.
  { apply lookup_path_intro; [by apply (namei_mono w w0)|].
    by apply stat_insert_eq. }
  assert (namei w0 (str folder) = inr d) as Hd0 by by apply (namei_mono w w0).
  assert (stat (files w0) d = stat (files w) d) as Ed
    by by apply stat_insert_ne.
  assert (stat (files w0) (d ++ [nm]) = stat (files w) (d ++ [nm])) as Et
    by by apply stat_insert_ne.
  assert (∀ x, stat (files w0) d ≠ Some (File x)) as Hnf
    by (intros x; rewrite Ed; destruct Hdir as [E|E]; by rewrite E).
  pose proof (process_photo_ok w0 tmp_path label k data d Ht0 Hs0) as Hrun.
  cbv zeta in Hrun. fold faces nm in Hrun.
  assert (data_dir // "categorized" //
            (if decide (0 < length faces) then label else "unknown") = folder) as Ef.
  { subst folder. by destruct (decide (0 < length faces)). }
  rewrite Ef in Hrun.
  specialize (Hrun Hd0 Hnf ltac:(by rewrite Et) Hkt).
  set (w3 := set_files _ (after_detection tmp_path w0)) in Hrun.
  assert (lookup_path w3 tmp_path = inr (k, File data)) as Hs3.
  { apply lookup_path_intro.
    - apply (namei_mono w0 w3);
        [apply after_detection_cwd| |by apply (namei_mono w w0)].
      change (files w3) with
        (<[d ++ [nm] := File data]> (ensure_dir d (files (after_detection tmp_path w0)))).
      rewrite after_detection_files.
      eapply keeps_dirs_trans; [apply keeps_dirs_ensure|]. apply keeps_dirs_write.
      rewrite ensure_dir_stat_ne by apply child_ne. by rewrite Et.
    - change (files w3) with
        (<[d ++ [nm] := File data]> (ensure_dir d (files (after_detection tmp_path w0)))).
      rewrite after_detection_files.
      rewrite stat_insert_ne, ensure_dir_stat_ne by done.
      by apply stat_insert_eq. }
  eexists _, (set_files (delete k) w3). split_and!.
  - unfold categorize_upload. rewrite bind_eval, mkstemp_eval, Hk, Hfresh.
    rewrite bind_eval, write_bytes_eval.
    rewrite (namei_mono w (set_files (insert k (File [])) w) tmp_path k);
      [|done|by apply keeps_dirs_write|done].
    simpl. rewrite stat_insert_eq by done.
    assert (set_files (insert k (File (getbuffer uploaded_file)))
                      (set_files (insert k (File [])) w) = w0)
      as ->.
    { unfold set_files, w0. simpl. by rewrite insert_insert_eq. }
    rewrite bind_eval.
    assert ((if decide (selected_person = "Unknown")
             then process_photo tmp_path "unknown"
             else process_photo tmp_path selected_person) = process_photo tmp_path label)
      as -> by (subst label; by destruct (decide (selected_person = "Unknown"))).
    rewrite Hrun, bind_eval, unlink_eval, Hs3. reflexivity.
  - by destruct (decide (0 < length faces)).
  - simpl. rewrite lookup_delete_ne by done. by rewrite lookup_insert_eq.
  - simpl. by rewrite lookup_delete_eq.
Qed.

End batch.

(** ** The forms *)

Section forms.
Context `{cv : OpenCV}.

(** C8.  An empty name or an empty list of samples stops the sidebar
    before anything is registered, and an empty upload stops the main area
    before anything is categorized: the world is left as it was, and a
    whole run of the script does no more than the start-up
    initialization. *)
Theorem invalid_input_is_rejected w :
  (∀ clicked person_name uploaded_samples tmp_dir,
     person_name = "" ∨ uploaded_samples = [] →
     register_form clicked person_name uploaded_samples tmp_dir w = (inr tt, w)) ∧
  (∀ choice clicked tmp_paths,
     categorize_form [] choice clicked tmp_paths w = (inr tt, w)) ∧
  (∀ i : Inputs,
     app.person_name i = "" ∨ app.uploaded_samples i = [] →
     app.uploaded_files i = [] →
     script i w = __init__ w).
Proof.
  assert (∀ w0 clicked person_name uploaded_samples tmp_dir,
     person_name = "" ∨ uploaded_samples = [] →
     register_form clicked person_name uploaded_samples tmp_dir w0 = (inr tt, w0))
    as Hreg.
  { intros w0 clicked person_name uploaded_samples tmp_dir Hbad.
    unfold register_form.
    destruct Hbad as [-> | ->].
    - rewrite (bool_decide_false ("" ≠ "")) by naive_solver.
      by rewrite andb_false_r.
    - rewrite (bool_decide_false ([] ≠ [])) by naive_solver.
      by rewrite andb_false_r. }
  split_and!; [by apply Hreg|done|].
  intros i Hbad Hnone. unfold script. rewrite !bind_eval.
  destruct (__init__ w) as [[e|[]] w1]; [done|].
  rewrite bind_eval, Hreg, Hnone by done. done.
Qed.

End forms.

(** ** Start-up *)

Section startup.

Lemma storage_snoc w c : storage w [] ++ [c] = storage w [c].
Proof. unfold storage. by rewrite <-app_assoc. Qed.

Lemma storage_snoc2 w a c : storage w [a] ++ [c] = storage w [a; c].
Proof. unfold storage. by rewrite <-app_assoc. Qed.

Lemma proper_literal s :
  bool_decide (s ≠ "" ∧ s ≠ "." ∧ s ≠ "..") &&
  negb (Str.has_char "/" s) && negb (Str.has_char "000" s) = true → proper s.
Proof.
  intros [[H1%bool_decide_eq_true H2%negb_true_iff]%andb_true_iff
          H3%negb_true_iff]%andb_true_iff.
  destruct H1 as (? & ? & ?). by repeat split.
Qed.

Lemma namei_data_dir w :
  stat (files w) (cwd w) = Some Dir → namei w (str data_dir) = inr (storage w []).
Proof.
  intros Hc. rewrite namei_str by apply data_dir_wf.
  change (parts data_dir) with ["data"]. change (start w data_dir) with (cwd w).
  simpl. rewrite Hc. by rewrite step_proper by by apply proper_literal.
Qed.

Lemma namei_storage w sub :
  proper sub →
  stat (files w) (cwd w) = Some Dir → stat (files w) (storage w []) = Some Dir →
  namei w (str (data_dir // sub)) = inr (storage w [sub]).
Proof.
  intros Hsub Hc Hd. rewrite <-storage_snoc.
  apply namei_join_ok; [apply data_dir_wf|done|by apply namei_data_dir|done].
Qed.

Lemma namei_categorized w label :
  proper label → storage_ready w →
  namei w (str (data_dir // "categorized" // label)) = inr (storage w ["categorized"; label]).
Proof.
  intros Hl (Hc & Hd & _ & Hcat). rewrite <-storage_snoc2.
  apply namei_join_ok; [by apply joinpath_wf, data_dir_wf|done| |done].
  apply namei_storage; [by apply proper_literal|done..].
Qed.

Lemma namei_registered w name :
  proper name → storage_ready w →
  namei w (str (data_dir // "registered" // name)) = inr (storage w ["registered"; name]).
Proof.
  intros Hl (Hc & Hd & Hreg & _). rewrite <-storage_snoc2.
  apply namei_join_ok; [by apply joinpath_wf, data_dir_wf|done| |done].
  apply namei_storage; [by apply proper_literal|done..].
Qed.

Lemma storage_ne w a : storage w [a] ≠ storage w [].
Proof. rewrite <-storage_snoc. apply child_ne. Qed.

Lemma storage_ne_cwd w sub : storage w sub ≠ cwd w.
Proof.
  unfold storage. intros E. apply (f_equal length) in E.
  rewrite length_app in E. simpl in E. lia.
Qed.

Lemma __init___eval w :
  stat (files w) (cwd w) = Some Dir →
  absent_or_dir (stat (files w) (storage w [])) →
  absent_or_dir (stat (files w) (storage w ["registered"])) →
  absent_or_dir (stat (files w) (storage w ["categorized"])) →
  __init__ w =
  (inr tt,
   set_files (λ fs, ensure_dir (storage w ["categorized"])
                      (ensure_dir (storage w ["registered"])
                         (ensure_dir (storage w []) fs))) w).
Proof.
  intros Hc Hd Hr Hcat. unfold __init__.
  assert (∀ o, absent_or_dir o → ∀ x, o ≠ Some (File x)) as Hnf
    by (intros o [-> | ->]; done).
  rewrite bind_eval, Path_mkdir_exist_ok_eval, namei_data_dir by done.
  set (w1 := set_files (ensure_dir (storage w [])) w).
  replace (match stat (files w) (storage w []) with
           | Some (File _) => (inl FileExistsError, w)
           | _ => (inr (), w1)
           end) with (inr () : exn + (), w1) by by destruct Hd as [-> | ->].
  assert (stat (files w1) (cwd w1) = Some Dir) as Hc1.
  { simpl. rewrite ensure_dir_stat_ne; [done|]. apply not_eq_sym, storage_ne_cwd. }
  assert (stat (files w1) (storage w1 []) = Some Dir) as Hd1
    by (apply ensure_dir_stat; by apply Hnf).
  rewrite bind_eval, Path_mkdir_exist_ok_eval.
  rewrite (namei_storage w1 "registered") by (try done; by apply proper_literal).
  change (storage w1 ["registered"]) with (storage w ["registered"]).
  set (w2 := set_files (ensure_dir (storage w ["registered"])) w1).
  assert (stat (files w1) (storage w ["registered"])
          = stat (files w) (storage w ["registered"])) as Er
    by (simpl; apply ensure_dir_stat_ne, storage_ne).
  replace (match stat (files w1) (storage w ["registered"]) with
           | Some (File _) => (inl FileExistsError, w1)
           | _ => (inr (), w2)
           end) with (inr () : exn + (), w2)
    by (rewrite Er; by destruct Hr as [-> | ->]).
  assert (stat (files w2) (cwd w2) = Some Dir) as Hc2.
  { simpl. rewrite ensure_dir_stat_ne; [done|]. apply not_eq_sym, storage_ne_cwd. }
  assert (stat (files w2) (storage w2 []) = Some Dir) as Hd2.
  { change (stat (ensure_dir (storage w ["registered"]) (files w1)) (storage w [])
            = Some Dir).
    rewrite ensure_dir_stat_ne; [exact Hd1|]. apply not_eq_sym, storage_ne. }
  rewrite Path_mkdir_exist_ok_eval.
  rewrite (namei_storage w2 "categorized") by (try done; by apply proper_literal).
  change (storage w2 ["categorized"]) with (storage w ["categorized"]).
  assert (stat (files w2) (storage w ["categorized"])
          = stat (files w) (storage w ["categorized"])) as Ec.
  { simpl. rewrite !ensure_dir_stat_ne; [done|apply storage_ne|].
    unfold storage. intros E%app_inv_head. done. }
  rewrite Ec. by destruct Hcat as [-> | ->].
Qed.

(** C9.  Building the categorizer creates [data], [data/registered] and
    [data/categorized] where they are missing and touches nothing that is
    there; when all three exist nothing changes and no error is raised;
    and running it a second time changes nothing. *)
Theorem startup_creates_storage w :
  stat (files w) (cwd w) = Some Dir →
  absent_or_dir (stat (files w) (storage w [])) →
  absent_or_dir (stat (files w) (storage w ["registered"])) →
  absent_or_dir (stat (files w) (storage w ["categorized"])) →
  ∃ w',
    __init__ w = (inr tt, w') ∧
    storage_ready w' ∧
    (∀ k n, files w !! k = Some n → files w' !! k = Some n) ∧
    (∀ k, k ≠ storage w [] → k ≠ storage w ["registered"] →
          k ≠ storage w ["categorized"] → files w' !! k = files w !! k) ∧
    (storage_ready w → w' = w) ∧
    __init__ w' = (inr tt, w').
Proof.
  intros Hc Hd Hr Hcat.
  assert (∀ o, absent_or_dir o → ∀ x, o ≠ Some (File x)) as Hnf
    by (intros o [-> | ->]; done).
  set (D := storage w []). set (R := storage w ["registered"]).
  set (C := storage w ["categorized"]).
  set (w' := set_files (λ fs, ensure_dir C (ensure_dir R (ensure_dir D fs))) w).
  assert (storage_ready w') as Hready.
  { unfold storage_ready. change (storage w' ?x) with (storage w x). simpl.
    fold D R C. split_and!.
    - rewrite !ensure_dir_stat_ne; [done|apply not_eq_sym, storage_ne_cwd..].
    - rewrite !ensure_dir_stat_ne by apply not_eq_sym, storage_ne.
      apply ensure_dir_stat. by apply Hnf.
    - rewrite ensure_dir_stat_ne.
      + apply ensure_dir_stat. rewrite ensure_dir_stat_ne by apply storage_ne.
        by apply Hnf.
      + unfold R, C, storage. by intros E%app_inv_head.
    - apply ensure_dir_stat.
      rewrite !ensure_dir_stat_ne;
        [by apply Hnf|apply storage_ne|unfold R, C, storage; by intros E%app_inv_head]. }
  assert (∀ w0, storage_ready w0 →
    set_files (λ fs, ensure_dir (storage w0 ["categorized"])
                       (ensure_dir (storage w0 ["registered"])
                          (ensure_dir (storage w0 []) fs))) w0 = w0) as Hfix.
  { intros w0 (_ & H1 & H2 & H3). unfold set_files.
    rewrite (ensure_dir_id _ _ H1), (ensure_dir_id _ _ H2), (ensure_dir_id _ _ H3).
    by destruct w0. }
  exists w'. split_and!.
  - by apply __init___eval.
  - done.
  - intros k n Hk. simpl. by do 3 apply ensure_dir_lookup_Some.
  - intros k ???. simpl. by rewrite !ensure_dir_lookup_ne.
  - intros Hw. by apply Hfix.
  - destruct Hready as (H0 & H1 & H2 & H3).
    rewrite __init___eval; [|done|by right..].
    f_equal. apply Hfix. by split_and!.
Qed.

End startup.

(** ** The [unknown] folder *)

Section unknown.
Context `{cv : OpenCV}.

Lemma str_unknown nm :
  proper nm →
  str (data_dir // "categorized" // "unknown" // nm) = "data/categorized/unknown/" +:+ nm.
Proof.
  intros Hnm. by rewrite joinpath_component by by apply proper_component.
Qed.

(** C10.  The select box entry [Unknown] is passed on as the label
    [unknown].  With that label a photo goes to [categorized/unknown]
    whether or not a face is found, and the status is [success] in the one
    case and [no_faces] in the other: the folder does not tell the two
    apart. *)
Theorem unknown_folder_holds_both_statuses w image_path s b :
  tree (files w) → storage_ready w →
  lookup_path w image_path = inr (s, File b) →
  let nm := name (Path image_path) in
  let unknown_dir := storage w ["categorized"; "unknown"] in
  absent_or_dir (stat (files w) unknown_dir) →
  stat (files w) (unknown_dir ++ [nm]) ≠ Some Dir →
  s ≠ unknown_dir ++ [nm] →
  (∀ uploaded_file tmp_path,
     categorize_upload "Unknown" uploaded_file tmp_path =
     categorize_upload "unknown" uploaded_file tmp_path) ∧
  ∃ r w',
    process_photo image_path "unknown" w = (inr r, w') ∧
    files w' !! (unknown_dir ++ [nm]) = Some (File b) ∧
    r !! "destination" = Some (VStr ("data/categorized/unknown/" +:+ nm)) ∧
    r !! "status" =
      Some (VStr (if decide (0 < length (detected image_path w))
                  then "success" else "no_faces")).
Proof.
  intros Ht Hready Hs nm unknown_dir Hdir Hfree Hne. split; [done|].
  destruct (readable_name w image_path s b Ht Hs) as (Hnm & _ & _).
  assert (∀ x, stat (files w) unknown_dir ≠ Some (File x)) as Hnf
    by (intros x; destruct Hdir as [E|E]; by rewrite E).
  pose proof (process_photo_ok w image_path "unknown" s b unknown_dir Ht Hs) as Hrun.
  cbv zeta in Hrun.
  replace (if decide (0 < length (detected image_path w)) then "unknown" else "unknown")
    with "unknown" in Hrun by by destruct (decide _).
  rewrite str_unknown in Hrun by done.
  specialize (Hrun (namei_categorized w "unknown" ltac:(by apply proper_literal) Hready)
                   Hnf Hfree Hne).
  eexists _, _. split; [exact Hrun|]. split_and!.
  - simpl. by rewrite lookup_insert_eq.
  - by destruct (decide _).
  - by destruct (decide _).
Qed.

End unknown.

(** * Examples *)

Section examples.

Ltac run := vm_compute; first [reflexivity | discriminate | done].

Ltac tree_ok := apply (bool_decide_eq_true_1 (tree _)); vm_compute; reflexivity.

(** C1, witness: the group photo, three faces, label [team]. *)
Lemma process_photo_files_the_photo_witness :
  ∃ r w',
    process_photo "group_photo.jpg" "team" installed = (inr r, w') ∧
    r = {[ "status" := VStr "success";
           "person" := VStr "team";
           "faces_detected" := VInt 3;
           "destination" := VStr "data/categorized/team/group_photo.jpg" ]} ∧
    files w' !! ["srv"; "app"; "data"; "categorized"; "team"; "group_photo.jpg"]
      = Some (File group_photo).
Proof.
  destruct (process_photo_files_the_photo installed "group_photo.jpg" "team"
              ["srv"; "app"; "group_photo.jpg"] group_photo
              ["srv"; "app"; "data"; "categorized"; "team"])
    as (r & w' & Hrun & Hfiles & _ & _ & Hfaces & _).
  - tree_ok.
  - run.
  - run.
  - left. run.
  - run.
  - run.
  - exists r, w'. split; [exact Hrun|]. split.
    + rewrite Hfaces by (vm_compute; lia). run.
    + rewrite Hfiles. run.
Defined.

(** C1, counterexample: the same photo with a label that has a
    separator in it.  The parent folder does not exist, [mkdir] raises,
    nothing is copied and no record is returned. *)
Lemma process_photo_nested_label_raises :
  lookup_path installed "group_photo.jpg"
    = inr (["srv"; "app"; "group_photo.jpg"], File group_photo) ∧
  length (detected "group_photo.jpg" installed) = 3 ∧
  process_photo "group_photo.jpg" "family/2024" installed
    = (inl FileNotFoundError, installed).
Proof. split_and!; run. Qed.

(** The spec's second scenario: a landscape, no face, label [team]. *)
Example landscape_goes_to_unknown :
  (process_photo "landscape.png" "team" installed).1
  = inr {[ "status" := VStr "no_faces";
           "destination" := VStr "data/categorized/unknown/landscape.png" ]}.
Proof. run. Qed.

(** C2, witness: with no face in the picture the label is immaterial. *)
Lemma photo_lands_in_one_folder_witness :
  process_photo "landscape.png" "family" installed
  = process_photo "landscape.png" "team" installed.
Proof.
  apply (proj2 (photo_lands_in_one_folder installed "landscape.png" "team"
                  ltac:(tree_ok))).
  run.
Defined.

(** C3, witness: an empty file is no image. *)
Lemma undecodable_image_has_no_faces_witness :
  detect_faces_opencv "broken.jpg" installed = (inr [], installed).
Proof. apply undecodable_image_has_no_faces. run. Defined.

(** C3, counterexample: for that file nothing is reported, the page stays
    empty. *)
Lemma decode_failure_is_silent :
  imread "broken.jpg" installed = None ∧
  (detect_faces_opencv "broken.jpg" installed).1 = inr [] ∧
  page (detect_faces_opencv "broken.jpg" installed).2 = [].
Proof. split_and!; run. Qed.

(** C4, witness: three regions in, three faces out. *)
Lemma detection_uses_fixed_parameters_witness :
  detect_faces_opencv "group_photo.jpg" installed
  = (inr (replicate 3 (0, 0, 30, 30)%Z), installed) ∧
  ∃ r w',
    process_photo "group_photo.jpg" "team" installed = (inr r, w') ∧
    r !! "status" = Some (VStr "success") ∧
    r !! "faces_detected" = Some (VInt 3).
Proof.
  destruct (detection_uses_fixed_parameters (cv := toy_cv)
              installed "group_photo.jpg" "team"
              ["srv"; "app"; "group_photo.jpg"] group_photo
              group_photo group_photo (replicate 3 (0, 0, 30, 30)%Z)
              ["srv"; "app"; "data"; "categorized"; "team"])
    as [Hdetect Hphoto]; [run..|].
  split; [exact Hdetect|].
  destruct Hphoto as (r & w' & Hrun & Hstatus & Hcount & _);
    [vm_compute; lia|tree_ok|run|left; run|run|run|].
  exists r, w'. by split_and!.
Defined.

(** C5, witness: registering alice with two samples. *)
Lemma register_person_stores_samples_witness :
  ∃ w',
    register_person "alice" ["group_photo.jpg"; "landscape.png"] installed
      = (inr true, w') ∧
    files w' !! ["srv"; "app"; "data"; "registered"; "alice"; "sample_1.jpg"]
      = Some (File group_photo) ∧
    files w' !! ["srv"; "app"; "data"; "registered"; "alice"; "sample_2.jpg"]
      = Some (File landscape) ∧
    ∀ k, ["srv"; "app"; "data"; "registered"; "alice"] `prefix_of` k →
         k ≠ ["srv"; "app"; "data"; "registered"; "alice"] →
         is_Some (files w' !! k) →
         ∃ i, i < 2 ∧ k = ["srv"; "app"; "data"; "registered"; "alice"; sample_file i].
Proof.
  destruct (proj2 (register_person_stores_samples installed "alice"
                     ["group_photo.jpg"; "landscape.png"])
              ["srv"; "app"; "data"; "registered"; "alice"])
    as (w' & Hrun & _ & Hsamples & Hother & Hexact).
  - run.
  - left. run.
  - apply (bool_decide_eq_true_1 (Forall _ _)). vm_compute. reflexivity.
  - intros [|[|i]] Hi; [run..|simpl in Hi; lia].
  - exists w'. split; [exact Hrun|]. split_and!.
    + apply (Hsamples 0 "group_photo.jpg"). reflexivity.
    + apply (Hsamples 1 "landscape.png"). reflexivity.
    + apply Hexact. apply (bool_decide_eq_true_1 (empty_folder _ _)).
      vm_compute. reflexivity.
Defined.

(** C6, witness: alice is registered again with one sample; her second
    sample stays what it was. *)
Lemma reregistration_leaves_higher_indices_witness :
  files (register_person "alice" ["landscape.png"] alice_registered).2
    !! ["srv"; "app"; "data"; "registered"; "alice"; "sample_2.jpg"]
  = Some (File landscape).
Proof.
  destruct (register_person "alice" ["landscape.png"] alice_registered)
    as [out w'] eqn:Hrun.
  etrans; [apply (proj2 (reregistration_leaves_higher_indices alice_registered
                           "alice" ["landscape.png"]
                           ["srv"; "app"; "data"; "registered"; "alice"] out w'
                           ltac:(run) ltac:(run) Hrun) 1); simpl; lia|].
  run.
Defined.

(** C7, witness: the group photo and a copy of it under [/tmp]. *)
Lemma second_copy_overwrites_first_witness :
  ∃ r w1 w2,
    process_photo "group_photo.jpg" "team" installed = (inr r, w1) ∧
    process_photo "/tmp/group_photo.jpg" "team" w1 = (inr r, w2) ∧
    r !! "destination" = Some (VStr "data/categorized/team/group_photo.jpg") ∧
    files w2 !! ["srv"; "app"; "data"; "categorized"; "team"; "group_photo.jpg"]
      = Some (File group_photo).
Proof.
  destruct (second_copy_overwrites_first installed
              "group_photo.jpg" "/tmp/group_photo.jpg" "team"
              ["srv"; "app"; "group_photo.jpg"] ["tmp"; "group_photo.jpg"]
              group_photo ["srv"; "app"; "data"; "categorized"; "team"])
    as (r & w1 & w2 & H1 & H2 & Hdest & Hfirst & _ & Hsame).
  - tree_ok.
  - run.
  - run.
  - run.
  - run.
  - left. run.
  - run.
  - run.
  - run.
  - exists r, w1, w2. split_and!; [done..| |].
    + rewrite Hdest. run.
    + rewrite Hsame. exact Hfirst.
Defined.

(** C7, counterexample: one upload sent through the batch loop twice
    with the label [alice].  Each turn saves it under the name [tempfile]
    drew, so the two records name different destinations and both copies
    stay in the folder. *)
Lemma batch_loop_keeps_both_copies :
  destination first_turn
    = Some (VStr "data/categorized/alice/tmpk3v9a1xq.jpg") ∧
  destination second_turn
    = Some (VStr "data/categorized/alice/tmp7pd0c2mw.jpg") ∧
  files second_turn.2
    !! ["srv"; "app"; "data"; "categorized"; "alice"; "tmpk3v9a1xq.jpg"]
    = Some (File group_photo) ∧
  files second_turn.2
    !! ["srv"; "app"; "data"; "categorized"; "alice"; "tmp7pd0c2mw.jpg"]
    = Some (File group_photo).
Proof. split_and!; run. Qed.

(** C8, witness: the button is pressed with the name left empty. *)
Lemma invalid_input_is_rejected_witness :
  register_form true "" [upload] "/tmp/tmp1x8s0kfz" installed = (inr tt, installed).
Proof.
  apply (proj1 (invalid_input_is_rejected (cv := toy_cv) installed)). by left.
Defined.

(** C9, witness: the first start on a fresh machine. *)
Lemma startup_creates_storage_witness :
  ∃ w', __init__ fresh = (inr tt, w') ∧ storage_ready w' ∧
        __init__ w' = (inr tt, w').
Proof.
  destruct (startup_creates_storage fresh) as (w' & Hrun & Hready & _ & _ & _ & Hagain).
  - run.
  - left. run.
  - left. run.
  - left. run.
  - by exists w'.
Defined.

(** C10, witness: the group photo filed under [unknown] is a success. *)
Lemma unknown_folder_holds_both_statuses_witness :
  ∃ r w',
    process_photo "group_photo.jpg" "unknown" installed = (inr r, w') ∧
    r !! "destination" = Some (VStr "data/categorized/unknown/group_photo.jpg") ∧
    r !! "status" = Some (VStr "success") ∧
    (process_photo "landscape.png" "unknown" installed).1
      = inr {[ "status" := VStr "no_faces";
               "destination" := VStr "data/categorized/unknown/landscape.png" ]}.
Proof.
  destruct (unknown_folder_holds_both_statuses installed "group_photo.jpg"
              ["srv"; "app"; "group_photo.jpg"] group_photo)
    as (_ & r & w' & Hrun & _ & Hdest & Hstatus).
  - tree_ok.
  - apply (bool_decide_eq_true_1 (storage_ready _)). vm_compute. reflexivity.
  - run.
  - left. run.
  - run.
  - run.
  - exists r, w'. split_and!; [done| | |run].
    + rewrite Hdest. run.
    + rewrite Hstatus. run.
Defined.

End examples.


(** * Further properties *)

(** ** What the categorizer never does *)

Section never.
Context `{cv : OpenCV}.

Lemma same_kind_refl n : same_kind n n.
Proof. by destruct n. Qed.

Lemma same_kind_trans n1 n2 n3 : same_kind n1 n2 → same_kind n2 n3 → same_kind n1 n3.
Proof. by destruct n1, n2, n3. Qed.

Lemma only_adds_refl w : only_adds w w.
Proof.
  split_and!; [done|by intros ?|].
  intros k n ?. exists n. split; [done|apply same_kind_refl].
Qed.

Lemma only_adds_trans w1 w2 w3 : only_adds w1 w2 → only_adds w2 w3 → only_adds w1 w3.
Proof.
  intros (Hc1 & Hk1 & Hn1) (Hc2 & Hk2 & Hn2). split_and!.
  - congruence.
  - by eapply keeps_dirs_trans.
  - intros k n (n2 & H2 & Hs2)%Hn1. apply Hn2 in H2 as (n3 & H3 & Hs3).
    exists n3. split; [done|by eapply same_kind_trans].
Qed.

Lemma only_adds_same w w' : cwd w' = cwd w → files w' = files w → only_adds w w'.
Proof. intros Hc Hf. unfold only_adds. rewrite Hc, Hf. apply only_adds_refl. Qed.

Lemma only_adds_insert w k n :
  (∀ n0, files w !! k = Some n0 → same_kind n0 n) → k ≠ [] →
  only_adds w (set_files (insert k n) w).
Proof.
  intros Hn Hk. split_and!; [done|..].
  - intros k' Hk'. simpl. destruct (decide (k = k')) as [<-|].
    + rewrite stat_lookup in Hk' by done. apply Hn in Hk'.
      destruct n; [|done]. by apply stat_insert_eq.
    + by rewrite stat_insert_ne.
  - intros k' n' Hk'. simpl. destruct (decide (k = k')) as [<-|].
    + exists n. rewrite lookup_insert_eq. split; [done|by apply Hn].
    + exists n'. rewrite lookup_insert_ne by done. split; [done|apply same_kind_refl].
Qed.

Lemma only_adds_write w k b :
  stat (files w) k ≠ Some Dir → only_adds w (set_files (insert k (File b)) w).
Proof.
  intros Hk. assert (k ≠ []) as Hne by (intros ->; by apply Hk).
  apply only_adds_insert; [|done].
  intros n0 Hn0. rewrite <-stat_lookup in Hn0 by done. by destruct n0.
Qed.

Lemma namei_nonempty_or_dir w s k :
  namei w s = inr k → stat (files w) k ≠ Some Dir → k ≠ [].
Proof. intros _ Hk ->. by apply Hk. Qed.

Lemma Path_mkdir_exist_ok_only_adds p w out w' :
  Path_mkdir_exist_ok p w = (out, w') → only_adds w w'.
Proof.
  rewrite Path_mkdir_exist_ok_eval.
  destruct (namei w (str p)) as [e|d] eqn:Hd; [intros [= <- <-]; apply only_adds_refl|].
  destruct (stat (files w) d) as [[]|] eqn:E; intros [= <- <-];
    try apply only_adds_refl.
  - unfold ensure_dir, set_files. rewrite E. destruct w. apply only_adds_refl.
  - unfold set_files, ensure_dir. rewrite E. apply stat_None in E as [? E].
    apply (only_adds_insert w d Dir); [|done]. intros n0. by rewrite E.
Qed.

Lemma write_bytes_only_adds s data w out w' :
  write_bytes s data w = (out, w') → only_adds w w'.
Proof.
  rewrite write_bytes_eval.
  destruct (namei w s) as [e|k] eqn:Hk; [intros [= <- <-]; apply only_adds_refl|].
  destruct (stat (files w) k) as [[]|] eqn:E; intros [= <- <-];
    try apply only_adds_refl; apply only_adds_write; congruence.
Qed.

Lemma copy_only_adds src dst w out w' :
  copy src dst w = (out, w') → only_adds w w'.
Proof.
  destruct out as [e|dst'].
  - intros ->%copy_err. apply only_adds_refl.
  - intros (_ & s & b & t & _ & Ht & Hnd & _ & ->)%copy_inv.
    by apply only_adds_write.
Qed.

Lemma detect_faces_opencv_only_adds image_path w :
  only_adds w (after_detection image_path w).
Proof.
  apply only_adds_same; [apply after_detection_cwd|apply after_detection_files].
Qed.

End never.

Section never_claims.
Context `{cv : OpenCV}.

Lemma process_photo_adds image_path person_name w out w' :
  process_photo image_path person_name w = (out, w') → only_adds w w'.
Proof.
  unfold process_photo. rewrite bind_eval, detect_faces_opencv_eval.
  pose proof (detect_faces_opencv_only_adds image_path w) as H0.
  set (w0 := after_detection image_path w) in *.
  destruct (decide _); rewrite bind_eval;
    destruct (Path_mkdir_exist_ok _ w0) as [[e|[]] w1] eqn:Hm;
    apply Path_mkdir_exist_ok_only_adds in Hm;
    try (intros [= <- <-]; by eapply only_adds_trans);
    rewrite bind_eval;
    destruct (copy _ _ w1) as [[e|x] w2] eqn:Hc;
    apply copy_only_adds in Hc; intros [= <- <-];
    eapply only_adds_trans; try exact Hc; by eapply only_adds_trans.
Qed.

Lemma copy_samples_only_adds person_dir samples : ∀ i w out w',
  for_each (enumerate_from i samples) (λ '(idx, img_path),
    let dest_path := person_dir // sample_file idx in
    copy img_path (str dest_path);; mret tt) w = (out, w') →
  only_adds w w'.
Proof.
  induction samples as [|p samples IH]; intros i w out w'.
  { intros [= <- <-]. apply only_adds_refl. }
  change (enumerate_from i (p :: samples))
    with ((i, p) :: enumerate_from (S i) samples).
  rewrite for_each_cons. cbv beta iota zeta. rewrite bind_eval.
  destruct (copy p _ w) as [[e|dst'] w2] eqn:Hc; apply copy_only_adds in Hc.
  - by intros [= <- <-].
  - intros Hloop%IH. by eapply only_adds_trans.
Qed.

Lemma register_person_adds name sample_images w out w' :
  register_person name sample_images w = (out, w') → only_adds w w'.
Proof.
  unfold register_person. rewrite bind_eval.
  destruct (Path_mkdir_exist_ok _ w) as [[e|[]] w1] eqn:Hm;
    apply Path_mkdir_exist_ok_only_adds in Hm; [by intros [= <- <-]|].
  rewrite bind_eval. unfold enumerate.
  destruct (for_each _ _ w1) as [[e|[]] w2] eqn:Hloop;
    apply copy_samples_only_adds in Hloop; intros [= <- <-];
    by eapply only_adds_trans.
Qed.

(** X1.  Whatever happens in [process_photo], return or exception, no
    node of the file system goes away and none changes from directory to
    file or back: all the call can do is add nodes and rewrite regular
    files. *)
Theorem process_photo_only_adds image_path person_name w :
  only_adds w (process_photo image_path person_name w).2.
Proof.
  destruct (process_photo image_path person_name w) as [out w'] eqn:Hrun.
  by eapply process_photo_adds.
Qed.

(** X2.  The same holds for [register_person]: samples stored earlier
    may be overwritten, but nothing is deleted and no directory is
    replaced, also when the call raises half-way. *)
Theorem register_person_only_adds name sample_images w :
  only_adds w (register_person name sample_images w).2.
Proof.
  destruct (register_person name sample_images w) as [out w'] eqn:Hrun.
  by eapply register_person_adds.
Qed.

(** What a raising [process_photo] leaves behind. *)
Lemma process_photo_raise_inv image_path person_name w e w' :
  process_photo image_path person_name w = (inl e, w') →
  let faces := detected image_path w in
  let label := if decide (0 < length faces) then person_name else "unknown" in
  let w0 := after_detection image_path w in
  w' = w0 ∨
  ∃ d, namei w (str (data_dir // "categorized" // label)) = inr d ∧
       stat (files w) d = None ∧
       w' = set_files (insert d Dir) w0.
Proof.
  intros Hrun faces label w0. revert Hrun. unfold process_photo.
  rewrite bind_eval, detect_faces_opencv_eval. fold faces w0.
  pose proof (after_detection_files image_path w) as Hf0.
  pose proof (after_detection_cwd image_path w) as Hc0. fold w0 in Hf0, Hc0.
  assert (∀ folder out w1,
    Path_mkdir_exist_ok folder w0 = (out, w1) →
    w1 = w0 ∨
    ∃ d, namei w (str folder) = inr d ∧ stat (files w) d = None ∧
         w1 = set_files (insert d Dir) w0) as Hmk.
  { intros folder out w1.
    rewrite Path_mkdir_exist_ok_eval, (namei_same w w0), Hf0 by done.
    destruct (namei w (str folder)) as [|d] eqn:Hd; [intros [= <- <-]; by left|].
    destruct (stat (files w) d) as [[]|] eqn:E; intros [= <- <-];
      [left|by left|right].
    - unfold set_files, ensure_dir. rewrite Hf0, E, <-Hf0. by destruct w0.
    - exists d. split_and!; [done..|].
      unfold set_files, ensure_dir. by rewrite Hf0, E. }
  subst label.
  destruct (decide (0 < length faces)); rewrite bind_eval;
    destruct (Path_mkdir_exist_ok _ w0) as [[e'|[]] w1] eqn:Hm;
    apply Hmk in Hm;
    try (by intros [= <- <-]);
    rewrite bind_eval;
    (destruct (copy _ _ w1) as [[e'|x] w2] eqn:Hc; [|done]);
    apply copy_err in Hc as ->; by intros [= <- <-].
Qed.

(** X3.  A call of [process_photo] that raises has copied nothing: the
    files are as before, except that the folder for the photo may have
    been created just before the copy failed. *)
Theorem process_photo_raises_without_copy image_path person_name w e w' :
  process_photo image_path person_name w = (inl e, w') →
  let faces := detected image_path w in
  let label := if decide (0 < length faces) then person_name else "unknown" in
  cwd w' = cwd w ∧
  (files w' = files w ∨
   ∃ d, namei w (str (data_dir // "categorized" // label)) = inr d ∧
        files w !! d = None ∧
        files w' = <[d := Dir]> (files w)).
Proof.
  intros Hrun faces label.
  pose proof (after_detection_files image_path w) as Hf0.
  pose proof (after_detection_cwd image_path w) as Hc0.
  apply process_photo_raise_inv in Hrun as [-> | (d & Hd & [_ Hnone]%stat_None & ->)];
    (split; [done|]); [by left|right].
  exists d. split_and!; [done..|]. simpl. by rewrite Hf0.
Qed.

End never_claims.

(** ** Detection and filing, case by case *)

Section filing.
Context `{cv : OpenCV}.


Lemma lookup_path_ensure_dir w d s k n :
  lookup_path w s = inr (k, n) →
  lookup_path (set_files (ensure_dir d) w) s = inr (k, n).
Proof.
  intros [Hk Hn]%lookup_path_inv. apply lookup_path_intro.
  - apply (namei_mono w); [done|apply keeps_dirs_ensure|done].
  - simpl. destruct (decide (k = d)) as [->|].
    + unfold ensure_dir. by rewrite Hn.
    + by rewrite ensure_dir_stat_ne.
Qed.

Lemma copy_unreadable src dst w e :
  lookup_path w src = inl e → copy src dst w = (inl e, w).
Proof.
  intros Hs. unfold copy. rewrite bind_eval. unfold gets. rewrite bind_eval.
  rewrite copyfile_eval, Hs. done.
Qed.

(** X5.  A photo that cannot be opened is not filed.  Detection takes the
    unreadable file for a picture without faces, so [process_photo] makes
    sure [categorized/unknown] exists and then raises the error of the
    failed read; the folder stays behind, empty if it was new. *)
Theorem unreadable_photo_is_not_filed w image_path person_name d e :
  namei w (str (data_dir // "categorized" // "unknown")) = inr d →
  absent_or_dir (stat (files w) d) →
  lookup_path (set_files (ensure_dir d) w) image_path = inl e →
  process_photo image_path person_name w = (inl e, set_files (ensure_dir d) w).
Proof.
  intros Hd Hdir He.
  assert (imread image_path w = None) as Him.
  { rewrite imread_eval. unfold content.
    destruct (lookup_path w image_path) as [|[k n]] eqn:E; [done|].
    apply (lookup_path_ensure_dir w d) in E. congruence. }
  unfold process_photo. rewrite bind_eval.
  assert (detect_faces_opencv image_path w = (inr [], w)) as ->.
  { unfold detect_faces_opencv, detect_attempt. by rewrite Him. }
  rewrite decide_False by (simpl; lia).
  rewrite bind_eval, Path_mkdir_exist_ok_eval, Hd.
  assert (match stat (files w) d with
          | Some (File _) => (inl FileExistsError, w)
          | _ => (inr (), set_files (ensure_dir d) w)
          end = (inr (), set_files (ensure_dir d) w)) as ->
    by (destruct Hdir as [-> | ->]; done).
  rewrite bind_eval. by rewrite (copy_unreadable _ _ _ e).
Qed.

(** X6.  A photo that already sits at its destination is refused:
    [shutil.copy] raises [SameFileError], and the file system is left as
    it was. *)
Theorem photo_in_place_is_refused w image_path person_name d b :
  tree (files w) →
  let faces := detected image_path w in
  let label := if decide (0 < length faces) then person_name else "unknown" in
  let folder := data_dir // "categorized" // label in
  namei w (str folder) = inr d →
  lookup_path w image_path = inr (d ++ [name (Path image_path)], File b) →
  process_photo image_path person_name w
  = (inl SameFileError, after_detection image_path w).
Proof.
  intros Ht faces label folder Hd Hs.
  destruct (readable_name w image_path _ b Ht Hs) as (Hnm & _ & _).
  set (nm := name (Path image_path)) in *.
  pose proof (after_detection_files image_path w) as Hf0.
  pose proof (after_detection_cwd image_path w) as Hc0.
  set (w0 := after_detection image_path w) in *.
  pose proof Hs as [Hsn Hsf]%lookup_path_inv.
  assert (stat (files w) d = Some Dir) as Hdir.
  { apply stat_file in Hsf as [Hne Hl].
    pose proof (Ht _ _ Hl) as [_ Hp]. by rewrite removelast_last in Hp. }
  assert (wf_path folder) as Hwf by apply categorized_wf.
  assert (lookup_path w0 image_path = inr (d ++ [nm], File b)) as Hs0
    by by rewrite (lookup_path_same w w0).
  assert (lookup_path w0 (str (folder // nm)) = inr (d ++ [nm], File b)) as Hdst.
  { rewrite (lookup_path_same w w0) by done.
    apply lookup_path_intro; [by apply namei_join_ok|done]. }
  assert ((Path_mkdir_exist_ok folder;; copy image_path (str (folder // nm))) w0
          = (inl SameFileError, w0)) as Hrun.
  { rewrite bind_eval, Path_mkdir_exist_ok_eval, (namei_same w w0), Hd, Hf0, Hdir by done.
    assert (set_files (ensure_dir d) w0 = w0) as ->.
    { unfold set_files. rewrite ensure_dir_id by by rewrite Hf0. by destruct w0. }
    unfold copy. rewrite bind_eval. unfold gets.
    unfold isdir. rewrite Hdst. rewrite bind_eval, copyfile_eval, Hs0, Hdst.
    by rewrite bool_decide_true. }
  unfold process_photo. rewrite bind_eval, detect_faces_opencv_eval.
  fold faces w0. subst folder label.
  destruct (decide (0 < length faces)); rewrite bind_eval in Hrun;
    rewrite bind_eval; revert Hrun;
    destruct (Path_mkdir_exist_ok _ w0) as [[e'|[]] w1];
    try (by intros [= -> ->]);
    rewrite bind_eval; destruct (copy _ _ w1) as [[|] ?]; by intros [= -> ->].
Qed.

End filing.

Section filing_more.
Context `{cv : OpenCV}.

Lemma detect_attempt_raised w image_path s b img gray e :
  lookup_path w image_path = inr (s, File b) →
  imdecode b = Some img →
  cvtColor img COLOR_BGR2GRAY = inr gray →
  detectMultiScale
    (CascadeClassifier (haarcascades +:+ "haarcascade_frontalface_default.xml"))
    gray 1.1%Q 5%Z (30%Z, 30%Z) = inl e →
  detect_attempt image_path w = inl e.
Proof.
  intros Hs Him Hg Hdet. unfold detect_attempt.
  rewrite imread_eval, (content_file _ _ _ _ Hs). simpl. by rewrite Him, Hg.
Qed.

(** X7.  When the cascade raises on a photo that decodes, the photo is
    still filed: the exception is shown on the page, the photo counts as
    one without faces, and it goes to [categorized/unknown] whatever label
    was asked for. *)
Theorem cascade_failure_files_under_unknown w image_path person_name s b img gray e d :
  tree (files w) →
  lookup_path w image_path = inr (s, File b) →
  imdecode b = Some img →
  cvtColor img COLOR_BGR2GRAY = inr gray →
  detectMultiScale
    (CascadeClassifier (haarcascades +:+ "haarcascade_frontalface_default.xml"))
    gray 1.1%Q 5%Z (30%Z, 30%Z) = inl e →
  let folder := data_dir // "categorized" // "unknown" in
  let nm := name (Path image_path) in
  namei w (str folder) = inr d →
  absent_or_dir (stat (files w) d) →
  stat (files w) (d ++ [nm]) ≠ Some Dir →
  s ≠ d ++ [nm] →
  ∃ w',
    process_photo image_path person_name w
    = (inr {[ "status" := VStr "no_faces";
              "destination" := VStr (str (folder // nm)) ]}, w') ∧
    files w' !! (d ++ [nm]) = Some (File b) ∧
    page w' = page w ++ [st_error ("Error detecting faces: " +:+ e)].
Proof.
  intros Ht Hs Him Hg Hdet folder nm Hd Hdir Hfree Hne.
  pose proof (detect_attempt_raised w image_path s b img gray e Hs Him Hg Hdet) as Hatt.
  assert (detected image_path w = []) as Hfaces
    by (unfold detected; by rewrite Hatt).
  assert (after_detection image_path w
          = show (st_error ("Error detecting faces: " +:+ e)) w) as Hw0
    by (unfold after_detection, detect_faces_opencv; by rewrite Hatt).
  assert (∀ x, stat (files w) d ≠ Some (File x)) as Hnf
    by (intros x; destruct Hdir as [E|E]; by rewrite E).
  pose proof (process_photo_ok w image_path person_name s b d Ht Hs) as Hrun.
  cbv zeta in Hrun. rewrite Hfaces, Hw0 in Hrun.
  rewrite !decide_False in Hrun by (simpl; lia).
  specialize (Hrun Hd Hnf Hfree Hne).
  eexists. split; [exact Hrun|]. split; [|done].
  simpl. by rewrite lookup_insert_eq.
Qed.

(** X8.  Filing copies, it does not move: after a call that goes through,
    the path returned as [destination] reads back the bytes of the photo,
    and the photo is still readable where it was. *)
Theorem filed_photo_reads_back w image_path person_name s b d :
  tree (files w) →
  lookup_path w image_path = inr (s, File b) →
  let faces := detected image_path w in
  let label := if decide (0 < length faces) then person_name else "unknown" in
  let folder := data_dir // "categorized" // label in
  let nm := name (Path image_path) in
  namei w (str folder) = inr d →
  absent_or_dir (stat (files w) d) →
  stat (files w) (d ++ [nm]) ≠ Some Dir →
  s ≠ d ++ [nm] →
  ∃ r w' dest,
    process_photo image_path person_name w = (inr r, w') ∧
    r !! "destination" = Some (VStr dest) ∧
    read_bytes dest w' = (inr b, w') ∧
    read_bytes image_path w' = (inr b, w').
Proof.
  intros Ht Hs faces label folder nm Hd Hdir Hfree Hne.
  assert (∀ x, stat (files w) d ≠ Some (File x)) as Hnf
    by (intros x; destruct Hdir as [E|E]; by rewrite E).
  destruct (readable_name w image_path s b Ht Hs) as (Hnm & _ & _). fold nm in Hnm.
  pose proof (process_photo_ok w image_path person_name s b d Ht Hs Hd Hnf Hfree Hne)
    as Hrun.
  cbv zeta in Hrun. fold faces label folder nm in Hrun.
  pose proof (after_detection_files image_path w) as Hf0.
  pose proof (after_detection_cwd image_path w) as Hc0.
  set (w0 := after_detection image_path w) in *.
  set (w' := set_files (λ fs, <[d ++ [nm] := File b]> (ensure_dir d fs)) w0) in *.
  assert (files w' = <[d ++ [nm] := File b]> (ensure_dir d (files w))) as Hf'
    by (simpl; by rewrite Hf0).
  assert (cwd w' = cwd w) as Hc' by done.
  assert (keeps_dirs (files w) (files w')) as Hk.
  { rewrite Hf'. eapply keeps_dirs_trans; [apply keeps_dirs_ensure|].
    apply keeps_dirs_write. by rewrite ensure_dir_stat_ne by apply child_ne. }
  assert (stat (files w') d = Some Dir) as Hd'.
  { rewrite Hf', stat_insert_ne by apply child_ne. by apply ensure_dir_stat. }
  pose proof Hs as [Hsn Hsf]%lookup_path_inv.
  assert (s ≠ d) as Hsd by (intros ->; by destruct (Hnf b)).
  eexists _, w', (str (folder // nm)). split; [exact Hrun|]. split_and!.
  - by destruct (decide (0 < length faces)).
  - rewrite read_bytes_eval.
    rewrite (lookup_path_intro w' _ (d ++ [nm]) (File b)); [done| |].
    + apply namei_join_ok; [apply categorized_wf|done| |done].
      by apply (namei_mono w w').
    + rewrite Hf'. apply stat_insert_eq. by destruct d.
  - rewrite read_bytes_eval.
    rewrite (lookup_path_intro w' _ s (File b)); [done| |].
    + by apply (namei_mono w w').
    + by rewrite Hf', stat_insert_ne, ensure_dir_stat_ne.
Qed.

Lemma joinpath_absolute p s : Str.startswith_slash s = true → p // s = Path s.
Proof.
  intros Hs. unfold joinpath. rewrite decide_False; [done|].
  destruct s as [|a s]; [done|]. simpl in Hs. apply Ascii.eqb_eq in Hs as ->.
  simpl. by destruct s as [|a [|a' s]]; repeat case_match.
Qed.

(** X9.  A label that starts with a slash takes the photo out of the
    storage tree: [data/categorized/<label>] is then the absolute path
    [<label>] itself, and the photo in which a face was found is filed
    there. *)
Theorem absolute_label_leaves_storage w image_path person_name s b d :
  Str.startswith_slash person_name = true →
  tree (files w) →
  lookup_path w image_path = inr (s, File b) →
  0 < length (detected image_path w) →
  let nm := name (Path image_path) in
  namei w (str (Path person_name)) = inr d →
  absent_or_dir (stat (files w) d) →
  stat (files w) (d ++ [nm]) ≠ Some Dir →
  s ≠ d ++ [nm] →
  data_dir // "categorized" // person_name = Path person_name ∧
  ∃ r w',
    process_photo image_path person_name w = (inr r, w') ∧
    r !! "destination" = Some (VStr (str (Path person_name // nm))) ∧
    files w' = <[d ++ [nm] := File b]> (ensure_dir d (files w)).
Proof.
  intros Habs Ht Hs Hfaces nm Hd Hdir Hfree Hne.
  assert (data_dir // "categorized" // person_name = Path person_name) as Hp
    by by apply joinpath_absolute.
  split; [done|].
  assert (∀ x, stat (files w) d ≠ Some (File x)) as Hnf
    by (intros x; destruct Hdir as [E|E]; by rewrite E).
  pose proof (process_photo_ok w image_path person_name s b d Ht Hs) as Hrun.
  cbv zeta in Hrun. rewrite !decide_True in Hrun by done. rewrite Hp in Hrun.
  specialize (Hrun Hd Hnf Hfree Hne).
  eexists _, _. split; [exact Hrun|]. split; [done|].
  simpl. by rewrite after_detection_files.
Qed.

End filing_more.

(** ** Registration that stops half-way *)

Section partial.

Lemma copy_samples_stop person_dir d good missing rest k : ∀ i w contents,
  wf_path person_dir →
  namei w (str person_dir) = inr d →
  stat (files w) d = Some Dir →
  Forall2 (λ p b, ∃ s, lookup_path w p = inr (s, File b) ∧ ¬ d `prefix_of` s)
          good contents →
  (∀ j, i ≤ j < i + length good → stat (files w) (d ++ [sample_file j]) ≠ Some Dir) →
  namei w missing = inr k → stat (files w) k = None → ¬ d `prefix_of` k →
  for_each (enumerate_from i (good ++ missing :: rest)) (λ '(idx, img_path),
    let dest_path := person_dir // sample_file idx in
    copy img_path (str dest_path);; mret tt) w =
  (inl FileNotFoundError, set_files (store_samples d i contents) w).
Proof.
  induction good as [|p good IH];
    intros i w contents Hwf Hd Hdir Hsrc Hfree Hk Hnone Hout.
  { apply Forall2_nil_inv_l in Hsrc as ->. simpl.
    rewrite bind_eval, bind_eval.
    rewrite (copy_unreadable _ _ _ FileNotFoundError).
    - by rewrite set_files_id.
    - unfold lookup_path. by rewrite Hk, Hnone. }
  apply Forall2_cons_inv_l in Hsrc as (b & cs & (s & Hs & Hout') & Hsrc & ->).
  set (t := d ++ [sample_file i]).
  assert (stat (files w) t ≠ Some Dir) as Ht by (apply Hfree; simpl; lia).
  assert (copy p (str (person_dir // sample_file i)) w
          = (inr (str (person_dir // sample_file i)), set_files (insert t (File b)) w))
    as Hcopy.
  { apply (copy_ok _ _ _ s); [done| |done|].
    - apply namei_join_ok; [done|apply sample_file_proper|done..].
    - intros ->. apply Hout', prefix_child. }
  change (enumerate_from i ((p :: good) ++ missing :: rest))
    with ((i, p) :: enumerate_from (S i) (good ++ missing :: rest)).
  rewrite for_each_cons. cbv beta iota zeta. rewrite bind_eval, Hcopy.
  change ((mret () : M ()) (set_files (insert t (File b)) w))
    with (inr () : exn + (), set_files (insert t (File b)) w).
  cbv iota.
  set (w2 := set_files (insert t (File b)) w).
  assert (keeps_dirs (files w) (files w2)) as Hkeep by by apply keeps_dirs_write.
  etrans; [apply (IH (S i) w2 cs)|done]; [done|..].
  - by apply (namei_mono w w2).
  - by apply Hkeep.
  - eapply Forall2_impl; [exact Hsrc|]. intros p' b' (s' & Hs' & Hout'').
    exists s'. split; [|done].
    apply lookup_path_inv in Hs' as [Hs1 Hs2]. apply lookup_path_intro.
    + by apply (namei_mono w w2).
    + simpl. rewrite stat_insert_ne; [done|]. intros <-. apply Hout'', prefix_child.
  - intros j Hj. simpl. rewrite stat_insert_ne.
    + apply Hfree. simpl. lia.
    + intros E%sample_key_inj. lia.
  - by apply (namei_mono w w2).
  - simpl. rewrite stat_insert_ne; [done|]. intros <-. apply Hout, prefix_child.
  - done.
Qed.

(** X10.  [register_person] is not atomic.  When one of the samples is
    missing, the call raises [FileNotFoundError] at that sample; the
    person's folder has been created and the samples before the missing
    one stay stored under their numbers, the ones after it are never
    looked at. *)
Theorem register_person_stops_at_missing_sample w name good missing rest d k :
  namei w (str (data_dir // "registered" // name)) = inr d →
  absent_or_dir (stat (files w) d) →
  Forall (outside w d) good →
  (∀ i, i < length good → stat (files w) (d ++ [sample_file i]) ≠ Some Dir) →
  namei w missing = inr k → stat (files w) k = None → ¬ d `prefix_of` k →
  ∃ contents,
    (∀ i p, good !! i = Some p → content w p = contents !! i) ∧
    length contents = length good ∧
    register_person name (good ++ missing :: rest) w =
    (inl FileNotFoundError,
     set_files (λ fs, store_samples d 0 contents (ensure_dir d fs)) w).
Proof.
  intros Hd Hnf Hsrc Hfree Hk Hnone Hout.
  destruct (outside_contents w d good Hsrc) as (contents & Hc & Hcont).
  exists contents. split; [done|]. split; [symmetry; by eapply Forall2_length|].
  unfold register_person.
  rewrite bind_eval, Path_mkdir_exist_ok_eval, Hd.
  set (w1 := set_files (ensure_dir d) w).
  assert (keeps_dirs (files w) (files w1)) as Hkeep by apply keeps_dirs_ensure.
  replace (match stat (files w) d with
           | Some (File _) => (inl FileExistsError, w)
           | _ => (inr (), w1)
           end) with (inr () : exn + (), w1) by by destruct Hnf as [-> | ->].
  rewrite bind_eval. unfold enumerate.
  rewrite (copy_samples_stop _ d good missing rest k 0 w1 contents); [done|..].
  - apply registered_wf.
  - by apply (namei_mono w w1).
  - apply ensure_dir_stat. intros x. destruct Hnf as [E|E]; by rewrite E.
  - eapply Forall2_impl; [exact Hc|]. intros p b (s & Hs & Hout').
    exists s. split; [|done].
    apply lookup_path_inv in Hs as [Hs1 Hs2]. apply lookup_path_intro.
    + by apply (namei_mono w w1).
    + apply stat_file in Hs2 as [??]. rewrite stat_lookup by done. simpl.
      rewrite ensure_dir_lookup_ne; [done|]. intros ->. by apply Hout'.
  - intros j Hj. simpl.
    rewrite ensure_dir_stat_ne by apply child_ne. apply Hfree. lia.
  - by apply (namei_mono w w1).
  - simpl. rewrite ensure_dir_stat_ne; [done|]. intros ->. by apply Hout.
  - done.
Qed.

End partial.

(** ** The sidebar form *)

Section sidebar.

Lemma prefix_snoc_inv (k d : key) x :
  k `prefix_of` d ++ [x] → k `prefix_of` d ∨ k = d ++ [x].
Proof.
  intros [l E]. destruct (decide (l = [])) as [->|Hl].
  - right. by rewrite app_nil_r in E.
  - left. destruct (exists_last Hl) as (l' & y & ->).
    rewrite app_assoc in E. apply app_inj_tail in E as [-> _]. by exists l'.
Qed.

Lemma tree_absent_below fs q k :
  tree fs → stat fs q = None → q `prefix_of` k → fs !! k = None.
Proof.
  intros Ht [Hq Hnone]%stat_None [l ->].
  induction l as [|x l IH] using rev_ind; [by rewrite app_nil_r|].
  destruct (fs !! (q ++ l ++ [x])) as [n|] eqn:E; [|done].
  pose proof (Ht _ _ E) as [_ Hp].
  rewrite app_assoc, removelast_last in Hp.
  rewrite stat_lookup, IH in Hp by by destruct q. done.
Qed.

Lemma mkdir_eval s w :
  mkdir s w =
  match namei w s with
  | inl e => (inl e, w)
  | inr k =>
      match stat (files w) k with
      | Some _ => (inl FileExistsError, w)
      | None => (inr tt, set_files (insert k Dir) w)
      end
  end.
Proof.
  unfold mkdir, mbind, M_bind, lift, gets, modify, raise.
  destruct (namei w s); [done|]. by destruct (stat _ _).
Qed.

Lemma rmtree_lookup s w q k :
  namei w s = inr q →
  files (rmtree s w) !! k = if decide (q `prefix_of` k) then None else files w !! k.
Proof.
  intros Hq. unfold rmtree. rewrite Hq. simpl.
  destruct (decide (q `prefix_of` k)) as [Hp|Hp].
  - apply map_lookup_filter_None. right. intros n _. simpl. by intros ?.
  - destruct (files w !! k) as [n|] eqn:E.
    + by apply map_lookup_filter_Some.
    + apply map_lookup_filter_None. by left.
Qed.

Lemma rmtree_cwd s w : cwd (rmtree s w) = cwd w.
Proof. unfold rmtree. by destruct (namei w s). Qed.

Lemma rmtree_page s w : page (rmtree s w) = page w.
Proof. unfold rmtree. by destruct (namei w s). Qed.

Lemma path_join_child p n :
  wf_path p → parts p ≠ [] → proper n → path_join (str p) n = str (p // n).
Proof.
  intros Hp Hparts Hn. pose proof Hn as (_ & _ & _ & Hs & _).
  rewrite path_join_str by done.
  rewrite joinpath_component by by apply proper_component.
  unfold str. simpl. by destruct (parts p).
Qed.

Lemma save_all_other q ups fs k :
  (∀ u, u ∈ ups → k ≠ q ++ [upload_name u]) → save_all q ups fs !! k = fs !! k.
Proof.
  revert fs. induction ups as [|u ups IH]; intros fs Hk; simpl; [done|].
  rewrite IH by (intros u' ?; apply Hk; by right).
  rewrite lookup_insert_ne; [done|]. intros E. by apply (Hk u); [left|].
Qed.

Lemma save_all_lookup q ups fs n :
  save_all q ups fs !! (q ++ [n]) =
  match uploaded ups n with
  | Some b => Some (File b)
  | None => fs !! (q ++ [n])
  end.
Proof.
  revert fs. induction ups as [|u ups IH]; intros fs; [done|].
  simpl. rewrite IH. unfold uploaded.
  destruct (decide (upload_name u = n)) as [<-|Hn].
  - rewrite filter_cons_True, last_cons by done.
    destruct (last (filter _ ups)); simpl; [done|]. by rewrite lookup_insert_eq.
  - rewrite filter_cons_False by done.
    destruct (last (filter _ ups)); simpl; [done|].
    rewrite lookup_insert_ne; [done|]. intros E%app_inv_head. congruence.
Qed.

Lemma uploaded_is_Some ups u : u ∈ ups → is_Some (uploaded ups (upload_name u)).
Proof.
  intros Hu. unfold uploaded. apply fmap_is_Some.
  destruct (last (filter _ ups)) eqn:E; [done|].
  apply last_None in E.
  assert (u ∈ filter (λ u0, upload_name u0 = upload_name u) ups) as Hin
    by by apply list_elem_of_filter.
  rewrite E in Hin. by apply elem_of_nil in Hin.
Qed.

Lemma uploaded_NoDup ups i u :
  NoDup (upload_name <$> ups) → ups !! i = Some u →
  uploaded ups (upload_name u) = Some (getbuffer u).
Proof.
  revert i. induction ups as [|v ups IH]; intros i Hnd Hi; [done|].
  apply NoDup_cons in Hnd as [Hv Hnd]. unfold uploaded.
  destruct i as [|i]; simpl in Hi.
  - simplify_eq. rewrite filter_cons_True, last_cons by done.
    destruct (last (filter _ ups)) as [x|] eqn:E; [|done].
    apply last_Some in E as [l E].
    assert (x ∈ filter (λ u0, upload_name u0 = upload_name u) ups) as Hin
      by (rewrite E; apply elem_of_app; right; by left).
    apply list_elem_of_filter in Hin as [Hx Hin].
    destruct Hv. rewrite <-Hx. by apply list_elem_of_fmap_2.
  - rewrite filter_cons_False.
    + by apply (IH i).
    + intros E. apply Hv. rewrite E. apply list_elem_of_fmap_2.
      by eapply list_elem_of_lookup_2.
Qed.

Lemma save_all_keeps_dirs q ups fs :
  (∀ u, u ∈ ups → stat fs (q ++ [upload_name u]) ≠ Some Dir) →
  keeps_dirs fs (save_all q ups fs).
Proof.
  revert fs. induction ups as [|u ups IH]; intros fs Hfree; simpl; [by intros ?|].
  eapply keeps_dirs_trans; [apply keeps_dirs_write, Hfree; by left|].
  apply IH. intros u' Hu'.
  destruct (decide (q ++ [upload_name u] = q ++ [upload_name u'])) as [<-|Hne].
  - rewrite stat_insert_eq; [done|by destruct q].
  - rewrite stat_insert_ne by done. apply Hfree. by right.
Qed.

Lemma save_samples_ok p q ups : ∀ w,
  wf_path p → parts p ≠ [] →
  namei w (str p) = inr q → stat (files w) q = Some Dir →
  Forall (λ u, proper (upload_name u)) ups →
  (∀ u, u ∈ ups → stat (files w) (q ++ [upload_name u]) ≠ Some Dir) →
  save_samples (str p) ups w =
  (inr ((λ u, str (p // upload_name u)) <$> ups), set_files (save_all q ups) w).
Proof.
  induction ups as [|u ups IH]; intros w Hp Hparts Hq Hdir Hnames Hfree.
  { simpl. by rewrite set_files_id. }
  apply Forall_cons in Hnames as [Hn Hnames].
  simpl. rewrite path_join_child by done.
  rewrite bind_eval, write_bytes_eval.
  rewrite (namei_join_ok w p _ q) by done.
  set (t := q ++ [upload_name u]).
  assert (stat (files w) t ≠ Some Dir) as Ht by (apply Hfree; by left).
  set (w2 := set_files (insert t (File (getbuffer u))) w).
  assert (match stat (files w) t with
          | Some Dir => (inl IsADirectoryError, w)
          | _ => (inr (), w2)
          end = (inr (), w2)) as ->
    by by destruct (stat (files w) t) as [[]|].
  assert (keeps_dirs (files w) (files w2)) as Hkeep by by apply keeps_dirs_write.
  rewrite bind_eval, (IH w2); [done..| | | |].
  - by apply (namei_mono w w2).
  - by apply Hkeep.
  - done.
  - intros u' Hu'. simpl.
    destruct (decide (t = q ++ [upload_name u'])) as [<-|Hne].
    + rewrite stat_insert_eq; [done|by destruct q].
    + rewrite stat_insert_ne by done. apply Hfree. by right.
Qed.

End sidebar.

Section sidebar_form.
Context `{cv : OpenCV}.

(** X11.  The sidebar form, when it goes through.  The uploads are
    saved in the temporary directory under the names the browser sent and
    registered from there: sample [k] holds the bytes of the last upload
    that has the file name of the [k]-th one, which is the [k]-th upload
    itself when the names differ.  The page then says [<name>
    registered!], nothing is left of the temporary directory, and nothing
    else has changed. *)
Theorem register_form_registers w person_name ups p q d :
  tree (files w) →
  person_name ≠ "" → ups ≠ [] →
  wf_path p → parts p ≠ [] →
  namei w (str p) = inr q → stat (files w) q = None →
  Forall (λ u, proper (upload_name u)) ups →
  namei w (str (data_dir // "registered" // person_name)) = inr d →
  absent_or_dir (stat (files w) d) →
  ¬ q `prefix_of` d → ¬ d `prefix_of` q →
  (∀ i, i < length ups → stat (files w) (d ++ [sample_file i]) ≠ Some Dir) →
  ∃ w',
    register_form true person_name ups (str p) w = (inr tt, w') ∧
    page w' = page w ++ [st_success (person_name +:+ " registered!")] ∧
    stat (files w') d = Some Dir ∧
    (∀ i u, ups !! i = Some u →
       files w' !! (d ++ [sample_file i]) = File <$> uploaded ups (upload_name u)) ∧
    (NoDup (upload_name <$> ups) →
     ∀ i u, ups !! i = Some u →
       files w' !! (d ++ [sample_file i]) = Some (File (getbuffer u))) ∧
    (∀ k, q `prefix_of` k → files w' !! k = None) ∧
    (∀ k, ¬ q `prefix_of` k → k ≠ d →
          (∀ i, i < length ups → k ≠ d ++ [sample_file i]) →
          files w' !! k = files w !! k).
Proof.
  intros Ht Hname Hups Hp Hparts Hq Hfresh Hnames Hd Hdir Hqd Hdq Hfree.
  pose proof Hfresh as [Hq0 Hqnone]%stat_None.
  set (w1 := set_files (insert q Dir) w).
  set (w2 := set_files (save_all q ups) w1).
  set (paths := (λ u, str (p // upload_name u)) <$> ups).
  assert (keeps_dirs (files w) (files w1)) as Hk1.
  { intros k Hk. simpl. rewrite stat_insert_ne; [done|]. intros <-. congruence. }
  assert (∀ n, stat (files w1) (q ++ [n]) = None) as Hbelow.
  { intros n. simpl. rewrite stat_insert_ne by (apply not_eq_sym, child_ne).
    rewrite stat_lookup by by destruct q.
    apply (tree_absent_below _ q); [done..|apply prefix_child]. }
  assert (stat (files w1) q = Some Dir) as Hq1 by by apply stat_insert_eq.
  assert (namei w1 (str p) = inr q) as Hqn1 by by apply (namei_mono w w1).
  assert (save_samples (str p) ups w1 = (inr paths, w2)) as Hsave.
  { apply save_samples_ok; try done. intros u _. by rewrite Hbelow. }
  assert (keeps_dirs (files w1) (files w2)) as Hk2.
  { apply save_all_keeps_dirs. intros u _. by rewrite Hbelow. }
  assert (keeps_dirs (files w) (files w2)) as Hk by by eapply keeps_dirs_trans.
  assert (∀ k, ¬ q `prefix_of` k → files w2 !! k = files w !! k) as Hframe2.
  { intros k Hk'. simpl. rewrite save_all_other.
    - rewrite lookup_insert_ne; [done|]. by intros <-.
    - intros u _ ->. apply Hk', prefix_child. }
  assert (∀ k, ¬ q `prefix_of` k → stat (files w2) k = stat (files w) k) as Hstat2.
  { intros k Hk'. unfold stat. case_decide; [done|]. by apply Hframe2. }
  assert (∀ x, ¬ q `prefix_of` d ++ [x]) as Hqdx.
  { intros x [?| ->]%prefix_snoc_inv; [done|]. apply Hdq, prefix_child. }
  assert (∀ u, u ∈ ups →
            lookup_path w2 (str (p // upload_name u))
            = inr (q ++ [upload_name u],
                   File (default [] (uploaded ups (upload_name u))))) as Hlook.
  { intros u Hu. apply lookup_path_intro.
    - apply namei_join_ok; [done| |by apply (namei_mono w1 w2)|by apply Hk2].
      by eapply (proj1 (Forall_forall _ _) Hnames).
    - rewrite stat_lookup by by destruct q. simpl. rewrite save_all_lookup.
      by destruct (uploaded_is_Some ups u Hu) as [b ->]. }
  destruct (register_person_ok w2 person_name paths d) as (contents & Hcont & Hlen & Hrun).
  { by apply (namei_mono w w2). }
  { rewrite Hstat2 by done. exact Hdir. }
  { apply Forall_fmap, Forall_forall. intros u Hu. unfold outside. simpl.
    rewrite (Hlook u Hu).
    intros [?| ->]%prefix_snoc_inv; [done|]. apply Hqd, prefix_child. }
  { intros i Hi. rewrite Hstat2 by done. apply Hfree.
    unfold paths in Hi. by rewrite length_fmap in Hi. }
  set (w3 := set_files (λ fs, store_samples d 0 contents (ensure_dir d fs)) w2) in Hrun.
  set (w4 := show (st_success (person_name +:+ " registered!")) w3).
  assert (keeps_dirs (files w2) (files w3)) as Hk3.
  { simpl. eapply keeps_dirs_trans; [apply keeps_dirs_ensure|].
    apply store_samples_keeps_dirs. intros j Hj.
    rewrite ensure_dir_stat_ne by apply child_ne.
    rewrite Hstat2 by done. apply Hfree.
    unfold paths in Hlen. rewrite length_fmap in Hlen. lia. }
  assert (namei w4 (str p) = inr q) as Hq4.
  { apply (namei_mono w w4); [done| |done].
    by eapply keeps_dirs_trans. }
  exists (rmtree (str p) w4). split_and!.
  - unfold register_form.
    rewrite !bool_decide_true by done. simpl.
    rewrite bind_eval, mkdir_eval, Hq, Hfresh. fold w1.
    unfold try_finally. rewrite bind_eval, Hsave, bind_eval, Hrun. done.
  - by rewrite rmtree_page.
  - unfold stat. case_decide; [done|].
    rewrite (rmtree_lookup _ _ q) by done. rewrite decide_False by done.
    simpl. rewrite store_samples_other by (intros j _; apply not_eq_sym, child_ne).
    rewrite <-stat_lookup by done. apply ensure_dir_stat.
    intros x. rewrite Hstat2 by done. destruct Hdir as [E|E]; by rewrite E.
  - intros i u Hi. rewrite (rmtree_lookup _ _ q) by done.
    rewrite decide_False by apply Hqdx. simpl.
    assert (contents !! i = uploaded ups (upload_name u)) as Hci.
    { rewrite <-(Hcont i (str (p // upload_name u))).
      - unfold content. rewrite Hlook by by eapply list_elem_of_lookup_2.
        simpl. by destruct (uploaded_is_Some ups u) as [b ->];
          [eapply list_elem_of_lookup_2|].
      - unfold paths. by rewrite list_lookup_fmap, Hi. }
    destruct (uploaded_is_Some ups u) as [b Hb]; [by eapply list_elem_of_lookup_2|].
    rewrite Hb in Hci |- *. simpl.
    by apply (store_samples_sample d 0 contents _ i b).
  - intros Hnd i u Hi. rewrite (rmtree_lookup _ _ q) by done.
    rewrite decide_False by apply Hqdx. simpl.
    assert (contents !! i = Some (getbuffer u)) as Hci.
    { rewrite <-(Hcont i (str (p // upload_name u))).
      - unfold content. rewrite Hlook by by eapply list_elem_of_lookup_2.
        simpl. by rewrite (uploaded_NoDup ups i u).
      - unfold paths. by rewrite list_lookup_fmap, Hi. }
    by apply (store_samples_sample d 0 contents _ i (getbuffer u)).
  - intros k Hk'. rewrite (rmtree_lookup _ _ q) by done. by rewrite decide_True.
  - intros k Hk' Hkd Hks. rewrite (rmtree_lookup _ _ q) by done.
    rewrite decide_False by done. simpl.
    rewrite store_samples_other.
    + rewrite ensure_dir_lookup_ne by done. by apply Hframe2.
    + intros j Hj. apply Hks. unfold paths in Hlen. rewrite length_fmap in Hlen. lia.
Qed.

End sidebar_form.

(** ** What a run of the script leaves behind *)

Section effects.
Context `{cv : OpenCV}.

Lemma save_samples_adds tmp_dir ups : ∀ w out w',
  save_samples tmp_dir ups w = (out, w') → only_adds w w'.
Proof.
  induction ups as [|u ups IH]; intros w out w'; simpl.
  { intros [= <- <-]. apply only_adds_refl. }
  rewrite bind_eval.
  destruct (write_bytes _ _ w) as [[e|[]] w1] eqn:Hw;
    apply write_bytes_only_adds in Hw; [by intros [= <- <-]|].
  rewrite bind_eval.
  destruct (save_samples tmp_dir ups w1) as [[e|paths] w2] eqn:Hs;
    apply IH in Hs; intros [= <- <-]; by eapply only_adds_trans.
Qed.

(** The sidebar form either does nothing or works inside a directory it
    has made itself and removes at the end. *)
Lemma register_form_inv clicked person_name ups tmp_dir w out w' :
  register_form clicked person_name ups tmp_dir w = (out, w') →
  w' = w ∨
  ∃ q w2, namei w tmp_dir = inr q ∧ stat (files w) q = None ∧
          only_adds (set_files (insert q Dir) w) w2 ∧
          w' = rmtree tmp_dir w2.
Proof.
  unfold register_form.
  destruct (_ && _); [|intros [= <- <-]; by left].
  rewrite bind_eval, mkdir_eval.
  destruct (namei w tmp_dir) as [e|q] eqn:Hq; [intros [= <- <-]; by left|].
  destruct (stat (files w) q) as [n|] eqn:Hfresh; [intros [= <- <-]; by left|].
  set (w1 := set_files (insert q Dir) w).
  unfold try_finally. rewrite bind_eval.
  destruct (save_samples tmp_dir ups w1) as [[e|paths] w2] eqn:Hs;
    apply save_samples_adds in Hs.
  { intros [= <- <-]. right. by exists q, w2. }
  rewrite bind_eval.
  destruct (register_person person_name paths w2) as [[e|ok] w3] eqn:Hr;
    apply register_person_adds in Hr.
  { intros [= <- <-]. right. exists q, w3. split_and!; [done..| |done].
    by eapply only_adds_trans. }
  destruct ok; intros [= <- <-]; right; eexists q, _;
    (split_and!; [done..| |reflexivity]).
  - eapply only_adds_trans; [|by apply only_adds_same].
    by eapply only_adds_trans.
  - by eapply only_adds_trans.
Qed.

Lemma prefix_nonempty (q k : key) : q ≠ [] → q `prefix_of` k → k ≠ [].
Proof. intros Hq [l ->]. by destruct q. Qed.

Lemma register_form_adds clicked person_name ups tmp_dir w out w' :
  tree (files w) →
  register_form clicked person_name ups tmp_dir w = (out, w') → only_adds w w'.
Proof.
  intros Ht [-> | (q & w2 & Hq & Hfresh & Hadds & ->)]%register_form_inv;
    [apply only_adds_refl|].
  pose proof Hfresh as [Hq0 Hqnone]%stat_None.
  assert (only_adds w w2) as (Hc & Hk & Hn).
  { eapply only_adds_trans; [|exact Hadds].
    apply only_adds_insert; [|done]. intros n0. by rewrite Hqnone. }
  assert (namei w2 tmp_dir = inr q) as Hq2 by by apply (namei_mono w w2).
  assert (∀ k, is_Some (files w !! k) → ¬ q `prefix_of` k) as Hout.
  { intros k [n Hl] Hp. by rewrite (tree_absent_below _ q k) in Hl. }
  split_and!.
  - by rewrite rmtree_cwd.
  - intros k Hd. apply Hk in Hd as Hd'. unfold stat in *. case_decide; [done|].
    rewrite (rmtree_lookup _ _ q) by done.
    by rewrite decide_False by (apply Hout; by rewrite Hd).
  - intros k n Hl. rewrite (rmtree_lookup _ _ q) by done.
    rewrite decide_False by (apply Hout; by rewrite Hl). by apply Hn.
Qed.

(** X12.  The temporary directory of the sidebar form never outlives
    the form: whether registration goes through or raises half-way,
    nothing remains at or below the place where the directory was made. *)
Theorem temporary_directory_is_removed clicked person_name ups tmp_dir w q out w' :
  tree (files w) →
  namei w tmp_dir = inr q → stat (files w) q = None →
  register_form clicked person_name ups tmp_dir w = (out, w') →
  ∀ k, q `prefix_of` k → files w' !! k = None.
Proof.
  intros Ht Hq Hfresh [-> | (q' & w2 & Hq' & _ & Hadds & ->)]%register_form_inv k Hk.
  { by apply (tree_absent_below _ q). }
  assert (q' = q) as -> by congruence.
  pose proof Hfresh as [Hq0 Hqnone]%stat_None.
  rewrite (rmtree_lookup _ _ q); [by rewrite decide_True|].
  set (w1 := set_files (insert q Dir) w) in *.
  apply (namei_mono w1 w2); [apply Hadds..|].
  apply (namei_mono w w1); [done| |done].
  intros k' Hk'. simpl. rewrite stat_insert_ne; [done|]. intros <-. congruence.
Qed.

Lemma only_adds_delete w w3 k :
  only_adds w w3 → stat (files w) k = None → only_adds w (set_files (delete k) w3).
Proof.
  intros (Hc & Hk & Hn) [Hk0 Hnone]%stat_None. split_and!; [done|..].
  - intros k' Hk'. simpl. apply Hk in Hk' as Hk3. unfold stat in *.
    case_decide; [done|]. rewrite lookup_delete_ne; [done|]. intros <-. congruence.
  - intros k' n Hk'. simpl. rewrite lookup_delete_ne by (intros <-; congruence).
    by apply Hn.
Qed.

Lemma categorize_upload_adds selected_person uploaded_file tmp_path w out w' :
  categorize_upload selected_person uploaded_file tmp_path w = (out, w') →
  only_adds w w'.
Proof.
  unfold categorize_upload. rewrite bind_eval, mkstemp_eval.
  destruct (namei w tmp_path) as [e|k] eqn:Hk;
    [intros [= <- <-]; apply only_adds_refl|].
  destruct (stat (files w) k) as [n|] eqn:Hfresh;
    [intros [= <- <-]; apply only_adds_refl|].
  set (w1 := set_files (insert k (File [])) w).
  assert (only_adds w w1) as H1 by (apply only_adds_write; congruence).
  rewrite bind_eval.
  destruct (write_bytes tmp_path _ w1) as [[e|[]] w2] eqn:Hw;
    apply write_bytes_only_adds in Hw;
    [intros [= <- <-]; by eapply only_adds_trans|].
  assert (only_adds w w2) as H2 by by eapply only_adds_trans.
  rewrite bind_eval.
  assert (∃ label, (if decide (selected_person = "Unknown")
                    then process_photo tmp_path "unknown"
                    else process_photo tmp_path selected_person)
                   = process_photo tmp_path label) as [label ->]
    by (destruct (decide _); eauto).
  destruct (process_photo tmp_path label w2) as [[e|r] w3] eqn:Hp;
    apply process_photo_adds in Hp;
    [intros [= <- <-]; by eapply only_adds_trans|].
  assert (only_adds w w3) as H3 by by eapply only_adds_trans.
  rewrite bind_eval, unlink_eval.
  destruct (lookup_path w3 tmp_path) as [e|[k' [|b]]] eqn:Hl;
    intros [= <- <-]; [done..|].
  apply lookup_path_inv in Hl as [Hk' _].
  rewrite (namei_mono w w3 tmp_path k) in Hk'; [|apply H3..|done].
  simplify_eq. by apply only_adds_delete.
Qed.

Lemma categorize_batch_adds selected_person ups tmp_paths : ∀ i w out w',
  categorize_batch selected_person ups tmp_paths i w = (out, w') → only_adds w w'.
Proof.
  induction ups as [|u ups IH]; intros i w out w'; simpl.
  { intros [= <- <-]. apply only_adds_refl. }
  rewrite bind_eval.
  destruct (categorize_upload _ _ _ w) as [[e|r] w1] eqn:Hu;
    apply categorize_upload_adds in Hu; [by intros [= <- <-]|].
  rewrite bind_eval.
  destruct (categorize_batch _ ups _ _ w1) as [[e|rs] w2] eqn:Hb;
    apply IH in Hb; intros [= <- <-]; by eapply only_adds_trans.
Qed.

Lemma persons_reads w out w' : persons w = (out, w') → w' = w.
Proof.
  unfold persons. rewrite bind_eval. unfold gets.
  destruct (lookup_path w _) as [e|[d [|b]]]; by intros [= <- <-].
Qed.

Lemma categorize_form_adds ups choice clicked tmp_paths w out w' :
  categorize_form ups choice clicked tmp_paths w = (out, w') → only_adds w w'.
Proof.
  unfold categorize_form.
  destruct (bool_decide (ups ≠ [])); [|intros [= <- <-]; apply only_adds_refl].
  rewrite bind_eval.
  destruct (persons w) as [[e|names] w0] eqn:Hp; apply persons_reads in Hp as ->;
    [intros [= <- <-]; apply only_adds_refl|].
  destruct (bool_decide (names ≠ []));
    [|intros [= <- <-]; by apply only_adds_same].
  destruct clicked; [|intros [= <- <-]; apply only_adds_refl].
  rewrite bind_eval.
  destruct (categorize_batch _ ups _ _ w) as [[e|rs] w1] eqn:Hb;
    apply categorize_batch_adds in Hb; intros [= <- <-]; [done|].
  eapply only_adds_trans; [exact Hb|]. by apply only_adds_same.
Qed.

Lemma __init___adds w out w' : __init__ w = (out, w') → only_adds w w'.
Proof.
  unfold __init__. rewrite bind_eval.
  destruct (Path_mkdir_exist_ok _ w) as [[e|[]] w1] eqn:H1;
    apply Path_mkdir_exist_ok_only_adds in H1; [by intros [= <- <-]|].
  rewrite bind_eval.
  destruct (Path_mkdir_exist_ok _ w1) as [[e|[]] w2] eqn:H2;
    apply Path_mkdir_exist_ok_only_adds in H2;
    [intros [= <- <-]; by eapply only_adds_trans|].
  intros H3%Path_mkdir_exist_ok_only_adds.
  eapply only_adds_trans; [|exact H3]. by eapply only_adds_trans.
Qed.

(** X13.  A run of the script, whatever the inputs and however it
    ends, deletes nothing that was there when it started and turns no
    directory into a file or a file into a directory: the temporary
    files and the temporary directory it removes are its own. *)
Theorem script_only_adds (i : Inputs) w :
  tree (files w) → only_adds w (script i w).2.
Proof.
  intros Ht. unfold script. rewrite bind_eval.
  destruct (__init__ w) as [[e|[]] w1] eqn:H1.
  { by apply __init___adds in H1. }
  pose proof (__init___tree _ _ _ Ht H1) as Ht1. apply __init___adds in H1.
  rewrite bind_eval.
  destruct (register_form _ _ _ _ w1) as [[e|[]] w2] eqn:H2;
    apply register_form_adds in H2; try done.
  { by eapply only_adds_trans. }
  destruct (categorize_form _ _ _ _ w2) as [out w3] eqn:H3.
  apply categorize_form_adds in H3. simpl.
  eapply only_adds_trans; [|exact H3]. by eapply only_adds_trans.
Qed.

End effects.

(** ** The batch loop *)

Section batch_loop.
Context `{cv : OpenCV}.

Lemma label_cases selected_person tmp_path :
  (if decide (selected_person = "Unknown")
   then process_photo tmp_path "unknown"
   else process_photo tmp_path selected_person)
  = process_photo tmp_path
      (if decide (selected_person = "Unknown") then "unknown" else selected_person).
Proof. by destruct (decide _). Qed.

(** The first two steps of a turn: the temporary file is made and
    filled. *)
Lemma categorize_upload_start selected_person uploaded_file tmp_path w k :
  namei w tmp_path = inr k → stat (files w) k = None →
  let label := if decide (selected_person = "Unknown") then "unknown"
               else selected_person in
  let w0 := set_files (insert k (File (getbuffer uploaded_file))) w in
  categorize_upload selected_person uploaded_file tmp_path w =
  match process_photo tmp_path label w0 with
  | (inr r, w3) => (unlink tmp_path;; mret r) w3
  | (inl e, w3) => (inl e, w3)
  end.
Proof.
  intros Hk Hfresh label w0.
  apply stat_None in Hfresh as Hfresh'. destruct Hfresh' as [Hkn Hknone].
  unfold categorize_upload. rewrite bind_eval, mkstemp_eval, Hk, Hfresh.
  rewrite bind_eval, write_bytes_eval.
  rewrite (namei_mono w (set_files (insert k (File [])) w) tmp_path k);
    [|done|apply keeps_dirs_write; congruence|done].
  simpl. rewrite stat_insert_eq by done.
  assert (set_files (insert k (File (getbuffer uploaded_file)))
                    (set_files (insert k (File [])) w) = w0) as ->.
  { unfold set_files, w0. simpl. by rewrite insert_insert_eq. }
  by rewrite bind_eval, label_cases.
Qed.

(** X14.  One turn of the batch loop, seen from outside.  The upload is
    categorized under the name [tempfile] drew, not the name the browser
    sent; when the turn is over the temporary file is gone, and the file
    system is what it would be had the upload's bytes been written
    straight to the destination. *)
Theorem batch_turn_net_effect w selected_person uploaded_file tmp_path k d :
  tree (files w) →
  namei w tmp_path = inr k → stat (files w) k = None →
  let label := if decide (selected_person = "Unknown") then "unknown"
               else selected_person in
  let w0 := set_files (insert k (File (getbuffer uploaded_file))) w in
  let faces := detected tmp_path w0 in
  let folder :=
    data_dir // "categorized" // (if decide (0 < length faces) then label else "unknown") in
  let nm := name (Path tmp_path) in
  namei w (str folder) = inr d →
  absent_or_dir (stat (files w) d) →
  stat (files w) (d ++ [nm]) ≠ Some Dir →
  k ≠ d → k ≠ d ++ [nm] →
  ∃ r w',
    categorize_upload selected_person uploaded_file tmp_path w = (inr r, w') ∧
    r !! "destination" = Some (VStr (str (folder // nm))) ∧
    r !! "status" = Some (VStr (if decide (0 < length faces) then "success"
                                else "no_faces")) ∧
    files w' = <[d ++ [nm] := File (getbuffer uploaded_file)]> (ensure_dir d (files w)).
Proof.
  intros Ht Hk Hfresh label w0 faces folder nm Hd Hdir Hfree Hkd Hkt.
  apply stat_None in Hfresh as Hfresh'. destruct Hfresh' as [Hkn Hknone].
  set (data := getbuffer uploaded_file) in *.
  assert (stat (files w) k ≠ Some Dir) as Hnd by congruence.
  assert (keeps_dirs (files w) (files w0)) as Hkeep by by apply keeps_dirs_write.
  assert (tree (files w0)) as Ht0 by by eapply tree_write.
  assert (lookup_path w0 tmp_path = inr (k, File data)) as Hs0.
  { apply lookup_path_intro; [by apply (namei_mono w w0)|].
    by apply stat_insert_eq. }
  assert (namei w0 (str folder) = inr d) as Hd0 by by apply (namei_mono w w0).
  assert (stat (files w0) d = stat (files w) d) as Ed
    by by apply stat_insert_ne.
  assert (stat (files w0) (d ++ [nm]) = stat (files w) (d ++ [nm])) as Et
    by by apply stat_insert_ne.
  assert (∀ x, stat (files w0) d ≠ Some (File x)) as Hnf
    by (intros x; rewrite Ed; destruct Hdir as [E|E]; by rewrite E).
  pose proof (process_photo_ok w0 tmp_path label k data d Ht0 Hs0) as Hrun.
  cbv zeta in Hrun. fold faces nm in Hrun.
  assert (data_dir // "categorized" //
            (if decide (0 < length faces) then label else "unknown") = folder) as Ef.
  { subst folder. by destruct (decide (0 < length faces)). }
  rewrite Ef in Hrun.
  specialize (Hrun Hd0 Hnf ltac:(by rewrite Et) Hkt).
  set (w3 := set_files _ (after_detection tmp_path w0)) in Hrun.
  assert (files w3 = <[d ++ [nm] := File data]> (ensure_dir d (files w0))) as Hf3
    by (simpl; by rewrite after_detection_files).
  assert (lookup_path w3 tmp_path = inr (k, File data)) as Hs3.
  { apply lookup_path_intro.
    - apply (namei_mono w0 w3);
        [apply after_detection_cwd| |by apply (namei_mono w w0)].
      rewrite Hf3.
      eapply keeps_dirs_trans; [apply keeps_dirs_ensure|]. apply keeps_dirs_write.
      rewrite ensure_dir_stat_ne by apply child_ne. by rewrite Et.
    - rewrite Hf3, stat_insert_ne, ensure_dir_stat_ne by done.
      by apply stat_insert_eq. }
  eexists _, (set_files (delete k) w3). split_and!.
  - rewrite (categorize_upload_start _ _ _ _ k) by done. fold data w0 label.
    rewrite Hrun, bind_eval, unlink_eval, Hs3. reflexivity.
  - by destruct (decide (0 < length faces)).
  - by destruct (decide (0 < length faces)).
  - simpl. rewrite after_detection_files. apply map_eq. intros x.
    destruct (decide (x = k)) as [->|Hxk].
    + rewrite lookup_delete_eq, lookup_insert_ne, ensure_dir_lookup_ne by done.
      done.
    + rewrite lookup_delete_ne by done.
      destruct (decide (x = d ++ [nm])) as [->|Hxt].
      * by rewrite !lookup_insert_eq.
      * rewrite !lookup_insert_ne by done.
        unfold ensure_dir. rewrite Ed.
        destruct (stat (files w) d); simpl.
        -- by rewrite lookup_insert_ne.
        -- destruct (decide (x = d)) as [->|Hxd].
           ++ by rewrite !lookup_insert_eq.
           ++ by rewrite !lookup_insert_ne.
Qed.

(** X15.  A turn that raises leaves its temporary file behind:
    [os.unlink] is only reached when [process_photo] returns, so after an
    exception the file [tempfile] made is still there, holding the
    upload's bytes. *)
Theorem failed_turn_leaves_temporary_file w selected_person uploaded_file tmp_path k e w' :
  namei w tmp_path = inr k → stat (files w) k = None →
  categorize_upload selected_person uploaded_file tmp_path w = (inl e, w') →
  files w' !! k = Some (File (getbuffer uploaded_file)).
Proof.
  intros Hk Hfresh. rewrite (categorize_upload_start _ _ _ _ k) by done.
  apply stat_None in Hfresh as Hfresh'. destruct Hfresh' as [Hkn Hknone].
  set (label := if decide (selected_person = "Unknown") then "unknown"
                else selected_person).
  set (data := getbuffer uploaded_file).
  set (w0 := set_files (insert k (File data)) w).
  assert (keeps_dirs (files w) (files w0)) as Hkeep
    by (apply keeps_dirs_write; congruence).
  assert (files w0 !! k = Some (File data)) as Hk0 by (simpl; by rewrite lookup_insert_eq).
  destruct (process_photo tmp_path label w0) as [[e'|r] w3] eqn:Hp.
  - intros [= <- <-].
    apply process_photo_raise_inv in Hp as [-> | (d & _ & Hd & ->)].
    + by rewrite after_detection_files.
    + simpl. rewrite after_detection_files.
      rewrite lookup_insert_ne; [done|]. intros ->.
      apply stat_None in Hd as [_ Hd]. congruence.
  - apply process_photo_adds in Hp as (Hc & Hkd & Hn).
    destruct (Hn k _ Hk0) as (n' & Hn' & Hkind).
    rewrite bind_eval, unlink_eval.
    rewrite (lookup_path_intro w3 tmp_path k n'); [by destruct n'| |].
    + apply (namei_mono w0 w3); [done..|]. by apply (namei_mono w w0).
    + by rewrite stat_lookup.
Qed.

Lemma process_photo_status image_path person_name w r w' :
  process_photo image_path person_name w = (inr r, w') →
  r !! "status" = Some (VStr "success") ∧ r !! "status" ≠ Some (VStr "no_faces") ∨
  r !! "status" = Some (VStr "no_faces") ∧ r !! "status" ≠ Some (VStr "success").
Proof.
  unfold process_photo. rewrite bind_eval, detect_faces_opencv_eval.
  destruct (decide _); rewrite bind_eval;
    (destruct (Path_mkdir_exist_ok _ _) as [[e|[]] w1]; [done|]);
    rewrite bind_eval;
    (destruct (copy _ _ w1) as [[e|x] w2]; [done|]);
    intros [= <- <-]; [left|right]; by split.
Qed.

Lemma categorize_upload_status selected_person uploaded_file tmp_path w r w' :
  categorize_upload selected_person uploaded_file tmp_path w = (inr r, w') →
  r !! "status" = Some (VStr "success") ∧ r !! "status" ≠ Some (VStr "no_faces") ∨
  r !! "status" = Some (VStr "no_faces") ∧ r !! "status" ≠ Some (VStr "success").
Proof.
  unfold categorize_upload. rewrite bind_eval.
  destruct (mkstemp _ w) as [[e|[]] w1]; [done|]. rewrite bind_eval.
  destruct (write_bytes _ _ w1) as [[e|[]] w2]; [done|].
  rewrite bind_eval, label_cases.
  destruct (process_photo _ _ w2) as [[e|r'] w3] eqn:Hp; [done|].
  apply process_photo_status in Hp. rewrite bind_eval.
  destruct (unlink _ w3) as [[e|[]] w4]; [done|]. by intros [= <- <-].
Qed.

Lemma categorize_batch_counts selected_person ups tmp_paths : ∀ i w results w',
  categorize_batch selected_person ups tmp_paths i w = (inr results, w') →
  length results = length ups ∧
  count_status "success" results + count_status "no_faces" results = length results.
Proof.
  induction ups as [|u ups IH]; intros i w results w'; simpl.
  { by intros [= <- <-]. }
  rewrite bind_eval.
  destruct (categorize_upload _ _ _ w) as [[e|r] w1] eqn:Hu; [done|].
  apply categorize_upload_status in Hu. rewrite bind_eval.
  destruct (categorize_batch _ ups _ _ w1) as [[e|rs] w2] eqn:Hb; [done|].
  apply IH in Hb as [Hlen Hsum]. intros [= <- <-]. simpl.
  split; [by rewrite Hlen|]. unfold count_status in *.
  destruct Hu as [[Hs Hn] | [Hn Hs]].
  - rewrite (filter_cons_True _ r) by done.
    rewrite (filter_cons_False _ r) by done. simpl. lia.
  - rewrite (filter_cons_False _ r) by done.
    rewrite (filter_cons_True _ r) by done. simpl. lia.
Qed.

(** X16.  When the batch goes through, every upload has produced one
    record, and each record counts in exactly one of the two metrics: the
    page ends with [Processed n photos!] and two numbers that add up to
    [n], the number of uploads. *)
Theorem metrics_add_up ups choice tmp_paths w names w' :
  ups ≠ [] →
  (persons w).1 = inr names → names ≠ [] →
  categorize_form ups choice true tmp_paths w = (inr tt, w') →
  ∃ shown with_faces without,
    page w' = shown ++
      [st_success ("Processed " +:+ pretty (length ups) +:+ " photos!");
       st_metric "Photos with Faces" with_faces;
       st_metric "No Faces Detected" without] ∧
    with_faces + without = length ups.
Proof.
  intros Hups Hp Hnames. unfold categorize_form.
  destruct (persons w) as [found w0] eqn:Hpersons.
  apply persons_reads in Hpersons as Hsame. simpl in Hp. subst found w0.
  rewrite bool_decide_true by done. rewrite bind_eval, Hpersons.
  rewrite bool_decide_true by done. rewrite bind_eval.
  destruct (categorize_batch _ ups _ _ w) as [[e|rs] w1] eqn:Hb; [done|].
  apply categorize_batch_counts in Hb as [Hlen Hsum].
  intros [= <-].
  exists (page w1), (count_status "success" rs), (count_status "no_faces" rs).
  split; [|lia]. simpl. rewrite Hlen. by rewrite <-!app_assoc.
Qed.

End batch_loop.

(** ** Who can be selected *)

Section select_box.
Context `{cv : OpenCV}.

Lemma child_name_Some d k n : child_name d k = Some n ↔ k = d ++ [n].
Proof.
  unfold child_name. split.
  - case_decide as Hk; [|done]. destruct Hk as [Hne <-].
    intros [l ->]%last_Some. by rewrite removelast_last.
  - intros ->. rewrite decide_True.
    + apply last_snoc.
    + split; [by destruct d|apply removelast_last].
Qed.

Lemma NoDup_omap_inj {A B} (f : A → option B) (l : list A) :
  (∀ x y b, x ∈ l → y ∈ l → f x = Some b → f y = Some b → x = y) →
  NoDup l → NoDup (omap f l).
Proof.
  intros Hinj Hnd. induction Hnd as [|x l Hx Hnd IH]; simpl; [constructor|].
  assert (NoDup (omap f l)) as IH'.
  { apply IH. intros y z b ??. apply Hinj; by right. }
  destruct (f x) as [b|] eqn:E; [|done].
  constructor; [|done].
  intros (y & Hy & Ey)%list_elem_of_omap.
  apply Hx. rewrite (Hinj x y b); [done|by left|by right|done..].
Qed.

Lemma persons_eval w :
  persons w =
  match lookup_path w "data/registered" with
  | inl _ => (inr [], w)
  | inr (_, File _) => (inl NotADirectoryError, w)
  | inr (d, Dir) =>
      (inr (omap (λ cn : string * node,
                    match cn.2 with Dir => Some cn.1 | File _ => None end)
                 (listdir (files w) d)), w)
  end.
Proof.
  unfold persons. rewrite bind_eval. unfold gets.
  change (str (Path "data/registered")) with "data/registered".
  by destruct (lookup_path w "data/registered") as [e|[d [|b]]].
Qed.

Lemma persons_spec w reg :
  lookup_path w "data/registered" = inr (reg, Dir) →
  ∃ names, persons w = (inr names, w) ∧ NoDup names ∧
           ∀ n, n ∈ names ↔ files w !! (reg ++ [n]) = Some Dir.
Proof.
  intros Hreg. rewrite persons_eval, Hreg. eexists. split; [done|]. split.
  - apply NoDup_omap_inj.
    + intros [c1 n1] [c2 n2] b _ _. simpl. by destruct n1, n2; intros [= ->] [= ->].
    + unfold listdir. apply NoDup_omap_inj; [|apply NoDup_map_to_list].
      intros [k1 n1] [k2 n2] [c n] _ _. simpl.
      destruct (child_name reg k1) as [c1|] eqn:E1; [|done].
      destruct (child_name reg k2) as [c2|] eqn:E2; [|done].
      apply child_name_Some in E1, E2. simpl. by intros [= -> ->] [= -> ->]; subst.
  - intros n. rewrite list_elem_of_omap. split.
    + intros ([c m] & Hin & Hm). simpl in Hm. destruct m; [|done].
      injection Hm as ->. unfold listdir in Hin.
      apply list_elem_of_omap in Hin as ([k m] & Hin & Hk). simpl in Hk.
      destruct (child_name reg k) as [c|] eqn:E; [|done]. simpl in Hk.
      injection Hk as -> ->. apply child_name_Some in E as ->.
      by apply elem_of_map_to_list in Hin.
    + intros Hn. exists (n, Dir). split; [|done]. unfold listdir.
      apply list_elem_of_omap. exists (reg ++ [n], Dir). split.
      * by apply elem_of_map_to_list.
      * simpl. by rewrite (proj2 (child_name_Some reg _ n)).
Qed.

(** X17.  The select box offers exactly the folders directly below
    [data/registered], each of them once; regular files lying there are
    not persons.  Looking them up changes nothing. *)
Theorem persons_are_the_registered_folders w reg :
  lookup_path w "data/registered" = inr (reg, Dir) →
  ∃ names,
    persons w = (inr names, w) ∧ NoDup names ∧
    (∀ n, n ∈ names ↔ files w !! (reg ++ [n]) = Some Dir) ∧
    (∀ n b, files w !! (reg ++ [n]) = Some (File b) → n ∉ names).
Proof.
  intros (names & Hrun & Hnd & Hin)%persons_spec.
  exists names. split_and!; [done..|].
  intros n b Hb Hn%Hin. congruence.
Qed.

Lemma str_registered : str (data_dir // "registered") = "data/registered".
Proof. reflexivity. Qed.

(** X18.  Who has been registered can be selected: after a call of
    [register_person] that returns, the person's name is among the options
    of the select box. *)
Theorem registered_person_is_listed w name sample_images ok w' :
  storage_ready w → proper name →
  register_person name sample_images w = (inr ok, w') →
  ∃ names, persons w' = (inr names, w') ∧ name ∈ names.
Proof.
  intros Hready Hname Hrun.
  pose proof Hready as (Hcwd & Hdata & Hreg & _).
  pose proof (namei_registered w name Hname Hready) as Hd.
  pose proof (namei_storage w "registered" ltac:(by apply proper_literal) Hcwd Hdata)
    as Hr.
  rewrite str_registered in Hr.
  pose proof (register_person_adds _ _ _ _ _ Hrun) as (Hc & Hk & _).
  set (d := storage w ["registered"; name]) in *.
  assert (stat (files w') d = Some Dir) as Hdir.
  { revert Hrun. unfold register_person.
    rewrite bind_eval, Path_mkdir_exist_ok_eval, Hd.
    destruct (stat (files w) d) as [[|x]|] eqn:E; [| done |].
    - intros _. by apply Hk.
    - rewrite bind_eval. unfold enumerate.
      destruct (for_each _ _ _) as [[e|[]] w2] eqn:Hloop; [done|].
      apply copy_samples_only_adds in Hloop as (_ & Hk2 & _).
      intros [= _ <-]. apply Hk2. simpl. apply ensure_dir_stat.
      intros x. by rewrite E. }
  destruct (persons_spec w' (storage w ["registered"])) as (names & Hp & _ & Hin).
  { apply lookup_path_intro; [by apply (namei_mono w w')|by apply Hk]. }
  exists names. split; [done|]. apply Hin.
  unfold storage. rewrite <-app_assoc. simpl.
  rewrite <-stat_lookup by by destruct (cwd w). exact Hdir.
Qed.

(** X19.  With photos uploaded but no folder below [data/registered],
    the main area shows the warning and does nothing else: no select box
    is offered, and nothing is categorized even when the button is
    pressed. *)
Theorem nobody_registered_only_warns ups choice clicked tmp_paths w reg :
  ups ≠ [] →
  lookup_path w "data/registered" = inr (reg, Dir) →
  (∀ n, files w !! (reg ++ [n]) ≠ Some Dir) →
  categorize_form ups choice clicked tmp_paths w
  = (inr tt, show (st_warning "Please register at least one person first!") w).
Proof.
  intros Hups (names & Hp & _ & Hin)%persons_spec Hnone.
  assert (names = []) as ->.
  { destruct names as [|n names]; [done|].
    destruct (Hnone n). apply Hin. by left. }
  unfold categorize_form. rewrite bool_decide_true by done.
  rewrite bind_eval, Hp. by rewrite bool_decide_false by by intros ?.
Qed.

End select_box.

(** ** A start that cannot go through *)

Section blocked.
Context `{cv : OpenCV}.

Lemma set_files_ensure_id d w :
  stat (files w) d = Some Dir → set_files (ensure_dir d) w = w.
Proof. intros Hd. unfold set_files. rewrite ensure_dir_id by done. by destruct w. Qed.

(** X20.  A regular file in the place of [data], [data/registered] or
    [data/categorized] stops the program at the start:
    [mkdir(exist_ok=True)] accepts a directory that exists, not a file, so
    [__init__] raises [FileExistsError], and the script ends there without
    having changed anything. *)
Theorem startup_blocked_by_regular_file w x :
  stat (files w) (cwd w) = Some Dir →
  stat (files w) (storage w []) = Some (File x) ∨
  stat (files w) (storage w []) = Some Dir ∧
    (stat (files w) (storage w ["registered"]) = Some (File x) ∨
     stat (files w) (storage w ["registered"]) = Some Dir ∧
       stat (files w) (storage w ["categorized"]) = Some (File x)) →
  __init__ w = (inl FileExistsError, w) ∧
  ∀ i : Inputs, script i w = (inl FileExistsError, w).
Proof.
  intros Hcwd Hblock.
  assert (__init__ w = (inl FileExistsError, w)) as Hinit.
  { unfold __init__.
    rewrite bind_eval, Path_mkdir_exist_ok_eval, namei_data_dir by done.
    destruct Hblock as [-> | [Hdata Hblock]]; [done|].
    rewrite Hdata, set_files_ensure_id by done.
    rewrite bind_eval, Path_mkdir_exist_ok_eval.
    rewrite (namei_storage w "registered") by (try done; by apply proper_literal).
    destruct Hblock as [-> | [Hreg Hcat]]; [done|].
    rewrite Hreg, set_files_ensure_id by done.
    rewrite Path_mkdir_exist_ok_eval.
    rewrite (namei_storage w "categorized") by (try done; by apply proper_literal).
    by rewrite Hcat. }
  split; [done|]. intros i. unfold script. by rewrite bind_eval, Hinit.
Qed.

End blocked.

(** ** After the batch *)

Section previews.
Context `{cv : OpenCV}.

Lemma path_exists_adds w w' s :
  only_adds w w' → path_exists w s = true → path_exists w' s = true.
Proof.
  intros (Hc & Hk & Hn). unfold path_exists.
  destruct (lookup_path w s) as [|[k n]] eqn:E; [done|]. intros _.
  apply lookup_path_inv in E as [Hs Hst].
  pose proof (namei_mono w w' s k Hc Hk Hs) as Hs'.
  unfold lookup_path. rewrite Hs'. unfold stat in *.
  case_decide; [done|]. by destruct (Hn k n Hst) as (n' & -> & _).
Qed.

Lemma copy_destination src dst w dst' w' s b :
  copy src dst w = (inr dst', w') →
  lookup_path w src = inr (s, File b) →
  ∃ t n, lookup_path w' dst = inr (t, n) ∧ t ≠ s.
Proof.
  intros (-> & s' & b' & t & Hs' & Ht & Hnd & Hne & ->)%copy_inv Hs.
  rewrite Hs in Hs'. injection Hs' as <- <-.
  assert (keeps_dirs (files w) (<[t := File b]> (files w))) as Hk
    by by apply keeps_dirs_write.
  assert (t ≠ []) as Ht0 by (intros ->; by apply Hnd).
  unfold isdir in Ht.
  destruct (lookup_path w dst) as [e|[kd [|x]]] eqn:Hdst.
  - exists t, (File b). split; [|done].
    apply lookup_path_intro; [by apply (namei_mono w)|by apply stat_insert_eq].
  - apply lookup_path_inv in Hdst as [Hkd Hkdir].
    pose proof Hs as [_ Hsf]%lookup_path_inv.
    exists kd, Dir. split; [|congruence].
    apply lookup_path_intro; [by apply (namei_mono w)|].
    simpl. rewrite stat_insert_ne; [done|congruence].
  - exists t, (File b). split; [|done].
    apply lookup_path_intro; [by apply (namei_mono w)|by apply stat_insert_eq].
Qed.

(** The destination [process_photo] reports exists afterwards, and is
    not the photo it was given. *)
Lemma process_photo_destination image_path person_name w r w' s b :
  process_photo image_path person_name w = (inr r, w') →
  lookup_path w image_path = inr (s, File b) →
  ∃ dest t n, r !! "destination" = Some (VStr dest) ∧
              lookup_path w' dest = inr (t, n) ∧ t ≠ s.
Proof.
  intros Hrun Hs. revert Hrun. unfold process_photo.
  rewrite bind_eval, detect_faces_opencv_eval.
  pose proof (after_detection_files image_path w) as Hf0.
  pose proof (after_detection_cwd image_path w) as Hc0.
  set (w0 := after_detection image_path w) in *.
  assert (∀ folder w1, Path_mkdir_exist_ok folder w0 = (inr (), w1) →
            lookup_path w1 image_path = inr (s, File b)) as Hmk.
  { intros folder w1. rewrite Path_mkdir_exist_ok_eval.
    destruct (namei w0 (str folder)) as [|d]; [done|].
    assert (lookup_path (set_files (ensure_dir d) w0) image_path = inr (s, File b))
      by (apply lookup_path_ensure_dir; by rewrite (lookup_path_same w w0)).
    by destruct (stat (files w0) d) as [[|x]|]; intros [= <-]. }
  destruct (decide _) as [Hpos|Hpos]; rewrite bind_eval;
    (destruct (Path_mkdir_exist_ok _ w0) as [[e|[]] w1] eqn:Hm; [done|]);
    apply Hmk in Hm; rewrite bind_eval;
    (destruct (copy _ _ w1) as [[e|x] w2] eqn:Hc; [done|]);
    intros [= <- <-];
    destruct (copy_destination _ _ _ _ _ _ _ Hc Hm) as (t & n & Ht & Hne);
    eexists _, t, n; (split_and!; [done|exact Ht|exact Hne]).
Qed.

Lemma categorize_upload_destination selected_person uploaded_file tmp_path w r w' :
  categorize_upload selected_person uploaded_file tmp_path w = (inr r, w') →
  ∃ dest, r !! "destination" = Some (VStr dest) ∧ path_exists w' dest = true.
Proof.
  intros Hrun. pose proof Hrun as Hrun'. revert Hrun'.
  unfold categorize_upload at 1. rewrite bind_eval, mkstemp_eval.
  destruct (namei w tmp_path) as [e|k] eqn:Hk; [done|].
  destruct (stat (files w) k) as [n|] eqn:Hfresh; [done|]. intros _.
  revert Hrun. rewrite (categorize_upload_start _ _ _ _ k) by done.
  apply stat_None in Hfresh as Hfresh'. destruct Hfresh' as [Hkn Hknone].
  set (label := if decide (selected_person = "Unknown") then "unknown"
                else selected_person).
  set (data := getbuffer uploaded_file).
  set (w0 := set_files (insert k (File data)) w).
  assert (lookup_path w0 tmp_path = inr (k, File data)) as Hs0.
  { apply lookup_path_intro; [|by apply stat_insert_eq].
    apply (namei_mono w w0); [done|apply keeps_dirs_write; congruence|done]. }
  destruct (process_photo tmp_path label w0) as [[e|r'] w3] eqn:Hp; [done|].
  pose proof (process_photo_destination _ _ _ _ _ _ _ Hp Hs0)
    as (dest & t & n & Hdest & Hl & Hne).
  pose proof (process_photo_adds _ _ _ _ _ Hp) as (Hc & Hkd & Hn).
  destruct (Hn k (File data)) as (n' & Hn' & Hkind);
    [simpl; by rewrite lookup_insert_eq|].
  destruct n' as [|x]; [done|].
  rewrite bind_eval, unlink_eval.
  pose proof Hs0 as [Hk0 _]%lookup_path_inv.
  rewrite (lookup_path_intro w3 tmp_path k (File x));
    [|by apply (namei_mono w0 w3)|by rewrite stat_lookup].
  intros [= <- <-]. exists dest. split; [done|].
  unfold path_exists.
  apply lookup_path_inv in Hl as [Hl1 Hl2].
  rewrite (lookup_path_intro _ dest t n); [done| |].
  - apply (namei_mono w3); [done| |done].
    intros k' Hk'. simpl. unfold stat in *. case_decide; [done|].
    rewrite lookup_delete_ne; [done|]. intros <-. congruence.
  - simpl. unfold stat in *. case_decide; [done|]. by rewrite lookup_delete_ne.
Qed.

(** X21.  What the preview loop relies on: when the batch goes through,
    every record carries a destination, and every destination exists
    when the loop is over (later turns have not removed what earlier
    ones filed). *)
Theorem destinations_exist_after_batch selected_person ups tmp_paths i w results w' :
  categorize_batch selected_person ups tmp_paths i w = (inr results, w') →
  Forall (λ r : dict, ∃ dest, r !! "destination" = Some (VStr dest) ∧
                              path_exists w' dest = true) results.
Proof.
  revert i w results w'.
  induction ups as [|u ups IH]; intros i w results w'; simpl.
  { intros [= <- <-]. constructor. }
  rewrite bind_eval.
  destruct (categorize_upload _ _ _ w) as [[e|r] w1] eqn:Hu; [done|].
  apply categorize_upload_destination in Hu as (dest & Hdest & Hex).
  rewrite bind_eval.
  destruct (categorize_batch _ ups _ _ w1) as [[e|rs] w2] eqn:Hb; [done|].
  intros [= <- <-]. constructor; [|by eapply IH].
  exists dest. split; [done|].
  apply categorize_batch_adds in Hb. by eapply path_exists_adds.
Qed.

End previews.

(** ** What the page shows when the batch fails *)

Section summary.
Context `{cv : OpenCV}.











End summary.

(** ** Examples *)

Section more_examples.

Import scenario.

Ltac run := vm_compute; first [reflexivity | discriminate | done].

Ltac tree_ok := apply (bool_decide_eq_true_1 (tree _)); vm_compute; reflexivity.

Ltac decided P := apply (bool_decide_eq_true_1 P); vm_compute; reflexivity.

(** X3, witness: a label with a separator in it.  The parent folder is
    missing, [mkdir] raises, and the files are what they were. *)
Lemma process_photo_raises_without_copy_witness :
  (process_photo "group_photo.jpg" "family/2024" installed).1
    = inl FileNotFoundError ∧
  cwd (process_photo "group_photo.jpg" "family/2024" installed).2 = cwd installed ∧
  files (process_photo "group_photo.jpg" "family/2024" installed).2 = files installed.
Proof.
  split; [run|].
  destruct (process_photo "group_photo.jpg" "family/2024" installed)
    as [out w'] eqn:Hrun.
  pose proof (f_equal fst Hrun) as Hout. vm_compute in Hout. subst out.
  destruct (process_photo_raises_without_copy (cv := toy_cv)
              "group_photo.jpg" "family/2024" installed FileNotFoundError w' Hrun)
    as [Hcwd [Hfiles | (d & Hd & _)]].
  - by split.
  - vm_compute in Hd. discriminate.
Defined.

(** X5, witness: a photo that is not there. *)
Lemma unreadable_photo_is_not_filed_witness :
  process_photo "holiday.jpg" "team" installed
  = (inl FileNotFoundError,
     set_files (ensure_dir ["srv"; "app"; "data"; "categorized"; "unknown"]) installed).
Proof.
  apply (unreadable_photo_is_not_filed (cv := toy_cv) installed "holiday.jpg" "team").
  - run.
  - left. run.
  - run.
Defined.

(** X6, witness: the group photo is categorized again from the folder
    it was filed in. *)
Lemma photo_in_place_is_refused_witness :
  process_photo "data/categorized/team/group_photo.jpg" "team" team_filed
  = (inl SameFileError,
     after_detection "data/categorized/team/group_photo.jpg" team_filed).
Proof.
  apply (photo_in_place_is_refused (cv := toy_cv) team_filed
           "data/categorized/team/group_photo.jpg" "team"
           ["srv"; "app"; "data"; "categorized"; "team"] group_photo).
  - tree_ok.
  - run.
  - run.
Defined.

(** X7, witness: the group photo, with the cascade file missing. *)
Lemma cascade_failure_files_under_unknown_witness :
  ∃ w',
    @process_photo no_cascade "group_photo.jpg" "team" installed
    = (inr {[ "status" := VStr "no_faces";
              "destination" := VStr "data/categorized/unknown/group_photo.jpg" ]}, w') ∧
    files w' !! ["srv"; "app"; "data"; "categorized"; "unknown"; "group_photo.jpg"]
      = Some (File group_photo) ∧
    page w' =
      [st_error ("Error detecting faces: " +:+
                 "(-215:Assertion failed) !empty() in function 'detectMultiScale'")].
Proof.
  apply (cascade_failure_files_under_unknown (cv := no_cascade)
           installed "group_photo.jpg" "team"
           ["srv"; "app"; "group_photo.jpg"] group_photo group_photo group_photo
           "(-215:Assertion failed) !empty() in function 'detectMultiScale'"
           ["srv"; "app"; "data"; "categorized"; "unknown"]).
  - tree_ok.
  - run.
  - run.
  - run.
  - run.
  - run.
  - left. run.
  - run.
  - run.
Defined.

(** X8, witness: the group photo, filed under [team], is read from both
    places. *)
Lemma filed_photo_reads_back_witness :
  ∃ r w' dest,
    process_photo "group_photo.jpg" "team" installed = (inr r, w') ∧
    r !! "destination" = Some (VStr dest) ∧
    read_bytes dest w' = (inr group_photo, w') ∧
    read_bytes "group_photo.jpg" w' = (inr group_photo, w').
Proof.
  apply (filed_photo_reads_back (cv := toy_cv) installed "group_photo.jpg" "team"
           ["srv"; "app"; "group_photo.jpg"] group_photo
           ["srv"; "app"; "data"; "categorized"; "team"]).
  - tree_ok.
  - run.
  - run.
  - left. run.
  - run.
  - run.
Defined.

(** X9, witness: the label [/tmp/faces]. *)
Lemma absolute_label_leaves_storage_witness :
  ∃ r w',
    process_photo "group_photo.jpg" "/tmp/faces" installed = (inr r, w') ∧
    r !! "destination" = Some (VStr "/tmp/faces/group_photo.jpg") ∧
    files w' !! ["tmp"; "faces"; "group_photo.jpg"] = Some (File group_photo).
Proof.
  destruct (absolute_label_leaves_storage (cv := toy_cv) installed
              "group_photo.jpg" "/tmp/faces"
              ["srv"; "app"; "group_photo.jpg"] group_photo ["tmp"; "faces"])
    as (_ & r & w' & Hrun & Hdest & Hfiles).
  - run.
  - tree_ok.
  - run.
  - vm_compute. lia.
  - run.
  - left. run.
  - run.
  - run.
  - exists r, w'. split_and!; [done| |].
    + rewrite Hdest. run.
    + rewrite Hfiles. run.
Defined.

(** X10, witness: bob is registered with three samples, the second of
    which does not exist. *)
Lemma register_person_stops_at_missing_sample_witness :
  ∃ w',
    register_person "bob" ["group_photo.jpg"; "holiday.jpg"; "landscape.png"] installed
      = (inl FileNotFoundError, w') ∧
    files w' !! ["srv"; "app"; "data"; "registered"; "bob"; "sample_1.jpg"]
      = Some (File group_photo) ∧
    files w' !! ["srv"; "app"; "data"; "registered"; "bob"; "sample_3.jpg"] = None.
Proof.
  destruct (register_person_stops_at_missing_sample installed "bob"
              ["group_photo.jpg"] "holiday.jpg" ["landscape.png"]
              ["srv"; "app"; "data"; "registered"; "bob"]
              ["srv"; "app"; "holiday.jpg"])
    as (contents & Hcont & Hlen & Hrun).
  - run.
  - left. run.
  - decided (Forall (outside installed ["srv"; "app"; "data"; "registered"; "bob"])
                    ["group_photo.jpg"]).
  - intros [|i] Hi; [run|simpl in Hi; lia].
  - run.
  - run.
  - decided (¬ ["srv"; "app"; "data"; "registered"; "bob"]
               `prefix_of` ["srv"; "app"; "holiday.jpg"]).
  - pose proof (Hcont 0 "group_photo.jpg" eq_refl) as H0.
    destruct contents as [|c [|c' cs]]; [simpl in Hlen; lia| |simpl in Hlen; lia].
    vm_compute in H0. injection H0 as <-.
    eexists. split; [exact Hrun|]. split; run.
Defined.

(** X11, witness: bob is registered through the form with two uploads
    that carry the same file name; both samples hold the second one. *)
Lemma register_form_registers_witness :
  ∃ w',
    register_form true "bob" [upload; retake] "/tmp/tmp1x8s0kfz" installed
      = (inr tt, w') ∧
    page w' = [st_success "bob registered!"] ∧
    files w' !! ["srv"; "app"; "data"; "registered"; "bob"; "sample_1.jpg"]
      = Some (File landscape) ∧
    files w' !! ["srv"; "app"; "data"; "registered"; "bob"; "sample_2.jpg"]
      = Some (File landscape) ∧
    files w' !! ["tmp"; "tmp1x8s0kfz"] = None.
Proof.
  destruct (register_form_registers installed "bob" [upload; retake]
              (Path "/tmp/tmp1x8s0kfz") ["tmp"; "tmp1x8s0kfz"]
              ["srv"; "app"; "data"; "registered"; "bob"])
    as (w' & Hrun & Hpage & _ & Hsamples & _ & Hgone & _).
  - tree_ok.
  - done.
  - done.
  - apply Path_wf.
  - run.
  - run.
  - run.
  - repeat constructor; by apply proper_literal.
  - run.
  - left. run.
  - decided (¬ ["tmp"; "tmp1x8s0kfz"]
               `prefix_of` ["srv"; "app"; "data"; "registered"; "bob"]).
  - decided (¬ ["srv"; "app"; "data"; "registered"; "bob"]
               `prefix_of` ["tmp"; "tmp1x8s0kfz"]).
  - intros [|[|i]] Hi; [run..|simpl in Hi; lia].
  - exists w'. split_and!.
    + exact Hrun.
    + rewrite Hpage. run.
    + etrans; [apply (Hsamples 0 upload eq_refl)|run].
    + etrans; [apply (Hsamples 1 retake eq_refl)|run].
    + apply Hgone. by exists [].
Defined.

(** X12, witness: the form is sent with a name that has a separator in
    it.  Registration raises, and the temporary directory is gone all the
    same. *)
Lemma temporary_directory_is_removed_witness :
  (register_form true "family/2024" [upload] "/tmp/tmp1x8s0kfz" installed).1
    = inl FileNotFoundError ∧
  files (register_form true "family/2024" [upload] "/tmp/tmp1x8s0kfz" installed).2
    !! ["tmp"; "tmp1x8s0kfz"; "me.jpg"] = None.
Proof.
  split; [run|].
  destruct (register_form true "family/2024" [upload] "/tmp/tmp1x8s0kfz" installed)
    as [out w'] eqn:Hrun.
  apply (temporary_directory_is_removed true "family/2024" [upload] "/tmp/tmp1x8s0kfz"
           installed ["tmp"; "tmp1x8s0kfz"] out w'); [tree_ok|run|run|exact Hrun|].
  by exists ["me.jpg"].
Defined.

(** X13, witness: a whole visit on a machine on which the program has
    never run. *)
Lemma script_only_adds_witness : only_adds fresh (script visit fresh).2.
Proof. apply (script_only_adds (cv := toy_cv) visit fresh). tree_ok. Defined.

(** X14, witness: alice's upload goes through one turn of the loop. *)
Lemma batch_turn_net_effect_witness :
  ∃ r w',
    categorize_upload "alice" upload "/tmp/tmpk3v9a1xq.jpg" alice_registered
      = (inr r, w') ∧
    r !! "destination" = Some (VStr "data/categorized/alice/tmpk3v9a1xq.jpg") ∧
    r !! "status" = Some (VStr "success") ∧
    files w' !! ["srv"; "app"; "data"; "categorized"; "alice"; "tmpk3v9a1xq.jpg"]
      = Some (File group_photo) ∧
    files w' !! ["tmp"; "tmpk3v9a1xq.jpg"] = None.
Proof.
  destruct (batch_turn_net_effect (cv := toy_cv) alice_registered "alice" upload
              "/tmp/tmpk3v9a1xq.jpg" ["tmp"; "tmpk3v9a1xq.jpg"]
              ["srv"; "app"; "data"; "categorized"; "alice"])
    as (r & w' & Hrun & Hdest & Hstatus & Hfiles).
  - tree_ok.
  - run.
  - run.
  - run.
  - left. run.
  - run.
  - done.
  - done.
  - exists r, w'. split_and!; [exact Hrun| | | |].
    + rewrite Hdest. run.
    + rewrite Hstatus. run.
    + rewrite Hfiles. run.
    + rewrite Hfiles. run.
Defined.

(** X15, witness: the folder for alice's photos cannot be made, because
    a regular file has its name. *)
Lemma failed_turn_leaves_temporary_file_witness :
  (categorize_upload "alice" upload "/tmp/tmpk3v9a1xq.jpg" alice_blocked).1
    = inl FileExistsError ∧
  files (categorize_upload "alice" upload "/tmp/tmpk3v9a1xq.jpg" alice_blocked).2
    !! ["tmp"; "tmpk3v9a1xq.jpg"] = Some (File group_photo).
Proof.
  split; [run|].
  destruct (categorize_upload "alice" upload "/tmp/tmpk3v9a1xq.jpg" alice_blocked)
    as [out w'] eqn:Hrun.
  pose proof (f_equal fst Hrun) as Hout. vm_compute in Hout. subst out.
  apply (failed_turn_leaves_temporary_file (cv := toy_cv) alice_blocked "alice" upload
           "/tmp/tmpk3v9a1xq.jpg" ["tmp"; "tmpk3v9a1xq.jpg"] FileExistsError w');
    [run|run|exact Hrun].
Defined.

(** X16, witness: a portrait and a seascape are categorized for
    alice. *)
Lemma metrics_add_up_witness :
  ∃ shown with_faces without,
    page (categorize_form [upload; sea] 0 true tmp_names alice_registered).2
    = shown ++ [st_success "Processed 2 photos!";
                st_metric "Photos with Faces" with_faces;
                st_metric "No Faces Detected" without] ∧
    with_faces + without = 2.
Proof.
  destruct (categorize_form [upload; sea] 0 true tmp_names alice_registered)
    as [out w'] eqn:Hrun.
  pose proof (f_equal fst Hrun) as Hout. vm_compute in Hout. subst out.
  apply (metrics_add_up (cv := toy_cv) [upload; sea] 0 tmp_names alice_registered
           ["alice"] w'); [done|run|done|exact Hrun].
Defined.

(** X17, witness: alice is the one person registered. *)
Lemma persons_are_the_registered_folders_witness :
  ∃ names,
    persons alice_registered = (inr names, alice_registered) ∧
    "alice" ∈ names ∧ "sample_1.jpg" ∉ names.
Proof.
  destruct (persons_are_the_registered_folders alice_registered
              ["srv"; "app"; "data"; "registered"])
    as (names & Hrun & _ & Hin & _); [run|].
  exists names. split_and!; [done|apply Hin; run|].
  intros Hn%Hin. revert Hn. run.
Defined.

(** X18, witness: alice, once registered, is offered. *)
Lemma registered_person_is_listed_witness :
  ∃ names, persons alice_registered = (inr names, alice_registered) ∧ "alice" ∈ names.
Proof.
  unfold alice_registered.
  destruct (register_person "alice" ["group_photo.jpg"; "landscape.png"] installed)
    as [out w'] eqn:Hrun.
  pose proof (f_equal fst Hrun) as Hout. vm_compute in Hout. subst out.
  apply (registered_person_is_listed installed "alice"
           ["group_photo.jpg"; "landscape.png"] true w').
  - decided (storage_ready installed).
  - by apply proper_literal.
  - exact Hrun.
Defined.

(** X19, witness: photos are uploaded before anybody is registered. *)
Lemma nobody_registered_only_warns_witness :
  categorize_form [upload] 0 true tmp_names installed
  = (inr tt, show (st_warning "Please register at least one person first!") installed).
Proof.
  apply (nobody_registered_only_warns (cv := toy_cv) [upload] 0 true tmp_names installed
           ["srv"; "app"; "data"; "registered"]); [done|run|].
  intros n Hn.
  assert (empty_folder (files installed) ["srv"; "app"; "data"; "registered"]) as He
    by decided (empty_folder (files installed) ["srv"; "app"; "data"; "registered"]).
  apply (child_ne ["srv"; "app"; "data"; "registered"] n).
  apply (He _ _ Hn), prefix_child.
Defined.

(** X20, witness: [data] is a regular file. *)
Lemma startup_blocked_by_regular_file_witness :
  __init__ data_taken = (inl FileExistsError, data_taken) ∧
  ∀ i : Inputs, script (H := toy_cv) i data_taken = (inl FileExistsError, data_taken).
Proof.
  apply (startup_blocked_by_regular_file (cv := toy_cv) data_taken []).
  - run.
  - left. run.
Defined.

(** X21, witness: a portrait and a seascape are categorized for
    alice. *)
Lemma destinations_exist_after_batch_witness :
  ∃ results w',
    categorize_batch "alice" [upload; sea] tmp_names 0 alice_registered
      = (inr results, w') ∧
    length results = 2 ∧
    Forall (λ r : dict, ∃ dest, r !! "destination" = Some (VStr dest) ∧
                                path_exists w' dest = true) results.
Proof.
  destruct (categorize_batch "alice" [upload; sea] tmp_names 0 alice_registered)
    as [out w'] eqn:Hrun.
  pose proof (f_equal (λ o, match o.1 with inr rs => Some (length rs) | inl _ => None end)
                      Hrun) as Hout.
  vm_compute in Hout.
  destruct out as [e|results]; [discriminate Hout|].
  exists results, w'. split_and!; [done|by injection Hout|].
  apply (destinations_exist_after_batch (cv := toy_cv) "alice" [upload; sea]
           tmp_names 0 alice_registered results w' Hrun).
Defined.


End more_examples.
